(** * Mock Trial Timer: the timeline and budget engine of [src/App.js]

    A shallow embedding of the timing logic of the [App] component
    (timeline generation, navigation, budget accounting and the time
    editor) together with the properties its specification states.

    Conventions of the embedding.

    - A JavaScript number is a [jsnum]: an integer, [+Infinity],
      [-Infinity] or [NaN].  The program only ever builds integers out of
      integers (additions, subtractions, [Math.floor (x / 60)], [x % 60])
      so finite values are unbounded integers of [Z]; the 2^53 precision
      limit of doubles is not modelled.
    - A React event handler reads the state of the render that created it
      (its closure) and queues updates.  Every handler below therefore
      takes the rendered state [st] and threads a second, queued state [q]
      through the setter calls, in the order of the source; values are
      always read from [st], never from [q], except inside functional
      updates [setX (prev => ...)], which receive the queued value.
    - Array positions are integers of [Z], as in the source; reading
      outside the array gives [None] (JavaScript's [undefined]). *)

From stdpp Require Import base list list_numbers strings pretty.
From Stdlib Require Import ZArith Lia Ascii.
Local Open Scope Z_scope.

(** ** JavaScript numbers *)

Inductive jsnum : Type :=
  | Fin (z : Z)
  | PInf
  | NInf
  | NaN.

Module Js.

Definition neg (a : jsnum) : jsnum :=
  match a with
  | Fin z => Fin (- z)
  | PInf => NInf
  | NInf => PInf
  | NaN => NaN
  end.

Definition add (a b : jsnum) : jsnum :=
  match a, b with
  | NaN, _ | _, NaN => NaN
  | Fin x, Fin y => Fin (x + y)
  | PInf, NInf | NInf, PInf => NaN
  | PInf, _ | _, PInf => PInf
  | NInf, _ | _, NInf => NInf
  end.

Definition sub (a b : jsnum) : jsnum := add a (neg b).

Definition mul (a b : jsnum) : jsnum :=
  match a, b with
  | NaN, _ | _, NaN => NaN
  | Fin x, Fin y => Fin (x * y)
  | Fin x, PInf | PInf, Fin x =>
      if x =? 0 then NaN else if 0 <? x then PInf else NInf
  | Fin x, NInf | NInf, Fin x =>
      if x =? 0 then NaN else if 0 <? x then NInf else PInf
  | PInf, PInf | NInf, NInf => PInf
  | PInf, NInf | NInf, PInf => NInf
  end.

(** [a < b]; every comparison with [NaN] is false. *)
Definition ltb (a b : jsnum) : bool :=
  match a, b with
  | NaN, _ | _, NaN => false
  | Fin x, Fin y => x <? y
  | NInf, NInf => false
  | NInf, _ => true
  | _, NInf => false
  | PInf, _ => false
  | Fin _, PInf => true
  end.

Definition gtb (a b : jsnum) : bool := ltb b a.

(** [a === b] on numbers. *)
Definition eqb (a b : jsnum) : bool :=
  match a, b with
  | Fin x, Fin y => x =? y
  | PInf, PInf | NInf, NInf => true
  | _, _ => false
  end.

(** [Math.min (a, b)] and [Math.max (a, b)]. *)
Definition min (a b : jsnum) : jsnum :=
  match a, b with
  | NaN, _ | _, NaN => NaN
  | _, _ => if ltb b a then b else a
  end.

Definition max (a b : jsnum) : jsnum :=
  match a, b with
  | NaN, _ | _, NaN => NaN
  | _, _ => if ltb a b then b else a
  end.

(** Truthiness of a number: [0] and [NaN] are falsy. *)
Definition truthy (a : jsnum) : bool :=
  match a with
  | Fin z => negb (z =? 0)
  | PInf | NInf => true
  | NaN => false
  end.

(** [a || b] on numbers. *)
Definition or (a b : jsnum) : jsnum := if truthy a then a else b.

(** [Math.floor (a / d)] for a positive integer constant [d]. *)
Definition floorDiv (a : jsnum) (d : Z) : jsnum :=
  match a with
  | Fin z => Fin (z / d)
  | other => other
  end.

(** [a % d] for a positive integer constant [d]: the sign follows the
    dividend, and the remainder of an infinity is [NaN]. *)
Definition rem (a : jsnum) (d : Z) : jsnum :=
  match a with
  | Fin z => Fin (Z.rem z d)
  | _ => NaN
  end.

(** *** [parseInt (s, 10)] on a string *)

Definition isWhiteSpace (c : ascii) : bool :=
  let n := Z.of_N (Ascii.N_of_ascii c) in
  (n =? 32) || ((9 <=? n) && (n <=? 13)).

Definition digitValue (c : ascii) : option Z :=
  let n := Z.of_N (Ascii.N_of_ascii c) in
  if (48 <=? n) && (n <=? 57) then Some (n - 48) else None.

Fixpoint skipWhiteSpace (s : string) : string :=
  match s with
  | String c s' => if isWhiteSpace c then skipWhiteSpace s' else s
  | EmptyString => s
  end.

(** Reads the longest prefix of decimal digits; [seen] tells whether a
    digit has been read, [acc] is the value read so far. *)
Fixpoint readDigits (s : string) (seen : bool) (acc : Z) : option Z :=
  match s with
  | String c s' =>
      match digitValue c with
      | Some d => readDigits s' true (10 * acc + d)
      | None => if seen then Some acc else None
      end
  | EmptyString => if seen then Some acc else None
  end.

Definition parseInt (s : string) : jsnum :=
  let s1 := skipWhiteSpace s in
  let '(sign, s2) :=
    match s1 with
    | String c s' =>
        if Ascii.eqb c "-"%char then (-1, s')
        else if Ascii.eqb c "+"%char then (1, s')
        else (1, s1)
    | EmptyString => (1, s1)
    end in
  match readDigits s2 false 0 with
  | Some v => Fin (sign * v)
  | None => NaN
  end.

(** [parseInt (n, 10)] applied to a number: the number is first turned
    into its decimal text, so an integer is read back unchanged while
    the texts "Infinity", "-Infinity" and "NaN" hold no digit. *)
Definition parseIntNum (n : jsnum) : jsnum :=
  match n with
  | Fin z => Fin z
  | _ => NaN
  end.

End Js.

Declare Scope js_scope.
Delimit Scope js_scope with js.
Infix "+" := Js.add : js_scope.
Infix "-" := Js.sub : js_scope.
Infix "*" := Js.mul : js_scope.

Global Instance jsnum_eq_dec : EqDecision jsnum.
Proof. solve_decision. Defined.

(** ** Data model *)

(** The [type] field of a segment; [end_] is the source's ['end']. *)
Inductive SegType : Type :=
  | opening | direct | cross | redirect | recross | closing | rebuttal | end_.

Inductive Side : Type := plaintiff | defense.

Global Instance SegType_eq_dec : EqDecision SegType.
Proof. solve_decision. Defined.

Global Instance Side_eq_dec : EqDecision Side.
Proof. solve_decision. Defined.

(** A segment object.  The end marker has neither [side] nor
    [witnessIndex]; openings, closings and the rebuttal have no
    [witnessIndex]: the missing properties read as [undefined], here
    [None].  [isConditional] is only ever written as [true] and only ever
    read for its truthiness, so a missing flag is [false]. *)
Record Segment : Type := mkSegment {
  id : Z;
  type : SegType;
  side : option Side;
  witnessIndex : option Z;
  name : string;
  duration : jsnum;
  isConditional : bool;
  actualElapsed : jsnum
}.

Global Instance Segment_eq_dec : EqDecision Segment.
Proof. solve_decision. Defined.

(** [{ ...seg, actualElapsed: v }] *)
Definition withActualElapsed (v : jsnum) (seg : Segment) : Segment :=
  {| id := id seg; type := type seg; side := side seg;
     witnessIndex := witnessIndex seg; name := name seg;
     duration := duration seg; isConditional := isConditional seg;
     actualElapsed := v |}.

(** The [trialConfig] object, without the display-only switch
    [showTotalSideTimes]. *)
Record TrialConfig : Type := mkTrialConfig {
  pOpeningDuration : jsnum;
  dOpeningDuration : jsnum;
  pOverallDirectDuration : jsnum;
  dOverallCrossDuration : jsnum;
  dOverallDirectDuration : jsnum;
  pOverallCrossDuration : jsnum;
  pClosingDuration : jsnum;
  dClosingDuration : jsnum;
  maxRebuttalDuration : jsnum;
  plaintiffWitnessCount : Z;
  defenseWitnessCount : Z
}.

(** The initial value of [trialConfig] (source lines 10-28). *)
Definition defaultConfig : TrialConfig :=
  {| pOpeningDuration := Fin (5 * 60);
     dOpeningDuration := Fin (5 * 60);
     pOverallDirectDuration := Fin (25 * 60);
     dOverallCrossDuration := Fin (18 * 60);
     dOverallDirectDuration := Fin (25 * 60);
     pOverallCrossDuration := Fin (18 * 60);
     pClosingDuration := Fin (7 * 60);
     dClosingDuration := Fin (7 * 60);
     maxRebuttalDuration := Fin (3 * 60);
     plaintiffWitnessCount := 3;
     defenseWitnessCount := 3 |}.

(** ** Timeline generator: [generateAllTrialSegments] *)

(** The pair of the local variables [segments] and [idCounter]. *)
Definition Builder : Type := list Segment * Z.

(** [segments.push ({ id: idCounter++, ... })]: [mk] builds the object
    from the identifier it receives. *)
Definition push (mk : Z → Segment) (b : Builder) : Builder :=
  (b.1 ++ [mk b.2], b.2 + 1).

(** Body of the loop over the plaintiff's witnesses (lines 110-114). *)
Definition pushPlaintiffWitness (i : Z) (b : Builder) : Builder :=
  let b := push (fun n => mkSegment n direct (Some plaintiff) (Some i)
                   ("P Witness " +:+ pretty (i + 1) +:+ " - Direct")
                   PInf false (Fin 0)) b in
  let b := push (fun n => mkSegment n cross (Some defense) (Some i)
                   ("P Witness " +:+ pretty (i + 1) +:+ " - Cross")
                   PInf false (Fin 0)) b in
  let b := push (fun n => mkSegment n redirect (Some plaintiff) (Some i)
                   ("P Witness " +:+ pretty (i + 1) +:+ " - Redirect")
                   PInf true (Fin 0)) b in
  push (fun n => mkSegment n recross (Some defense) (Some i)
          ("P Witness " +:+ pretty (i + 1) +:+ " - Recross")
          PInf true (Fin 0)) b.

(** Body of the loop over the defense's witnesses (lines 119-123). *)
Definition pushDefenseWitness (i : Z) (b : Builder) : Builder :=
  let b := push (fun n => mkSegment n direct (Some defense) (Some i)
                   ("D Witness " +:+ pretty (i + 1) +:+ " - Direct")
                   PInf false (Fin 0)) b in
  let b := push (fun n => mkSegment n cross (Some plaintiff) (Some i)
                   ("D Witness " +:+ pretty (i + 1) +:+ " - Cross")
                   PInf false (Fin 0)) b in
  let b := push (fun n => mkSegment n redirect (Some defense) (Some i)
                   ("D Witness " +:+ pretty (i + 1) +:+ " - Redirect")
                   PInf true (Fin 0)) b in
  push (fun n => mkSegment n recross (Some plaintiff) (Some i)
          ("D Witness " +:+ pretty (i + 1) +:+ " - Recross")
          PInf true (Fin 0)) b.

(** [for (let i = 0; i < count; i++) body]: the body runs for the
    integers [0 <= i < count], in order. *)
Definition forCount (count : Z) (body : Z → Builder → Builder)
    (b : Builder) : Builder :=
  foldl (fun acc i => body i acc) b (seqZ 0 count).

Definition generateAllTrialSegments (cfg : TrialConfig) : list Segment :=
  let b : Builder := ([], 0) in
  let b := push (fun n => mkSegment n opening (Some plaintiff) None
                   "Plaintiff Opening" (pOpeningDuration cfg) false (Fin 0)) b in
  let b := push (fun n => mkSegment n opening (Some defense) None
                   "Defense Opening" (dOpeningDuration cfg) false (Fin 0)) b in
  let b := forCount (plaintiffWitnessCount cfg) pushPlaintiffWitness b in
  let b := forCount (defenseWitnessCount cfg) pushDefenseWitness b in
  let b := push (fun n => mkSegment n closing (Some plaintiff) None
                   "Plaintiff Closing" (pClosingDuration cfg) false (Fin 0)) b in
  let b := push (fun n => mkSegment n closing (Some defense) None
                   "Defense Closing" (dClosingDuration cfg) false (Fin 0)) b in
  let b := push (fun n => mkSegment n rebuttal (Some plaintiff) None
                   "Rebuttal" PInf false (Fin 0)) b in
  let b := push (fun n => mkSegment n end_ None None
                   "Trial Ended" (Fin 0) false (Fin 0)) b in
  b.1.

(** ** Application state *)

(** The four shared examination budgets, named by their configuration
    key. *)
Module Key.
Inductive t : Type :=
  | pOverallDirectDuration
  | dOverallCrossDuration
  | dOverallDirectDuration
  | pOverallCrossDuration.
End Key.

Global Instance Key_eq_dec : EqDecision Key.t.
Proof. solve_decision. Defined.

(** The context object handed to [openEditModal]. *)
Inductive EditContext : Type :=
  | CtxSegment (segment : Segment)
  | CtxBudget (budgetKey : option Key.t) (usedBeforeCurrentSegment : jsnum)
              (currentTotalBudget : jsnum)
  | CtxFixedRemaining (segment : Segment) (originalDuration : jsnum).

(** The [useState] cells that the timing logic reads or writes.  The
    cells that only steer the presentation ([showSettings],
    [showEditModal], the confirmation dialogs, the PDF flags) are left
    out; [showEditModal] is true exactly when [editModalContext] is set. *)
Record AppState : Type := mkAppState {
  trialConfig : TrialConfig;
  trialSegments : list Segment;
  currentSegmentIndex : Z;
  currentSegmentElapsed : jsnum;
  isRunning : bool;
  showRedirectPrompt : bool;
  showRecrossPrompt : bool;
  editModalContext : option EditContext;
  editTimeMinutes : jsnum;
  editTimeSeconds : jsnum
}.

(** The state setters.  [setTrialSegments] and [setCurrentSegmentElapsed]
    are given in their functional form where the source uses it. *)
Definition setTrialSegments (f : list Segment → list Segment)
    (q : AppState) : AppState :=
  mkAppState (trialConfig q) (f (trialSegments q)) (currentSegmentIndex q)
    (currentSegmentElapsed q) (isRunning q) (showRedirectPrompt q)
    (showRecrossPrompt q) (editModalContext q) (editTimeMinutes q)
    (editTimeSeconds q).

Definition setCurrentSegmentIndex (i : Z) (q : AppState) : AppState :=
  mkAppState (trialConfig q) (trialSegments q) i
    (currentSegmentElapsed q) (isRunning q) (showRedirectPrompt q)
    (showRecrossPrompt q) (editModalContext q) (editTimeMinutes q)
    (editTimeSeconds q).

Definition setCurrentSegmentElapsed (v : jsnum) (q : AppState) : AppState :=
  mkAppState (trialConfig q) (trialSegments q) (currentSegmentIndex q)
    v (isRunning q) (showRedirectPrompt q)
    (showRecrossPrompt q) (editModalContext q) (editTimeMinutes q)
    (editTimeSeconds q).

Definition setIsRunning (b : bool) (q : AppState) : AppState :=
  mkAppState (trialConfig q) (trialSegments q) (currentSegmentIndex q)
    (currentSegmentElapsed q) b (showRedirectPrompt q)
    (showRecrossPrompt q) (editModalContext q) (editTimeMinutes q)
    (editTimeSeconds q).

Definition setShowRedirectPrompt (b : bool) (q : AppState) : AppState :=
  mkAppState (trialConfig q) (trialSegments q) (currentSegmentIndex q)
    (currentSegmentElapsed q) (isRunning q) b
    (showRecrossPrompt q) (editModalContext q) (editTimeMinutes q)
    (editTimeSeconds q).

Definition setShowRecrossPrompt (b : bool) (q : AppState) : AppState :=
  mkAppState (trialConfig q) (trialSegments q) (currentSegmentIndex q)
    (currentSegmentElapsed q) (isRunning q) (showRedirectPrompt q)
    b (editModalContext q) (editTimeMinutes q)
    (editTimeSeconds q).

Definition setEditModalContext (c : option EditContext)
    (q : AppState) : AppState :=
  mkAppState (trialConfig q) (trialSegments q) (currentSegmentIndex q)
    (currentSegmentElapsed q) (isRunning q) (showRedirectPrompt q)
    (showRecrossPrompt q) c (editTimeMinutes q)
    (editTimeSeconds q).

Definition setEditTimeMinutes (v : jsnum) (q : AppState) : AppState :=
  mkAppState (trialConfig q) (trialSegments q) (currentSegmentIndex q)
    (currentSegmentElapsed q) (isRunning q) (showRedirectPrompt q)
    (showRecrossPrompt q) (editModalContext q) v
    (editTimeSeconds q).

Definition setEditTimeSeconds (v : jsnum) (q : AppState) : AppState :=
  mkAppState (trialConfig q) (trialSegments q) (currentSegmentIndex q)
    (currentSegmentElapsed q) (isRunning q) (showRedirectPrompt q)
    (showRecrossPrompt q) (editModalContext q) (editTimeMinutes q)
    v.

(** [arr[i]]: [undefined] outside the array. *)
Definition segAt (arr : list Segment) (i : Z) : option Segment :=
  if decide (0 ≤ i) then arr !! Z.to_nat i else None.

(** [arr[i] = f (arr[i])] for a position inside the array; every such
    assignment of the source is guarded by a test that the position
    holds a segment. *)
Definition alterAt (f : Segment → Segment) (i : Z)
    (arr : list Segment) : list Segment :=
  if decide (0 ≤ i) then alter f (Z.to_nat i) arr else arr.

(** [arr.length] *)
Definition len (arr : list Segment) : Z := Z.of_nat (length arr).

(** The suffix of the array that starts at position [i >= 0]: what a
    [while (i < arr.length && ...) i++] loop walks through. *)
Definition fromIndex (arr : list Segment) (i : Z) : list Segment :=
  drop (Z.to_nat i) arr.

(** [arr[i]?.actualElapsed || 0] *)
Definition elapsedAt (arr : list Segment) (i : Z) : jsnum :=
  match segAt arr i with
  | Some seg => Js.or (actualElapsed seg) (Fin 0)
  | None => Fin 0
  end.

(** [const currentSegment = trialSegments[currentSegmentIndex]] *)
Definition currentSegment (st : AppState) : option Segment :=
  segAt (trialSegments st) (currentSegmentIndex st).

(** The values of the [useState] calls at mount. *)
Definition initialState : AppState :=
  mkAppState defaultConfig [] 0 (Fin 0) false false false None (Fin 0) (Fin 0).

(** [startTrial] *)
Definition startTrial (st : AppState) : AppState :=
  let generatedSegments := generateAllTrialSegments (trialConfig st) in
  let q := setTrialSegments (fun _ => generatedSegments) st in
  let q := setCurrentSegmentIndex 0 q in
  let q := setCurrentSegmentElapsed (Fin 0) q in
  setIsRunning false q.

(** ** Navigation *)

(** [handleTimerTick]: [setCurrentSegmentElapsed (prev => prev + 1)]. *)
Definition handleTimerTick (q : AppState) : AppState :=
  setCurrentSegmentElapsed (currentSegmentElapsed q + Fin 1)%js q.

(** [saveCurrentSegmentTime], called from a handler rendered in [st]. *)
Definition saveCurrentSegmentTime (st q : AppState) : AppState :=
  match currentSegment st with
  | Some cs =>
      if decide (type cs ≠ end_) then
        setTrialSegments
          (alterAt (withActualElapsed (currentSegmentElapsed st))
                   (currentSegmentIndex st)) q
      else q
  | None => q
  end.

(** The test of both prompt triggers of [moveToNextSegment]: the current
    segment has type [from] and the next one has type [to] and the same
    witness index. *)
Definition promptDue (from to : SegType) (st : AppState) : bool :=
  match currentSegment st with
  | Some cs =>
      bool_decide (type cs = from) &&
      match segAt (trialSegments st) (currentSegmentIndex st + 1) with
      | Some nextPotentialSegment =>
          bool_decide (type nextPotentialSegment = to) &&
          bool_decide (witnessIndex nextPotentialSegment = witnessIndex cs)
      | None => false
      end
  | None => false
  end.

(** The [while] loop of [moveToNextSegment] (lines 195-203); [rest] is
    the part of the array from [nextIndex] on. *)
Fixpoint skipForward (cur : option Segment) (rest : list Segment)
    (nextIndex : Z) : Z :=
  match rest with
  | [] => nextIndex
  | seg :: rest' =>
      if isConditional seg && Js.eqb (actualElapsed seg) (Fin 0) then
        if bool_decide (witnessIndex seg = cur ≫= witnessIndex) &&
           bool_decide (side seg = cur ≫= side)
        then skipForward cur rest' (nextIndex + 1)
        else nextIndex
      else nextIndex
  end.

Definition moveToNextSegment (st : AppState) : AppState :=
  let q := setIsRunning false st in
  let q := saveCurrentSegmentTime st q in
  if promptDue cross redirect st then setShowRedirectPrompt true q
  else if promptDue redirect recross st then setShowRecrossPrompt true q
  else
    let nextIndex :=
      skipForward (currentSegment st)
        (fromIndex (trialSegments st) (currentSegmentIndex st + 1))
        (currentSegmentIndex st + 1) in
    if decide (nextIndex < len (trialSegments st)) then
      let q := setCurrentSegmentIndex nextIndex q in
      setCurrentSegmentElapsed (elapsedAt (trialSegments st) nextIndex) q
    else
      let q := setCurrentSegmentIndex (len (trialSegments st) - 1) q in
      setCurrentSegmentElapsed (Fin 0) q.

(** The [while] loop of [moveToPreviousSegment] (lines 229-233); [n] is
    [prevIndex + 1], so the loop ends with [prevIndex = -1] when [n]
    reaches zero. *)
Fixpoint skipBackward (cur : option Segment) (arr : list Segment)
    (n : nat) : Z :=
  match n with
  | O => -1
  | S p =>
      match arr !! p with
      | Some seg =>
          if isConditional seg && Js.eqb (actualElapsed seg) (Fin 0) &&
             (bool_decide (witnessIndex seg = cur ≫= witnessIndex) &&
              bool_decide (side seg = cur ≫= side))
          then skipBackward cur arr p
          else Z.of_nat p
      | None => Z.of_nat p
      end
  end.

Definition moveToPreviousSegment (st : AppState) : AppState :=
  let q := setIsRunning false st in
  let q := saveCurrentSegmentTime st q in
  if decide (currentSegmentIndex st > 0) then
    let prevIndex :=
      skipBackward (currentSegment st) (trialSegments st)
        (Z.to_nat (currentSegmentIndex st)) in
    let q := setCurrentSegmentIndex prevIndex q in
    setCurrentSegmentElapsed (elapsedAt (trialSegments st) prevIndex) q
  else
    setCurrentSegmentElapsed (Fin 0) q.

(** [toggleTimer] *)
Definition toggleTimer (st : AppState) : AppState :=
  if showRedirectPrompt st || showRecrossPrompt st ||
     match currentSegment st with
     | Some cs => bool_decide (type cs = end_)
     | None => false
     end
  then st
  else setIsRunning (negb (isRunning st)) st.

(** The [while] loops of the two prompt handlers (lines 504-514 and
    541-551): [matches] is the test on the segment's type, [rest] the
    part of the rendered array from [tempIndex] on; every round queues
    one functional update that marks the segment as skipped. *)
Fixpoint markSkipped (matches : SegType → bool) (cs : Segment)
    (rest : list Segment) (tempIndex : Z) (q : AppState) : Z * AppState :=
  match rest with
  | [] => (tempIndex, q)
  | seg :: rest' =>
      if matches (type seg) &&
         bool_decide (witnessIndex seg = witnessIndex cs) &&
         bool_decide (side seg = side cs)
      then
        markSkipped matches cs rest' (tempIndex + 1)
          (setTrialSegments (alterAt (withActualElapsed (Fin 0)) tempIndex) q)
      else (tempIndex, q)
  end.

(** Common end of both prompt handlers (lines 518-521 and 555-558). *)
Definition landOn (st : AppState) (nextIndexToAdvanceTo : Z)
    (q : AppState) : AppState :=
  let q := setCurrentSegmentIndex nextIndexToAdvanceTo q in
  let q := setCurrentSegmentElapsed
             (elapsedAt (trialSegments st) nextIndexToAdvanceTo) q in
  setIsRunning false q.

(** [handleRedirectDecisionPrompt].  The prompt is rendered only while
    [currentSegment] exists (line 1402), which the loop relies on. *)
Definition handleRedirectDecisionPrompt (proceedWithRedirect : bool)
    (st : AppState) : AppState :=
  let q := setShowRedirectPrompt false st in
  if proceedWithRedirect then landOn st (currentSegmentIndex st + 1) q
  else
    match currentSegment st with
    | Some cs =>
        let '(tempIndex, q) :=
          markSkipped
            (fun t => bool_decide (t = redirect) || bool_decide (t = recross))
            cs (fromIndex (trialSegments st) (currentSegmentIndex st + 3))
            (currentSegmentIndex st + 3) q in
        landOn st tempIndex q
    | None => landOn st (currentSegmentIndex st + 3) q
    end.

(** [handleRecrossDecisionPrompt] (rendered under the same condition,
    line 1427). *)
Definition handleRecrossDecisionPrompt (proceedWithRecross : bool)
    (st : AppState) : AppState :=
  let q := setShowRecrossPrompt false st in
  if proceedWithRecross then landOn st (currentSegmentIndex st + 1) q
  else
    match currentSegment st with
    | Some cs =>
        let '(tempIndex, q) :=
          markSkipped (fun t => bool_decide (t = recross))
            cs (fromIndex (trialSegments st) (currentSegmentIndex st + 1))
            (currentSegmentIndex st + 1) q in
        landOn st tempIndex q
    | None => landOn st (currentSegmentIndex st + 1) q
    end.

(** [arr.findIndex (seg => seg.id === segmentId)], counting from [i]. *)
Fixpoint findIndexFrom (segmentId : Z) (arr : list Segment) (i : Z) : Z :=
  match arr with
  | [] => -1
  | seg :: arr' =>
      if decide (id seg = segmentId) then i
      else findIndexFrom segmentId arr' (i + 1)
  end.

(** [goToSegmentFromSummary] *)
Definition goToSegmentFromSummary (segmentId : Z) (st : AppState) : AppState :=
  let q := setIsRunning false st in
  let segmentIndex := findIndexFrom segmentId (trialSegments st) 0 in
  if decide (segmentIndex ≠ -1) then
    let q := saveCurrentSegmentTime st q in
    let q := setCurrentSegmentIndex segmentIndex q in
    match segAt (trialSegments st) segmentIndex with
    | Some seg => setCurrentSegmentElapsed (actualElapsed seg) q
    | None => q
    end
  else q.

(** ** Budget accounting *)

(** [hay.includes (needle)] *)
Fixpoint includes (needle hay : string) : bool :=
  String.prefix needle hay ||
  match hay with
  | String _ hay' => includes needle hay'
  | EmptyString => false
  end.

(** [doesSegmentContributeToBudget]; the key [null] (here [None]) falls
    into the [default] case. *)
Definition doesSegmentContributeToBudget (segment : Segment)
    (budgetKey : option Key.t) : bool :=
  let isDirectType :=
    bool_decide (type segment = direct) || bool_decide (type segment = redirect) in
  let isCrossType :=
    bool_decide (type segment = cross) || bool_decide (type segment = recross) in
  match budgetKey with
  | Some Key.pOverallDirectDuration =>
      isDirectType && bool_decide (side segment = Some plaintiff)
  | Some Key.dOverallCrossDuration =>
      isCrossType && bool_decide (side segment = Some defense) &&
      includes "P Witness" (name segment)
  | Some Key.dOverallDirectDuration =>
      isDirectType && bool_decide (side segment = Some defense)
  | Some Key.pOverallCrossDuration =>
      isCrossType && bool_decide (side segment = Some plaintiff) &&
      includes "D Witness" (name segment)
  | None => false
  end.

(** [trialConfig[budgetKey]].  Under the key [null] the property is
    missing; the value is only used in subtractions, where [undefined]
    behaves as [NaN]. *)
Definition configBudget (cfg : TrialConfig) (budgetKey : option Key.t) : jsnum :=
  match budgetKey with
  | Some Key.pOverallDirectDuration => pOverallDirectDuration cfg
  | Some Key.dOverallCrossDuration => dOverallCrossDuration cfg
  | Some Key.dOverallDirectDuration => dOverallDirectDuration cfg
  | Some Key.pOverallCrossDuration => pOverallCrossDuration cfg
  | None => NaN
  end.

(** One of the four [...UsedBeforeCurrent] accumulators of the budget
    memo (lines 579-595): the [forEach] visits [arr] from position
    [index] on and adds the elapsed time of the contributing segments
    that lie before the active one and have recorded time. *)
Fixpoint usedBeforeLoop (budgetKey : option Key.t) (current : Z)
    (arr : list Segment) (index : Z) (acc : jsnum) : jsnum :=
  match arr with
  | [] => acc
  | segment :: arr' =>
      usedBeforeLoop budgetKey current arr' (index + 1)
        (if bool_decide (index < current) &&
            Js.gtb (actualElapsed segment) (Fin 0) &&
            doesSegmentContributeToBudget segment budgetKey
         then (acc + actualElapsed segment)%js else acc)
  end.

Definition usedBeforeCurrent (budgetKey : option Key.t) (st : AppState) : jsnum :=
  usedBeforeLoop budgetKey (currentSegmentIndex st) (trialSegments st) 0 (Fin 0).

(** ** Remaining time and overtime: [displayRemainingTime] *)

Inductive DisplayType : Type := TypeNA | TypeFixed | TypeBudget.

Global Instance DisplayType_eq_dec : EqDecision DisplayType.
Proof. solve_decision. Defined.

Record Display : Type := mkDisplay {
  value : jsnum;
  dtype : DisplayType;
  budgetKey : option Key.t;
  usedBeforeCurrentSegment : jsnum;
  totalBudget : jsnum;
  overtime : jsnum
}.

(** The dynamic allotment of the rebuttal (lines 707-716). *)
Definition rebuttalBudget (st : AppState) : jsnum :=
  let pClosingSegment :=
    List.find (fun s => bool_decide (type s = closing) &&
                        bool_decide (side s = Some plaintiff))
              (trialSegments st) in
  let pClosingActualElapsed :=
    match pClosingSegment with
    | Some s => actualElapsed s
    | None => Fin 0
    end in
  Js.max (Fin 0)
    (Js.min (maxRebuttalDuration (trialConfig st))
            (pClosingDuration (trialConfig st) - pClosingActualElapsed)%js).

(** The budget an examination segment draws from (lines 727-743): the
    total, the time used before the active segment and the key. *)
Definition budgetOf (cs : Segment) (st : AppState)
  : jsnum * jsnum * option Key.t :=
  let pick k := (configBudget (trialConfig st) (Some k),
                 usedBeforeCurrent (Some k) st, Some k) in
  if doesSegmentContributeToBudget cs (Some Key.pOverallDirectDuration)
  then pick Key.pOverallDirectDuration
  else if doesSegmentContributeToBudget cs (Some Key.dOverallCrossDuration)
  then pick Key.dOverallCrossDuration
  else if doesSegmentContributeToBudget cs (Some Key.dOverallDirectDuration)
  then pick Key.dOverallDirectDuration
  else if doesSegmentContributeToBudget cs (Some Key.pOverallCrossDuration)
  then pick Key.pOverallCrossDuration
  else (Fin 0, Fin 0, None).

(** The shared end of the three branches: [remaining] is clipped at 0
    and what it lacks becomes the overtime. *)
Definition clipRemaining (remaining : jsnum) : jsnum * jsnum :=
  if Js.ltb remaining (Fin 0) then (Fin 0, Js.neg remaining)
  else (remaining, Fin 0).

Definition displayRemainingTime (st : AppState) : Display :=
  match currentSegment st with
  | None => mkDisplay (Fin 0) TypeNA None (Fin 0) (Fin 0) (Fin 0)
  | Some cs =>
      if negb (Js.eqb (duration cs) PInf) then
        let totalBudgetCalculated := duration cs in
        let '(remaining, currentOvertime) :=
          clipRemaining (totalBudgetCalculated - currentSegmentElapsed st)%js in
        mkDisplay remaining TypeFixed None (Fin 0) totalBudgetCalculated
          currentOvertime
      else if decide (type cs = rebuttal) then
        let totalBudgetCalculated := rebuttalBudget st in
        let '(remaining, currentOvertime) :=
          clipRemaining (totalBudgetCalculated - currentSegmentElapsed st)%js in
        mkDisplay remaining TypeFixed None (Fin 0) totalBudgetCalculated
          currentOvertime
      else
        let '(totalBudgetCalculated, usedBeforeCurrentSegmentCalculated, key) :=
          budgetOf cs st in
        let '(remaining, currentOvertime) :=
          clipRemaining
            (totalBudgetCalculated -
             (usedBeforeCurrentSegmentCalculated + currentSegmentElapsed st))%js in
        mkDisplay remaining TypeBudget key usedBeforeCurrentSegmentCalculated
          totalBudgetCalculated currentOvertime
  end.

(** ** Time editor *)

(** The time that the dialog shows when it opens: the local variable
    [initialTimeInSeconds] of [openEditModal] (lines 780-788). *)
Definition initialTimeInSeconds (context : EditContext) (st : AppState) : jsnum :=
  match context with
  | CtxSegment segment =>
      if decide (Some (id segment) = id <$> currentSegment st)
      then currentSegmentElapsed st
      else actualElapsed segment
  | CtxBudget _ _ _ | CtxFixedRemaining _ _ =>
      value (displayRemainingTime st)
  end.

(** [openEditModal] *)
Definition openEditModal (context : EditContext) (st : AppState) : AppState :=
  let q := setIsRunning false st in
  let q := setEditModalContext (Some context) q in
  let q := setEditTimeMinutes
             (Js.floorDiv (initialTimeInSeconds context st) 60) q in
  setEditTimeSeconds (Js.rem (initialTimeInSeconds context st) 60) q.

(** The contexts that the three edit buttons of the timer view build
    (lines 1270, 1306 and 1319). *)
Definition editCurrentTimeContext (st : AppState) : option EditContext :=
  match currentSegment st with
  | Some cs => if decide (type cs ≠ end_) then Some (CtxSegment cs) else None
  | None => None
  end.

Definition editBudgetContext (st : AppState) : option EditContext :=
  let d := displayRemainingTime st in
  match currentSegment st with
  | Some cs =>
      if decide (dtype d = TypeBudget ∧ type cs ≠ end_)
      then Some (CtxBudget (budgetKey d) (usedBeforeCurrentSegment d) (totalBudget d))
      else None
  | None => None
  end.

Definition editFixedContext (st : AppState) : option EditContext :=
  let d := displayRemainingTime st in
  match currentSegment st with
  | Some cs =>
      if decide (dtype d = TypeFixed ∧ type cs ≠ end_)
      then Some (CtxFixedRemaining cs (totalBudget d))
      else None
  | None => None
  end.

(** The [onChange] handlers of the two input fields of the modal (lines
    1641 and 1651); [text] is [e.target.value]. *)
Definition changeEditTimeMinutes (text : string) (q : AppState) : AppState :=
  setEditTimeMinutes (Js.max (Fin 0) (Js.or (Js.parseInt text) (Fin 0))) q.

Definition changeEditTimeSeconds (text : string) (q : AppState) : AppState :=
  setEditTimeSeconds
    (Js.max (Fin 0) (Js.min (Fin 59) (Js.or (Js.parseInt text) (Fin 0)))) q.

(** [closeEditModal] *)
Definition closeEditModal (q : AppState) : AppState :=
  let q := setEditModalContext None q in
  let q := setEditTimeMinutes (Fin 0) q in
  setEditTimeSeconds (Fin 0) q.

(** The [for] loop of the budget edit (lines 851-859): [n] is [i + 1];
    [excessToRemove] is threaded through the rounds. *)
Fixpoint deductLoop (budgetKey : option Key.t) (n : nat)
    (excessToRemove : jsnum) (newSegments : list Segment) : list Segment :=
  match n with
  | O => newSegments
  | S i =>
      if Js.gtb excessToRemove (Fin 0) then
        match newSegments !! i with
        | Some segment =>
            if doesSegmentContributeToBudget segment budgetKey &&
               Js.gtb (actualElapsed segment) (Fin 0)
            then
              let canDeduct := Js.min excessToRemove (actualElapsed segment) in
              deductLoop budgetKey i (excessToRemove - canDeduct)%js
                (<[i := withActualElapsed
                          (actualElapsed segment - canDeduct)%js segment]>
                   newSegments)
            else deductLoop budgetKey i excessToRemove newSegments
        | None => newSegments
        end
      else newSegments
  end.

(** [const segToUpdate = newSegments.find (s => s.id === i); if
    (segToUpdate) segToUpdate.actualElapsed = v]: the first object with
    that identifier is written in place. *)
Fixpoint setFirstById (i : Z) (v : jsnum) (arr : list Segment) : list Segment :=
  match arr with
  | [] => []
  | s :: arr' =>
      if decide (id s = i) then withActualElapsed v s :: arr'
      else s :: setFirstById i v arr'
  end.

(** [handleEditTimeSave] *)
Definition handleEditTimeSave (st : AppState) : AppState :=
  match editModalContext st with
  | None => st
  | Some context =>
      let newTimeInSecondsFromModal :=
        (Js.parseIntNum (editTimeMinutes st) * Fin 60 +
         Js.parseIntNum (editTimeSeconds st))%js in
      let q :=
        match context with
        | CtxSegment segment =>
            let q :=
              setTrialSegments
                (map (fun seg =>
                        if decide (id seg = id segment)
                        then withActualElapsed newTimeInSecondsFromModal seg
                        else seg)) st in
            if decide (Some (id segment) = id <$> currentSegment st)
            then setCurrentSegmentElapsed newTimeInSecondsFromModal q
            else q
        | CtxBudget key usedBefore _ =>
            let totalBudget := configBudget (trialConfig st) key in
            let desiredTotalUsed := (totalBudget - newTimeInSecondsFromModal)%js in
            let calculatedCurrentSegmentElapsed :=
              (desiredTotalUsed - usedBefore)%js in
            if Js.ltb calculatedCurrentSegmentElapsed (Fin 0) then
              let excessToRemove := Js.neg calculatedCurrentSegmentElapsed in
              let q :=
                setTrialSegments
                  (deductLoop key (Z.to_nat (currentSegmentIndex st))
                     excessToRemove) st in
              setCurrentSegmentElapsed (Fin 0) q
            else
              setCurrentSegmentElapsed
                (Js.min calculatedCurrentSegmentElapsed
                        (totalBudget - usedBefore)%js) st
        | CtxFixedRemaining segment _ =>
            let originalDuration := duration segment in
            let newCalculatedElapsed :=
              (originalDuration - newTimeInSecondsFromModal)%js in
            let finalElapsed :=
              Js.max (Fin 0) (Js.min newCalculatedElapsed originalDuration) in
            let q := setCurrentSegmentElapsed finalElapsed st in
            setTrialSegments (setFirstById (id segment) finalElapsed) q
        end in
      closeEditModal q
  end.


Definition witnessCount (value : string) : jsnum :=
  Js.max (Fin 0) (Js.or (Js.parseInt value) (Fin 0)).

(** ** Events of a run *)

(** What can happen to a started trial: the one-second timer fires, or
    the user presses a control, answers a prompt or picks a segment in
    the summary. *)
Inductive Event : Type :=
  | Tick
  | ToggleTimer
  | Next
  | Previous
  | RedirectDecision (yes : bool)
  | RecrossDecision (yes : bool)
  | GoTo (segmentId : Z).

(** The interval that calls [handleTimerTick] exists only while
    [isRunning] holds (lines 249-257). *)
Definition step (st : AppState) (ev : Event) : AppState :=
  match ev with
  | Tick => if isRunning st then handleTimerTick st else st
  | ToggleTimer => toggleTimer st
  | Next => moveToNextSegment st
  | Previous => moveToPreviousSegment st
  | RedirectDecision yes => handleRedirectDecisionPrompt yes st
  | RecrossDecision yes => handleRecrossDecisionPrompt yes st
  | GoTo segmentId => goToSegmentFromSummary segmentId st
  end.

Definition run (st : AppState) (evs : list Event) : AppState :=
  foldl step st evs.

(** Number of timer ticks delivered while the timer was running. *)
Fixpoint ticksDelivered (st : AppState) (evs : list Event) : Z :=
  match evs with
  | [] => 0
  | ev :: evs' =>
      (match ev with
       | Tick => if isRunning st then 1 else 0
       | _ => 0
       end) + ticksDelivered (step st ev) evs'
  end.

(** The row of control buttons is rendered (line 1335). *)
Definition controlsVisible (st : AppState) : bool :=
  negb (bool_decide (is_Some (editModalContext st)) ||
        showRedirectPrompt st || showRecrossPrompt st) &&
  match currentSegment st with
  | Some cs => bool_decide (type cs ≠ end_)
  | None => false
  end.

(** The filters of the two columns of the summary (lines 1499-1503 and
    1535-1539). *)
Definition inSummary (s : Segment) : bool :=
  Js.gtb (actualElapsed s) (Fin 0) && bool_decide (type s ≠ end_) &&
  ((bool_decide (side s = Some plaintiff) &&
    (bool_decide (type s ∈ [opening; closing; rebuttal; direct; redirect]) ||
     (bool_decide (type s ∈ [cross; recross]) && includes "D Witness" (name s)))) ||
   (bool_decide (side s = Some defense) &&
    (bool_decide (type s ∈ [opening; closing; direct; redirect]) ||
     (bool_decide (type s ∈ [cross; recross]) && includes "P Witness" (name s))))).

(** The user interface offers the event in state [st]: [Previous] is
    disabled on the first segment and [Next] on the last one (lines 1363
    and 1374), the controls are hidden while a prompt or the edit dialog
    is open, a prompt can only be answered while it is shown (lines 1402
    and 1427), and the summary lists the segments with recorded time. *)
Definition offered (st : AppState) (ev : Event) : bool :=
  match ev with
  | Tick => true
  | ToggleTimer => controlsVisible st
  | Next =>
      controlsVisible st &&
      negb (bool_decide (currentSegmentIndex st >= len (trialSegments st) - 1))
  | Previous =>
      controlsVisible st && negb (bool_decide (currentSegmentIndex st = 0))
  | RedirectDecision _ =>
      showRedirectPrompt st && bool_decide (is_Some (currentSegment st))
  | RecrossDecision _ =>
      showRecrossPrompt st && bool_decide (is_Some (currentSegment st))
  | GoTo segmentId =>
      negb (bool_decide (is_Some (editModalContext st)) ||
            showRedirectPrompt st || showRecrossPrompt st) &&
      existsb (fun s => bool_decide (id s = segmentId) && inSummary s)
              (trialSegments st)
  end.

Fixpoint offeredAll (st : AppState) (evs : list Event) : bool :=
  match evs with
  | [] => true
  | ev :: evs' => offered st ev && offeredAll (step st ev) evs'
  end.

(** ** Shape of the generated timeline *)

(** The four segments that one round of a witness loop appends, for the
    witness index [i] when [idCounter] is [n]. *)
Definition plaintiffWitnessSegments (i n : Z) : list Segment :=
  (pushPlaintiffWitness i ([], n)).1.

Definition defenseWitnessSegments (i n : Z) : list Segment :=
  (pushDefenseWitness i ([], n)).1.

(** The segments appended by a whole witness loop over [indices],
    starting with [idCounter = n]. *)
Fixpoint witnessBlocks (block : Z → Z → list Segment) (indices : list Z)
    (n : Z) : list Segment :=
  match indices with
  | [] => []
  | i :: indices' => block i n ++ witnessBlocks block indices' (n + 4)
  end.

(** The closing part of the timeline, for [idCounter = n]. *)
Definition closingSegments (cfg : TrialConfig) (n : Z) : list Segment :=
  [ mkSegment n closing (Some plaintiff) None "Plaintiff Closing"
      (pClosingDuration cfg) false (Fin 0);
    mkSegment (n + 1) closing (Some defense) None "Defense Closing"
      (dClosingDuration cfg) false (Fin 0);
    mkSegment (n + 2) rebuttal (Some plaintiff) None "Rebuttal"
      PInf false (Fin 0);
    mkSegment (n + 3) end_ None None "Trial Ended" (Fin 0) false (Fin 0) ].

Definition openingSegments (cfg : TrialConfig) : list Segment :=
  [ mkSegment 0 opening (Some plaintiff) None "Plaintiff Opening"
      (pOpeningDuration cfg) false (Fin 0);
    mkSegment 1 opening (Some defense) None "Defense Opening"
      (dOpeningDuration cfg) false (Fin 0) ].

(** What a segment is, apart from its identifier, label and times: the
    phase kind, the side, the witness index and the conditional flag. *)
Definition kindOf (s : Segment) : SegType * option Side * option Z * bool :=
  (type s, side s, witnessIndex s, isConditional s).

(** The kinds of the four segments that start at position [base] of a
    timeline. *)
Definition quadrupleAt (segs : list Segment) (base : Z)
  : list (SegType * option Side * option Z * bool) :=
  kindOf <$> take 4 (fromIndex segs base).

(** The quadruple of the witness [i] of side [own], examined in cross by
    [other], in the order of the generator: the side that called the
    witness takes the direct and the redirect, the opposing side the
    cross and the recross. *)
Definition quadrupleOfCode (own other : Side) (i : Z)
  : list (SegType * option Side * option Z * bool) :=
  [ (direct, Some own, Some i, false);
    (cross, Some other, Some i, false);
    (redirect, Some own, Some i, true);
    (recross, Some other, Some i, true) ].

(** The quadruple as the specification lists it: the redirect given to
    the cross-examining side and the recross to the calling side. *)
Definition quadrupleOfSpec (own other : Side) (i : Z)
  : list (SegType * option Side * option Z * bool) :=
  [ (direct, Some own, Some i, false);
    (cross, Some other, Some i, false);
    (redirect, Some other, Some i, true);
    (recross, Some own, Some i, true) ].

(** The ordering of the witness quadruples as the specification lists
    it, for every configuration and witness. *)
Definition quadruplesAsSpecified : Prop :=
  ∀ (cfg : TrialConfig) (i : Z),
    (0 ≤ i < plaintiffWitnessCount cfg →
     quadrupleAt (generateAllTrialSegments cfg) (2 + 4 * i)
     = quadrupleOfSpec plaintiff defense i) ∧
    (0 ≤ plaintiffWitnessCount cfg → 0 ≤ i < defenseWitnessCount cfg →
     quadrupleAt (generateAllTrialSegments cfg)
       (2 + 4 * plaintiffWitnessCount cfg + 4 * i)
     = quadrupleOfSpec defense plaintiff i).

(** ** States of a started trial *)

(** [eraseElapsed] forgets the recorded time of a segment; a list of
    segments is the timeline of [cfg] when it differs from the generated
    list at most in the recorded times, which is all that the handlers
    ever change. *)
Definition eraseElapsed (s : Segment) : Segment := withActualElapsed (Fin 0) s.

Definition sameTimeline (cfg : TrialConfig) (segs : list Segment) : Prop :=
  eraseElapsed <$> segs = generateAllTrialSegments cfg.

(** The default durations with [p] plaintiff and [d] defense witnesses. *)
Definition configWith (p d : Z) : TrialConfig :=
  {| pOpeningDuration := pOpeningDuration defaultConfig;
     dOpeningDuration := dOpeningDuration defaultConfig;
     pOverallDirectDuration := pOverallDirectDuration defaultConfig;
     dOverallCrossDuration := dOverallCrossDuration defaultConfig;
     dOverallDirectDuration := dOverallDirectDuration defaultConfig;
     pOverallCrossDuration := pOverallCrossDuration defaultConfig;
     pClosingDuration := pClosingDuration defaultConfig;
     dClosingDuration := dClosingDuration defaultConfig;
     maxRebuttalDuration := maxRebuttalDuration defaultConfig;
     plaintiffWitnessCount := p;
     defenseWitnessCount := d |}.

(** The state right after "Start Trial" was pressed with the
    configuration [cfg]. *)
Definition startedWith (cfg : TrialConfig) : AppState :=
  startTrial (mkAppState cfg [] 0 (Fin 0) false false false None (Fin 0) (Fin 0)).

(** A run that reaches the rebuttal after the plaintiff's closing
    (configured 420 s) used 300 s; the rebuttal cap is 180 s. *)
Definition rebuttalExample : AppState :=
  run (startedWith (configWith 0 0))
      ([Next; Next; ToggleTimer] ++ replicate 300 Tick ++ [Next; Next]).

(** The front part of a timeline: the openings and the witness blocks. *)
Definition frontSegments (cfg : TrialConfig) : list Segment :=
  openingSegments cfg
  ++ witnessBlocks plaintiffWitnessSegments (seqZ 0 (plaintiffWitnessCount cfg)) 2
  ++ witnessBlocks defenseWitnessSegments (seqZ 0 (defenseWitnessCount cfg))
       (2 + 4 * Z.of_nat (length (seqZ 0 (plaintiffWitnessCount cfg)))).

(** ** Notions used to state the editor's properties *)

(** The user fills the two fields of the edit dialog with the numbers
    [m] and [s] (what the [onChange] handlers store for such input). *)
Definition enterTime (m s : jsnum) (q : AppState) : AppState :=
  setEditTimeSeconds s (setEditTimeMinutes m q).

(** What a segment adds to the usage of the budget [key]: its recorded
    time when it draws on the budget and has recorded time. *)
Definition contribution (key : option Key.t) (s : Segment) : Z :=
  if doesSegmentContributeToBudget s key then
    match actualElapsed s with
    | Fin z => if 0 <? z then z else 0
    | _ => 0
    end
  else 0.

Definition usedAmong (key : option Key.t) (l : list Segment) : Z :=
  foldr (fun s acc => contribution key s + acc) 0 l.

(** [s1] is [s0] with a recorded time that was left alone or lowered,
    without passing below zero. *)
Definition notRaised (s0 s1 : Segment) : Prop :=
  eraseElapsed s0 = eraseElapsed s1 ∧
  (s1 = s0 ∨
   ∃ z0 z1, actualElapsed s0 = Fin z0 ∧ actualElapsed s1 = Fin z1
            ∧ 0 ≤ z1 ≤ z0).

(** The recorded times of the segments that draw on the budget [key]
    are integers. *)
Definition budgetTimesFinite (key : option Key.t) (l : list Segment) : Prop :=
  Forall (fun s => doesSegmentContributeToBudget s key = true →
                   ∃ z, actualElapsed s = Fin z) l.

(** A run with one plaintiff witness that reaches the redirect after a
    direct examination of 100 s; the redirect draws on the plaintiff's
    direct budget of 1500 s. *)
Definition budgetExample : AppState :=
  run (startedWith (configWith 1 0))
      ([Next; Next; ToggleTimer] ++ replicate 100 Tick
       ++ [Next; Next; RedirectDecision true]).

(** ** Runs used as test cases *)

(** One plaintiff and one defense witness.  The redirect of the
    plaintiff's witness (position 4) is taken for 4 s, the user steps
    back to the cross (position 3) and forward again, so that the
    redirect prompt is pending a second time. *)
Definition redirectPromptAgain : list Event :=
  [Next; Next; Next; Next; RedirectDecision true; ToggleTimer;
   Tick; Tick; Tick; Tick; Previous; Next].

(** One plaintiff witness; the redirect (position 4) is entered and
    left, so that the recross prompt is pending. *)
Definition recrossPromptPending : list Event :=
  [Next; Next; Next; Next; RedirectDecision true; Next].

(** The opening (position 0, identifier 0) runs for 5 s, is left and
    entered again, and runs for 3 more seconds. *)
Definition openingRevisited : list Event :=
  [ToggleTimer; Tick; Tick; Tick; Tick; Tick; Next; Previous;
   ToggleTimer; Tick; Tick; Tick].

(** [Math.max (lo, Math.min (x, hi))] on integers. *)
Definition clamp (x lo hi : Z) : Z := Z.max lo (Z.min x hi).

(** ** Conservation of ticks *)

(** Sum of the recorded times of all segments. *)
Definition totalRecorded (segs : list Segment) : jsnum :=
  foldr (fun s acc => (actualElapsed s + acc)%js) (Fin 0) segs.

(** The part of the live counter that is not yet recorded in the active
    segment: the counter is loaded with the recorded time when a segment
    is entered, so only the difference is new. *)
Definition uncommittedElapsed (st : AppState) : jsnum :=
  match currentSegment st with
  | Some cs => (currentSegmentElapsed st - actualElapsed cs)%js
  | None => currentSegmentElapsed st
  end.

(** No tick is lost or counted twice along the run [evs] from [st0]. *)
Definition ticksConserved (st0 : AppState) (evs : list Event) : Prop :=
  (totalRecorded (trialSegments (run st0 evs))
   + uncommittedElapsed (run st0 evs))%js
  = Fin (ticksDelivered st0 evs).

(** Ticks, starting and pausing the timer, advance and retreat. *)
Definition isTickAdvanceRetreat (ev : Event) : bool :=
  match ev with
  | Tick | ToggleTimer | Next | Previous => true
  | _ => false
  end.

(** The same and the answers to the prompts: every event but the jump. *)
Definition isTimingEvent (ev : Event) : bool :=
  match ev with
  | GoTo _ => false
  | _ => true
  end.

(** The conservation of ticks as the specification states it: along
    every sequence of ticks, advances and retreats from a freshly
    generated timeline, retreat on the first segment included. *)
Definition conservationAsSpecified : Prop :=
  ∀ (cfg : TrialConfig) (evs : list Event),
    forallb isTickAdvanceRetreat evs = true →
    ticksConserved (startedWith cfg) evs.

(** A run that retreats on the first segment: 5 ticks, "Previous", 3
    more ticks, "Next". *)
Definition retreatOnFirst : list Event :=
  [ToggleTimer; Tick; Tick; Tick; Tick; Tick; Previous;
   ToggleTimer; Tick; Tick; Tick; Next].

(** The recorded time of a segment as an integer, and the sum over a
    list. *)
Definition recordedZ (s : Segment) : Z :=
  match actualElapsed s with
  | Fin z => z
  | _ => 0
  end.

Definition sumRecorded (l : list Segment) : Z :=
  foldr (fun s acc => recordedZ s + acc) 0 l.

(** Local structure of a timeline: three positions after a cross there
    is a segment that is neither a redirect nor a recross, and a
    redirect is followed by a segment of the other side. *)
Fixpoint chained (l : list Segment) : Prop :=
  match l with
  | [] => True
  | s :: l' =>
      (type s = cross →
       ∃ t, l' !! 2%nat = Some t ∧ type t ≠ redirect ∧ type t ≠ recross)
      ∧ (type s = redirect → ∃ t, l' !! 0%nat = Some t ∧ side t ≠ side s)
      ∧ chained l'
  end.

(** The list starts with a segment that is neither a redirect nor a
    recross. *)
Definition startsPlain (l : list Segment) : Prop :=
  ∃ t, head l = Some t ∧ type t ≠ redirect ∧ type t ≠ recross.

(** What holds in every state of a run of timing events that the user
    interface offers, [ticks] being the number of ticks delivered so
    far. *)
Record RunInvariant (st : AppState) (ticks : Z) : Prop := {
  inv_shape : sameTimeline (trialConfig st) (trialSegments st);
  inv_index : 0 ≤ currentSegmentIndex st < len (trialSegments st);
  inv_finite : Forall (fun s => ∃ z, actualElapsed s = Fin z) (trialSegments st);
  inv_ticks :
    ∃ e cs, currentSegmentElapsed st = Fin e
            ∧ currentSegment st = Some cs
            ∧ sumRecorded (trialSegments st) + (e - recordedZ cs) = ticks;
  inv_end_zero :
    Forall (fun s => type s = end_ → actualElapsed s = Fin 0) (trialSegments st);
  inv_end :
    (type <$> currentSegment st) = Some end_ →
    currentSegmentElapsed st = Fin 0 ∧ isRunning st = false;
  inv_prompt :
    showRedirectPrompt st = true ∨ showRecrossPrompt st = true →
    isRunning st = false
    ∧ (actualElapsed <$> currentSegment st) = Some (currentSegmentElapsed st);
  inv_redirect :
    showRedirectPrompt st = true → (type <$> currentSegment st) = Some cross;
  inv_recross :
    showRecrossPrompt st = true → (type <$> currentSegment st) = Some redirect
}.

(** A run with one witness per side in which every event is offered:
    time runs on the opening, the direct, the cross and the redirect of
    the plaintiff's witness, the user steps back to the cross, declines
    the redirect the second time and goes on. *)
Definition offeredRunExample : list Event :=
  [ToggleTimer; Tick; Tick; Next; Next; ToggleTimer; Tick; Tick; Tick; Next;
   ToggleTimer; Tick; Next; RedirectDecision true; ToggleTimer; Tick; Tick;
   Previous; ToggleTimer; Tick; Next; RedirectDecision false; ToggleTimer;
   Tick; Next; Next; RedirectDecision true; Next; RecrossDecision false;
   ToggleTimer; Tick; Tick; Next; Previous; Tick].

(** ** Edits as the user makes them *)

(** What the user does with one field of the edit dialog: leave the
    value that the dialog shows, or type a text. *)
Inductive FieldInput : Type :=
  | Untouched
  | Typed (text : string).

Definition fillMinutes (input : FieldInput) (q : AppState) : AppState :=
  match input with
  | Untouched => q
  | Typed text => changeEditTimeMinutes text q
  end.

Definition fillSeconds (input : FieldInput) (q : AppState) : AppState :=
  match input with
  | Untouched => q
  | Typed text => changeEditTimeSeconds text q
  end.

(** A whole edit: the dialog is opened for [context], the two fields
    are filled and "Save Changes" is pressed. *)
Definition editWith (context : EditContext) (minutes seconds : FieldInput)
    (st : AppState) : AppState :=
  handleEditTimeSave
    (fillSeconds seconds (fillMinutes minutes (openEditModal context st))).


(** A number that is neither negative nor [NaN]. *)
Definition nonNegative (x : jsnum) : Prop :=
  match x with
  | Fin z => 0 ≤ z
  | PInf => True
  | NInf | NaN => False
  end.

(** A non-negative integer. *)
Definition nonNegativeInteger (x : jsnum) : Prop :=
  ∃ z, x = Fin z ∧ 0 ≤ z.

(** The recorded time of a segment is a non-negative integer, or
    [Infinity] on a rebuttal segment. *)
Definition recordedOk (s : Segment) : Prop :=
  match actualElapsed s with
  | Fin z => 0 ≤ z
  | PInf => type s = rebuttal
  | NInf | NaN => False
  end.

(** Every configured duration is a non-negative integer, as
    [handleDurationChange] stores them. *)
Definition configSane (cfg : TrialConfig) : Prop :=
  nonNegativeInteger (pOpeningDuration cfg)
  ∧ nonNegativeInteger (dOpeningDuration cfg)
  ∧ nonNegativeInteger (pOverallDirectDuration cfg)
  ∧ nonNegativeInteger (dOverallCrossDuration cfg)
  ∧ nonNegativeInteger (dOverallDirectDuration cfg)
  ∧ nonNegativeInteger (pOverallCrossDuration cfg)
  ∧ nonNegativeInteger (pClosingDuration cfg)
  ∧ nonNegativeInteger (dClosingDuration cfg)
  ∧ nonNegativeInteger (maxRebuttalDuration cfg).

(** The states on which the editor works: a timeline of a sane
    configuration whose recorded times and live counter are neither
    negative nor [NaN]. *)
Record EditSafe (st : AppState) : Prop := {
  safe_config : configSane (trialConfig st);
  safe_shape : sameTimeline (trialConfig st) (trialSegments st);
  safe_recorded : Forall recordedOk (trialSegments st);
  safe_live : nonNegative (currentSegmentElapsed st)
}.

(** ** Resets *)

(** [requestResetCurrentPhase] and [requestFullReset] pause the timer
    and open a confirmation dialog (a presentation flag that is not
    modelled). *)
Definition requestResetCurrentPhase (st : AppState) : AppState :=
  setIsRunning false st.


(** [confirmResetCurrentPhase] *)
Definition confirmResetCurrentPhase (st : AppState) : AppState :=
  let q := setCurrentSegmentElapsed (Fin 0) st in
  setTrialSegments
    (fun prevSegments =>
       match segAt prevSegments (currentSegmentIndex st) with
       | Some _ =>
           alterAt (withActualElapsed (Fin 0)) (currentSegmentIndex st)
             prevSegments
       | None => prevSegments
       end) q.


(** ** Settings *)


(** The keys of the nine durations of [trialConfig], as the settings
    form passes them to [handleDurationChange] (lines 1108-1199). *)
Module Field.
Inductive t : Type :=
  | pOpeningDuration
  | dOpeningDuration
  | pOverallDirectDuration
  | dOverallCrossDuration
  | dOverallDirectDuration
  | pOverallCrossDuration
  | pClosingDuration
  | dClosingDuration
  | maxRebuttalDuration.
End Field.

Global Instance Field_eq_dec : EqDecision Field.t.
Proof. solve_decision. Defined.








(** ** Usage totals of the summary *)

(** One of the four [...Used] accumulators of the budget memo (lines
    579-586): the recorded time of every contributing segment with
    recorded time. *)
Fixpoint usedLoop (budgetKey : option Key.t) (arr : list Segment)
    (acc : jsnum) : jsnum :=
  match arr with
  | [] => acc
  | segment :: arr' =>
      usedLoop budgetKey arr'
        (if Js.gtb (actualElapsed segment) (Fin 0) &&
            doesSegmentContributeToBudget segment budgetKey
         then (acc + actualElapsed segment)%js else acc)
  end.

(** The total of a budget shown in the summary: the accumulator above
    plus the live counter when the active segment is an examination
    that draws on the budget (lines 599-604). *)
Definition budgetUsed (budgetKey : option Key.t) (st : AppState) : jsnum :=
  let used := usedLoop budgetKey (trialSegments st) (Fin 0) in
  match currentSegment st with
  | Some cs =>
      if Js.gtb (currentSegmentElapsed st) (Fin 0) &&
         Js.eqb (duration cs) PInf &&
         doesSegmentContributeToBudget cs budgetKey
      then (used + currentSegmentElapsed st)%js
      else used
  | None => used
  end.

(** One accumulator of the memo of the fixed phases (lines 624-632),
    for the phase kind [t] and the side [sd]. *)
Fixpoint fixedUsedLoop (t : SegType) (sd : Side) (arr : list Segment)
    (acc : jsnum) : jsnum :=
  match arr with
  | [] => acc
  | segment :: arr' =>
      fixedUsedLoop t sd arr'
        (if Js.gtb (actualElapsed segment) (Fin 0) &&
            (bool_decide (type segment = t) &&
             bool_decide (side segment = Some sd))
         then (acc + actualElapsed segment)%js else acc)
  end.

Definition pOpeningUsed (st : AppState) : jsnum :=
  fixedUsedLoop opening plaintiff (trialSegments st) (Fin 0).
Definition dOpeningUsed (st : AppState) : jsnum :=
  fixedUsedLoop opening defense (trialSegments st) (Fin 0).
Definition pClosingUsed (st : AppState) : jsnum :=
  fixedUsedLoop closing plaintiff (trialSegments st) (Fin 0).
Definition dClosingUsed (st : AppState) : jsnum :=
  fixedUsedLoop closing defense (trialSegments st) (Fin 0).
Definition pRebuttalUsed (st : AppState) : jsnum :=
  fixedUsedLoop rebuttal plaintiff (trialSegments st) (Fin 0).

(** The test of the [reduce] of a side total (lines 645-651 and
    665-671): the segment is the side's own opening, closing, rebuttal,
    direct or redirect, or its cross or recross of a witness of the
    other side, whose label holds [witnessLabel]. *)
Definition countsForSide (sd : Side) (ownTypes : list SegType)
    (witnessLabel : string) (segment : Segment) : bool :=
  if bool_decide (side segment = Some sd) &&
     bool_decide (type segment ∈ ownTypes)
  then true
  else bool_decide (side segment = Some sd) &&
       (bool_decide (type segment = cross) || bool_decide (type segment = recross)) &&
       includes witnessLabel (name segment).

Definition sideTotal (sd : Side) (ownTypes : list SegType)
    (witnessLabel : string) (arr : list Segment) : jsnum :=
  foldl (fun sum segment =>
           if Js.gtb (actualElapsed segment) (Fin 0) then
             if countsForSide sd ownTypes witnessLabel segment
             then (sum + actualElapsed segment)%js
             else sum
           else sum) (Fin 0) arr.

(** [derivedTotalPlaintiffElapsed] and [derivedTotalDefenseElapsed] *)
Definition derivedTotalPlaintiffElapsed (st : AppState) : jsnum :=
  sideTotal plaintiff [opening; closing; rebuttal; direct; redirect]
    "D Witness" (trialSegments st).

Definition derivedTotalDefenseElapsed (st : AppState) : jsnum :=
  sideTotal defense [opening; closing; direct; redirect]
    "P Witness" (trialSegments st).

(** ** Relations between states *)

(** [st'] has the configuration of [st] and the same segments in the
    same order, up to their recorded times. *)
Definition onlyTimesDiffer (st st' : AppState) : Prop :=
  trialConfig st' = trialConfig st
  ∧ eraseElapsed <$> trialSegments st' = eraseElapsed <$> trialSegments st.

(** What holds in every state of a run of events that the user
    interface offers, jumps included: the timeline keeps its shape, the
    cursor stays inside it, all times are non-negative integers, and the
    timer is stopped on the end marker and while a prompt is shown. *)
Record NavInvariant (st : AppState) : Prop := {
  nav_shape : sameTimeline (trialConfig st) (trialSegments st);
  nav_index : 0 ≤ currentSegmentIndex st < len (trialSegments st);
  nav_times :
    Forall (fun s => nonNegativeInteger (actualElapsed s)) (trialSegments st);
  nav_live : nonNegativeInteger (currentSegmentElapsed st);
  nav_end :
    (type <$> currentSegment st) = Some end_ → isRunning st = false;
  nav_prompt :
    showRedirectPrompt st = true ∨ showRecrossPrompt st = true →
    isRunning st = false;
  nav_redirect :
    showRedirectPrompt st = true → (type <$> currentSegment st) = Some cross;
  nav_recross :
    showRecrossPrompt st = true → (type <$> currentSegment st) = Some redirect
}.


(** The test of the loop of [moveToPreviousSegment] on the segment
    before the active segment [cs]. *)
Definition skippedBefore (st : AppState) (cs : Segment) : bool :=
  match segAt (trialSegments st) (currentSegmentIndex st - 1) with
  | Some seg =>
      isConditional seg && Js.eqb (actualElapsed seg) (Fin 0) &&
      (bool_decide (witnessIndex seg = witnessIndex cs) &&
       bool_decide (side seg = side cs))
  | None => false
  end.

(** How neighbours of a timeline are linked: a conditional segment
    belongs to the other side than the segment before it, a cross is
    followed by the redirect of the same witness and a redirect by the
    recross of the same witness. *)
Fixpoint linked (l : list Segment) : Prop :=
  match l with
  | [] => True
  | s :: l' =>
      (∀ t, head l' = Some t →
         (isConditional t = true → side t ≠ side s)
         ∧ (type s = cross →
            type t = redirect ∧ witnessIndex t = witnessIndex s)
         ∧ (type s = redirect →
            type t = recross ∧ witnessIndex t = witnessIndex s))
      ∧ linked l'
  end.

(** The list starts with a segment that is not conditional. *)
Definition startsUnconditional (l : list Segment) : Prop :=
  ∃ t, head l = Some t ∧ isConditional t = false.

(** A run with a jump from the summary back to the first opening. *)
Definition jumpRunExample : list Event :=
  [ToggleTimer; Tick; Tick; Next; ToggleTimer; Tick; Next; GoTo 0;
   ToggleTimer; Tick; Next; Next; Next; Next; RedirectDecision false].

(** The redirect of [budgetExample], run for three seconds. *)
Definition redirectRunning : AppState :=
  run budgetExample [ToggleTimer; Tick; Tick; Tick].

(** ** Sums over a timeline *)

(** The sum of an integer measure over the segments. *)
Definition sumOver (f : Segment → Z) (l : list Segment) : Z :=
  foldr (fun s acc => f s + acc) 0 l.

(** The recorded time of the segments selected by [P]: the measure
    summed by each accumulator of the summary. *)
Definition weight (P : Segment → bool) (s : Segment) : Z :=
  if P s then recordedZ s else 0.

(** The tests of the accumulators of the summary. *)
Definition forPlaintiff : Segment → bool :=
  countsForSide plaintiff [opening; closing; rebuttal; direct; redirect]
    "D Witness".

Definition forDefense : Segment → bool :=
  countsForSide defense [opening; closing; direct; redirect] "P Witness".

Definition isFixedPhase (t : SegType) (sd : Side) (s : Segment) : bool :=
  bool_decide (type s = t) && bool_decide (side s = Some sd).

Definition drawsOn (k : Key.t) (s : Segment) : bool :=
  doesSegmentContributeToBudget s (Some k).

Definition isEndMarker (s : Segment) : bool := bool_decide (type s = end_).

(** ** Notions used to state the properties of the settings *)



(** ** Display of times *)

(** [x.toString ()] for the numbers of the program: an integer is
    printed in decimal (integers below [10^21], which JavaScript prints
    without an exponent) and the other values by their names. *)
Definition numberToString (x : jsnum) : string :=
  match x with
  | Fin z => pretty z
  | PInf => "Infinity"
  | NInf => "-Infinity"
  | NaN => "NaN"
  end.

Fixpoint repeatChar (n : nat) (c : ascii) : string :=
  match n with
  | O => EmptyString
  | S n' => String c (repeatChar n' c)
  end.

(** [s.padStart (targetLength, padChar)] for a one-character pad. *)
Definition padStart (targetLength : nat) (padChar : ascii) (s : string)
  : string :=
  repeatChar (targetLength - String.length s) padChar +:+ s.

(** [formatTime] *)
Definition formatTime (totalSeconds : jsnum) : string :=
  let minutes := Js.floorDiv totalSeconds 60 in
  let seconds := Js.rem totalSeconds 60 in
  padStart 2 "0" (numberToString minutes) +:+ ":"
  +:+ padStart 2 "0" (numberToString seconds).

(** The character of the decimal digit [d]. *)
Definition digitChar (d : Z) : ascii :=
  Ascii.ascii_of_N (Z.to_N (48 + d)).

(** The two characters of a number below 100. *)
Definition twoDigits (k : Z) : string :=
  String (digitChar (k / 10)) (String (digitChar (k mod 10)) EmptyString).

(** * Properties *)

(** ** The generated timeline in closed form *)

Lemma push_app (mk : Z → Segment) (l : list Segment) (n : Z) :
  push mk (l, n) = (l ++ [mk n], n + 1).
Proof. reflexivity. Qed.

Lemma pushPlaintiffWitness_app (i : Z) (l : list Segment) (n : Z) :
  pushPlaintiffWitness i (l, n) = (l ++ plaintiffWitnessSegments i n, n + 4).
Proof.
  unfold plaintiffWitnessSegments, pushPlaintiffWitness.
  rewrite !push_app. cbn [fst snd]. rewrite <- !app_assoc. cbn [app].
  f_equal; lia.
Qed.

Lemma pushDefenseWitness_app (i : Z) (l : list Segment) (n : Z) :
  pushDefenseWitness i (l, n) = (l ++ defenseWitnessSegments i n, n + 4).
Proof.
  unfold defenseWitnessSegments, pushDefenseWitness.
  rewrite !push_app. cbn [fst snd]. rewrite <- !app_assoc. cbn [app].
  f_equal; lia.
Qed.

Lemma foldl_witnessBlocks (body : Z → Builder → Builder)
    (block : Z → Z → list Segment) (indices : list Z) :
  (∀ i l n, body i (l, n) = (l ++ block i n, n + 4)) →
  ∀ l n,
    foldl (fun acc i => body i acc) (l, n) indices
    = (l ++ witnessBlocks block indices n, n + 4 * Z.of_nat (length indices)).
Proof.
  intros Hbody. induction indices as [|i indices IH]; intros l n; cbn [foldl witnessBlocks].
  - rewrite app_nil_r. f_equal. cbn. lia.
  - rewrite Hbody, IH, <- app_assoc. f_equal. cbn [length]. lia.
Qed.

Lemma length_seqZ_count (count : Z) :
  0 ≤ count → Z.of_nat (length (seqZ 0 count)) = count.
Proof. intros. rewrite length_seqZ. lia. Qed.

(** The timeline is the two openings, one block of four segments per
    plaintiff witness, one per defense witness, and the closing part,
    with consecutive identifiers. *)
Lemma generateAllTrialSegments_closed (cfg : TrialConfig) :
  let p := Z.of_nat (length (seqZ 0 (plaintiffWitnessCount cfg))) in
  let d := Z.of_nat (length (seqZ 0 (defenseWitnessCount cfg))) in
  generateAllTrialSegments cfg
  = openingSegments cfg
    ++ witnessBlocks plaintiffWitnessSegments (seqZ 0 (plaintiffWitnessCount cfg)) 2
    ++ witnessBlocks defenseWitnessSegments (seqZ 0 (defenseWitnessCount cfg)) (2 + 4 * p)
    ++ closingSegments cfg (2 + 4 * p + 4 * d).
Proof.
  intros p d. unfold generateAllTrialSegments, forCount.
  rewrite !push_app. cbn [fst snd app].
  rewrite (foldl_witnessBlocks _ _ _ pushPlaintiffWitness_app).
  rewrite (foldl_witnessBlocks _ _ _ pushDefenseWitness_app).
  rewrite !push_app. cbn [fst snd].
  fold p d. unfold openingSegments, closingSegments.
  rewrite <- !app_assoc. cbn [app].
  replace (0 + 1 + 1) with 2 by lia.
  repeat (f_equal; try lia).
Qed.

Section WitnessBlocks.
Variable block : Z → Z → list Segment.
Hypothesis block_length : ∀ i n, length (block i n) = 4%nat.

Lemma length_witnessBlocks (indices : list Z) (n : Z) :
  length (witnessBlocks block indices n) = (4 * length indices)%nat.
Proof.
  revert n; induction indices as [|i indices IH]; intros n; cbn [witnessBlocks length].
  - reflexivity.
  - rewrite length_app, block_length, IH. lia.
Qed.

Lemma Forall_witnessBlocks (P : Segment → Prop) (indices : list Z) (n : Z) :
  (∀ i m, Forall P (block i m)) → Forall P (witnessBlocks block indices n).
Proof.
  intros HP. revert n; induction indices as [|i indices IH]; intros n; cbn [witnessBlocks].
  - constructor.
  - apply Forall_app; split; [apply HP | apply IH].
Qed.

(** From position [4 k] on, the blocks of the witnesses [a .. a + c - 1]
    are the block of witness [a + k] followed by the later blocks. *)
Lemma drop_witnessBlocks (k : nat) :
  ∀ a c n, Z.of_nat k < c →
    drop (4 * k) (witnessBlocks block (seqZ a c) n)
    = block (a + Z.of_nat k) (n + 4 * Z.of_nat k)
      ++ witnessBlocks block (seqZ (a + Z.of_nat k + 1) (c - Z.of_nat k - 1))
           (n + 4 * Z.of_nat k + 4).
Proof.
  induction k as [|k IH]; intros a c n Hk.
  - rewrite seqZ_cons by lia. cbn [witnessBlocks drop Nat.mul].
    replace (a + Z.of_nat 0) with a by lia.
    replace (n + 4 * Z.of_nat 0) with n by lia.
    replace (Z.succ a) with (a + 1) by lia.
    replace (Z.pred c) with (c - Z.of_nat 0 - 1) by lia.
    reflexivity.
  - rewrite seqZ_cons by lia. cbn [witnessBlocks].
    replace (4 * S k)%nat with (length (block a n) + 4 * k)%nat
      by (rewrite block_length; lia).
    rewrite drop_app_add, IH by lia.
    f_equal; [f_equal; lia|]. f_equal; [f_equal; lia | lia].
Qed.

End WitnessBlocks.

Lemma length_plaintiffWitnessSegments (i n : Z) :
  length (plaintiffWitnessSegments i n) = 4%nat.
Proof. reflexivity. Qed.

Lemma length_defenseWitnessSegments (i n : Z) :
  length (defenseWitnessSegments i n) = 4%nat.
Proof. reflexivity. Qed.

Lemma len_generateAllTrialSegments (cfg : TrialConfig) :
  0 ≤ plaintiffWitnessCount cfg → 0 ≤ defenseWitnessCount cfg →
  len (generateAllTrialSegments cfg)
  = 2 + 4 * plaintiffWitnessCount cfg + 4 * defenseWitnessCount cfg + 4.
Proof.
  intros Hp Hd. unfold len. rewrite generateAllTrialSegments_closed.
  rewrite !length_app.
  rewrite (length_witnessBlocks _ length_plaintiffWitnessSegments).
  rewrite (length_witnessBlocks _ length_defenseWitnessSegments).
  rewrite !length_seqZ. cbn [length openingSegments closingSegments]. lia.
Qed.

Lemma filter_none (P : Segment → Prop) `{∀ s, Decision (P s)} (l : list Segment) :
  Forall (fun s => ¬ P s) l → filter P l = [].
Proof.
  induction 1 as [|s l Hs _ IH]; [reflexivity|].
  rewrite filter_cons. destruct (decide (P s)); [contradiction | exact IH].
Qed.

(** **** Claim C1 *)

(** C1.  For every configuration with non-negative witness counts [p]
    and [d], [generateAllTrialSegments] produces exactly
    [2 + 4 p + 4 d + 2 + 1 + 1] segments; exactly one of them has type
    [end], it is the last one, its duration is 0 and it is not
    conditional. *)
Theorem C1_timeline_length_and_end (cfg : TrialConfig) :
  0 ≤ plaintiffWitnessCount cfg →
  0 ≤ defenseWitnessCount cfg →
  let segs := generateAllTrialSegments cfg in
  len segs
  = 2 + 4 * plaintiffWitnessCount cfg + 4 * defenseWitnessCount cfg + 2 + 1 + 1
  ∧ length (filter (fun s => type s = end_) segs) = 1%nat
  ∧ ∃ e, last segs = Some e ∧ type e = end_ ∧ duration e = Fin 0
         ∧ isConditional e = false
         ∧ filter (fun s => type s = end_) segs = [e].
Proof.
  intros Hp Hd segs.
  assert (Hfilter : ∃ e, filter (fun s => type s = end_) segs = [e]
                         ∧ last segs = Some e ∧ type e = end_
                         ∧ duration e = Fin 0 ∧ isConditional e = false).
  { subst segs. rewrite generateAllTrialSegments_closed.
    eexists. rewrite !filter_app.
    rewrite (filter_none _ (witnessBlocks plaintiffWitnessSegments _ _)), 
            (filter_none _ (witnessBlocks defenseWitnessSegments _ _)).
    - split; [reflexivity|]. split; [|done].
      rewrite !app_assoc. unfold closingSegments.
      rewrite (last_app_cons _ [_; _; _]). reflexivity.
    - apply Forall_witnessBlocks. intros i m. repeat constructor; discriminate.
    - apply Forall_witnessBlocks. intros i m. repeat constructor; discriminate. }
  destruct Hfilter as (e & Hf & Hl & Ht & Hdur & Hc).
  split; [|split].
  - subst segs. rewrite len_generateAllTrialSegments by assumption. lia.
  - rewrite Hf. reflexivity.
  - exists e. done.
Qed.

Lemma C1_timeline_length_and_end_witness :
  let segs := generateAllTrialSegments defaultConfig in
  len segs = 2 + 4 * 3 + 4 * 3 + 2 + 1 + 1
  ∧ length (filter (fun s => type s = end_) segs) = 1%nat
  ∧ ∃ e, last segs = Some e ∧ type e = end_ ∧ duration e = Fin 0
         ∧ isConditional e = false
         ∧ filter (fun s => type s = end_) segs = [e].
Proof.
  apply (C1_timeline_length_and_end defaultConfig); simpl; lia.
Defined.


Lemma fromIndex_app_add (l k : list Segment) (m : Z) :
  0 ≤ m → fromIndex (l ++ k) (len l + m) = fromIndex k m.
Proof.
  intros Hm. unfold fromIndex, len.
  replace (Z.to_nat (Z.of_nat (length l) + m)) with (length l + Z.to_nat m)%nat by lia.
  apply drop_app_add.
Qed.
(** **** Claim C2 *)

Lemma quadrupleAt_plaintiff (cfg : TrialConfig) (i : Z) :
  0 ≤ i < plaintiffWitnessCount cfg →
  quadrupleAt (generateAllTrialSegments cfg) (2 + 4 * i)
  = quadrupleOfCode plaintiff defense i.
Proof.
  intros Hi. unfold quadrupleAt. rewrite generateAllTrialSegments_closed.
  replace (2 + 4 * i) with (len (openingSegments cfg) + 4 * i) by reflexivity.
  rewrite fromIndex_app_add by lia. unfold fromIndex.
  replace (Z.to_nat (4 * i)) with (4 * Z.to_nat i)%nat by lia.
  rewrite drop_app_le
    by (rewrite (length_witnessBlocks _ length_plaintiffWitnessSegments), length_seqZ; lia).
  rewrite (drop_witnessBlocks _ length_plaintiffWitnessSegments) by lia.
  rewrite <- app_assoc. cbn. unfold quadrupleOfCode, kindOf.
  cbn [type side witnessIndex isConditional]. repeat f_equal; lia.
Qed.

Lemma quadrupleAt_defense (cfg : TrialConfig) (i : Z) :
  0 ≤ plaintiffWitnessCount cfg →
  0 ≤ i < defenseWitnessCount cfg →
  quadrupleAt (generateAllTrialSegments cfg)
    (2 + 4 * plaintiffWitnessCount cfg + 4 * i)
  = quadrupleOfCode defense plaintiff i.
Proof.
  intros Hp Hi. unfold quadrupleAt. rewrite generateAllTrialSegments_closed.
  rewrite app_assoc.
  replace (2 + 4 * plaintiffWitnessCount cfg + 4 * i)
    with (len (openingSegments cfg
               ++ witnessBlocks plaintiffWitnessSegments
                    (seqZ 0 (plaintiffWitnessCount cfg)) 2) + 4 * i).
  2:{ unfold len. rewrite length_app,
        (length_witnessBlocks _ length_plaintiffWitnessSegments), length_seqZ.
      cbn [length openingSegments]. lia. }
  rewrite fromIndex_app_add by lia. unfold fromIndex.
  replace (Z.to_nat (4 * i)) with (4 * Z.to_nat i)%nat by lia.
  rewrite drop_app_le
    by (rewrite (length_witnessBlocks _ length_defenseWitnessSegments), length_seqZ; lia).
  rewrite (drop_witnessBlocks _ length_defenseWitnessSegments) by lia.
  rewrite <- app_assoc. cbn. unfold quadrupleOfCode, kindOf.
  cbn [type side witnessIndex isConditional]. repeat f_equal; lia.
Qed.

(** C2, as stated, fails: the specification's list gives the redirect of
    a plaintiff witness to the defense and the recross to the plaintiff,
    whereas the third segment of the first plaintiff witness of the
    default configuration is the plaintiff's. *)
Lemma C2_quadruple_as_specified_fails : ¬ quadruplesAsSpecified.
Proof.
  intros H. destruct (H defaultConfig 0) as [Hp _].
  assert (Hi : 0 ≤ 0 < plaintiffWitnessCount defaultConfig) by (simpl; lia).
  specialize (Hp Hi). vm_compute in Hp. discriminate Hp.
Qed.

(** C2, amended.  For every configuration and every plaintiff witness
    index [i], the four segments at positions [2 + 4 i ..] are, in order,
    plaintiff-direct, defense-cross, plaintiff-redirect and
    defense-recross for witness [i], the conditional flag being set on
    exactly the redirect and the recross; the quadruple of defense
    witness [i], at positions [2 + 4 p + 4 i ..], is the same with the
    sides swapped. *)
Theorem C2_quadruple_order (cfg : TrialConfig) (i : Z) :
  (0 ≤ i < plaintiffWitnessCount cfg →
   quadrupleAt (generateAllTrialSegments cfg) (2 + 4 * i)
   = [ (direct, Some plaintiff, Some i, false);
       (cross, Some defense, Some i, false);
       (redirect, Some plaintiff, Some i, true);
       (recross, Some defense, Some i, true) ]) ∧
  (0 ≤ plaintiffWitnessCount cfg → 0 ≤ i < defenseWitnessCount cfg →
   quadrupleAt (generateAllTrialSegments cfg)
     (2 + 4 * plaintiffWitnessCount cfg + 4 * i)
   = [ (direct, Some defense, Some i, false);
       (cross, Some plaintiff, Some i, false);
       (redirect, Some defense, Some i, true);
       (recross, Some plaintiff, Some i, true) ]).
Proof.
  split.
  - intros Hi. exact (quadrupleAt_plaintiff cfg i Hi).
  - intros Hp Hi. exact (quadrupleAt_defense cfg i Hp Hi).
Qed.

Lemma C2_quadruple_order_witness :
  quadrupleAt (generateAllTrialSegments defaultConfig) (2 + 4 * 2)
  = [ (direct, Some plaintiff, Some 2, false);
      (cross, Some defense, Some 2, false);
      (redirect, Some plaintiff, Some 2, true);
      (recross, Some defense, Some 2, true) ]
  ∧ quadrupleAt (generateAllTrialSegments defaultConfig) (2 + 4 * 3 + 4 * 2)
  = [ (direct, Some defense, Some 2, false);
      (cross, Some plaintiff, Some 2, false);
      (redirect, Some defense, Some 2, true);
      (recross, Some plaintiff, Some 2, true) ].
Proof.
  destruct (C2_quadruple_order defaultConfig 2) as [Hp Hd].
  split; [apply Hp | apply Hd]; simpl; lia.
Defined.

(** ** Timelines that differ from the generated one in the recorded times *)

(** Case analysis on a membership in an explicit list. *)
Ltac elem_cases H :=
  repeat (apply elem_of_cons in H as [H|H]; [try subst|]);
  try (apply elem_of_nil in H; destruct H).

Lemma eraseElapsed_fields (s t : Segment) :
  eraseElapsed s = t →
  id s = id t ∧ type s = type t ∧ side s = side t ∧
  witnessIndex s = witnessIndex t ∧ name s = name t ∧
  duration s = duration t ∧ isConditional s = isConditional t.
Proof. intros <-. done. Qed.

Lemma Forall_erased (P : Segment → Prop) (l : list Segment) (k : list Segment) :
  eraseElapsed <$> l = k → Forall P k → Forall (fun s => P (eraseElapsed s)) l.
Proof. intros <- H. rewrite Forall_fmap in H. exact H. Qed.

Lemma generateAllTrialSegments_front (cfg : TrialConfig) :
  ∃ n, generateAllTrialSegments cfg = frontSegments cfg ++ closingSegments cfg n.
Proof.
  eexists. rewrite generateAllTrialSegments_closed. unfold frontSegments.
  rewrite <- !app_assoc. reflexivity.
Qed.

Lemma Forall_frontSegments (P : Segment → Prop) (cfg : TrialConfig) :
  Forall P (openingSegments cfg) →
  (∀ i n, Forall P (plaintiffWitnessSegments i n)) →
  (∀ i n, Forall P (defenseWitnessSegments i n)) →
  Forall P (frontSegments cfg).
Proof.
  intros Ho Hp Hd. unfold frontSegments.
  rewrite !Forall_app. split; [exact Ho|].
  split; by apply Forall_witnessBlocks.
Qed.

Lemma Forall_generated (P : Segment → Prop) (cfg : TrialConfig) :
  Forall P (openingSegments cfg) →
  (∀ i n, Forall P (plaintiffWitnessSegments i n)) →
  (∀ i n, Forall P (defenseWitnessSegments i n)) →
  (∀ n, Forall P (closingSegments cfg n)) →
  Forall P (generateAllTrialSegments cfg).
Proof.
  intros Ho Hp Hd Hc. destruct (generateAllTrialSegments_front cfg) as [n ->].
  apply Forall_app. split; [by apply Forall_frontSegments | apply Hc].
Qed.

(** A timeline of [cfg] ends with the plaintiff's closing, the defense's
    closing, the rebuttal and the end marker, and holds no segment of
    these kinds before them. *)
Lemma sameTimeline_split (cfg : TrialConfig) (segs : list Segment) :
  sameTimeline cfg segs →
  ∃ front pc dc rb en,
    segs = front ++ [pc; dc; rb; en]
    ∧ eraseElapsed <$> front = frontSegments cfg
    ∧ Forall (fun s => type s ∈ [opening; direct; cross; redirect; recross]) front
    ∧ (type pc = closing ∧ side pc = Some plaintiff
       ∧ duration pc = pClosingDuration cfg ∧ isConditional pc = false)
    ∧ (type dc = closing ∧ side dc = Some defense
       ∧ duration dc = dClosingDuration cfg ∧ isConditional dc = false)
    ∧ (type rb = rebuttal ∧ side rb = Some plaintiff
       ∧ duration rb = PInf ∧ isConditional rb = false)
    ∧ (type en = end_ ∧ side en = None ∧ witnessIndex en = None
       ∧ duration en = Fin 0 ∧ isConditional en = false).
Proof.
  unfold sameTimeline. intros H.
  destruct (generateAllTrialSegments_front cfg) as [n Hn]. rewrite Hn in H.
  apply fmap_app_inv in H as (front & back & Hfront & Hback & ->).
  symmetry in Hback. unfold closingSegments in Hback.
  apply fmap_cons_inv in Hback as (pc & back1 & Hpc & Hback & ->).
  symmetry in Hback.
  apply fmap_cons_inv in Hback as (dc & back2 & Hdc & Hback & ->).
  symmetry in Hback.
  apply fmap_cons_inv in Hback as (rb & back3 & Hrb & Hback & ->).
  symmetry in Hback.
  apply fmap_cons_inv in Hback as (en & back4 & Hen & Hback & ->).
  symmetry in Hback. apply fmap_nil_inv in Hback as ->.
  exists front, pc, dc, rb, en.
  symmetry in Hpc, Hdc, Hrb, Hen.
  apply eraseElapsed_fields in Hpc, Hdc, Hrb, Hen. cbn in Hpc, Hdc, Hrb, Hen.
  split; [reflexivity|]. split; [done|]. split; [|intuition congruence].
  eapply (Forall_erased (fun s => type s ∈ [opening; direct; cross; redirect; recross]));
    [symmetry; exact Hfront|].
  apply Forall_frontSegments; intros; repeat constructor.
Qed.

Lemma find_app_skip (f : Segment → bool) (l k : list Segment) :
  Forall (fun s => f s = false) l → List.find f (l ++ k) = List.find f k.
Proof.
  induction 1 as [|s l Hs _ IH]; [reflexivity|].
  cbn. rewrite Hs. exact IH.
Qed.

(** **** Claim C3 *)

(** C3.  In every state whose timeline is the generated one up to the
    recorded times and whose active segment is the rebuttal, the
    allotment [totalBudget] from which [displayRemainingTime] derives the
    remaining time and the overtime is
    [max (0, min (maxRebuttalDuration, pClosingDuration - actualElapsed))]
    of the one plaintiff closing segment; with a plaintiff closing of
    420 s of which 300 s were used and a cap of 180 s the allotment is
    120. *)
Theorem C3_rebuttal_allotment (st : AppState) (cs : Segment) :
  sameTimeline (trialConfig st) (trialSegments st) →
  currentSegment st = Some cs →
  type cs = rebuttal →
  (∃ pc,
      pc ∈ trialSegments st ∧ type pc = closing ∧ side pc = Some plaintiff
      ∧ (∀ s, s ∈ trialSegments st → type s = closing →
              side s = Some plaintiff → s = pc)
      ∧ totalBudget (displayRemainingTime st)
        = Js.max (Fin 0)
            (Js.min (maxRebuttalDuration (trialConfig st))
                    (pClosingDuration (trialConfig st) - actualElapsed pc)%js)
      ∧ (value (displayRemainingTime st), overtime (displayRemainingTime st))
        = clipRemaining
            (totalBudget (displayRemainingTime st) - currentSegmentElapsed st)%js)
  ∧ (pClosingDuration (trialConfig rebuttalExample) = Fin 420
     ∧ maxRebuttalDuration (trialConfig rebuttalExample) = Fin 180
     ∧ (actualElapsed <$> segAt (trialSegments rebuttalExample) 2) = Some (Fin 300)
     ∧ (type <$> currentSegment rebuttalExample) = Some rebuttal
     ∧ totalBudget (displayRemainingTime rebuttalExample) = Fin 120).
Proof.
  intros Hshape Hcur Hreb. split; [|by vm_compute].
  destruct (sameTimeline_split _ _ Hshape)
    as (front & pc & dc & rb & en & Hsegs & _ & Hfront & Hpc & Hdc & Hrb & Hen).
  assert (Hin : cs ∈ trialSegments st).
  { unfold currentSegment, segAt in Hcur. destruct (decide _); [|done].
    by eapply list_elem_of_lookup_2. }
  assert (Hdur : duration cs = PInf).
  { rewrite Hsegs in Hin. apply elem_of_app in Hin as [Hin|Hin].
    - rewrite Forall_forall in Hfront. specialize (Hfront _ Hin).
      rewrite Hreb in Hfront. elem_cases Hfront; discriminate.
    - elem_cases Hin; intuition congruence. }
  assert (Hfind :
    List.find (fun s => bool_decide (type s = closing) &&
                        bool_decide (side s = Some plaintiff))
              (trialSegments st) = Some pc).
  { rewrite Hsegs, find_app_skip.
    - cbn. destruct Hpc as (-> & -> & _). reflexivity.
    - eapply Forall_impl; [exact Hfront|]. intros s Hs. cbn in Hs.
      apply andb_false_iff. left. apply bool_decide_eq_false.
      intros Hc. rewrite Hc in Hs. elem_cases Hs; discriminate. }
  exists pc. split; [|split; [|split; [|split; [|split]]]].
  - rewrite Hsegs. apply elem_of_app. right. apply elem_of_cons. by left.
  - tauto.
  - tauto.
  - intros s Hs Ht Hside. rewrite Hsegs in Hs.
    apply elem_of_app in Hs as [Hs|Hs].
    + rewrite Forall_forall in Hfront. specialize (Hfront _ Hs).
      rewrite Ht in Hfront. elem_cases Hfront; discriminate.
    + destruct Hdc as (_ & Hdcs & _), Hrb as (Hrbt & _), Hen as (Hent & _).
      elem_cases Hs; congruence.
  - unfold displayRemainingTime. rewrite Hcur, Hdur. cbn [Js.eqb negb].
    destruct (decide (type cs = rebuttal)); [|done].
    destruct (clipRemaining _). cbn [totalBudget].
    unfold rebuttalBudget. rewrite Hfind. reflexivity.
  - unfold displayRemainingTime. rewrite Hcur, Hdur. cbn [Js.eqb negb].
    destruct (decide (type cs = rebuttal)); [|done].
    destruct (clipRemaining _) as [r o] eqn:E. cbn [totalBudget value overtime].
    by rewrite E.
Qed.

Lemma C3_rebuttal_allotment_witness :
  sameTimeline (trialConfig rebuttalExample) (trialSegments rebuttalExample)
  ∧ ∃ pc,
      pc ∈ trialSegments rebuttalExample ∧ type pc = closing
      ∧ side pc = Some plaintiff
      ∧ (∀ s, s ∈ trialSegments rebuttalExample → type s = closing →
              side s = Some plaintiff → s = pc)
      ∧ totalBudget (displayRemainingTime rebuttalExample)
        = Js.max (Fin 0)
            (Js.min (maxRebuttalDuration (trialConfig rebuttalExample))
                    (pClosingDuration (trialConfig rebuttalExample)
                     - actualElapsed pc)%js)
      ∧ (value (displayRemainingTime rebuttalExample),
         overtime (displayRemainingTime rebuttalExample))
        = clipRemaining
            (totalBudget (displayRemainingTime rebuttalExample)
             - currentSegmentElapsed rebuttalExample)%js.
Proof.
  split; [vm_compute; reflexivity|].
  eapply (proj1 (C3_rebuttal_allotment rebuttalExample _ _ _ _)).
  Unshelve.
  - exact (mkSegment 4 rebuttal (Some plaintiff) None "Rebuttal" PInf false (Fin 0)).
  - vm_compute; reflexivity.
  - vm_compute; reflexivity.
  - reflexivity.
Defined.

(** ** Arithmetic of [jsnum] on integers *)

Lemma Js_min_Fin (a b : Z) : Js.min (Fin a) (Fin b) = Fin (Z.min a b).
Proof. cbn. destruct (Z.ltb_spec b a); f_equal; lia. Qed.

Lemma Js_max_Fin (a b : Z) : Js.max (Fin a) (Fin b) = Fin (Z.max a b).
Proof. cbn. destruct (Z.ltb_spec a b); f_equal; lia. Qed.

Lemma Js_sub_Fin (a b : Z) : (Fin a - Fin b)%js = Fin (a - b).
Proof. reflexivity. Qed.

Lemma Js_add_Fin (a b : Z) : (Fin a + Fin b)%js = Fin (a + b).
Proof. reflexivity. Qed.

(** ** Budget accounting over integers *)

Lemma usedAmong_app (key : option Key.t) (l k : list Segment) :
  usedAmong key (l ++ k) = usedAmong key l + usedAmong key k.
Proof.
  unfold usedAmong. induction l as [|s l IH]; cbn [foldr app]; [lia|].
  rewrite IH. lia.
Qed.

Lemma contribution_nonneg (key : option Key.t) (s : Segment) :
  0 ≤ contribution key s.
Proof.
  unfold contribution. destruct (doesSegmentContributeToBudget s key); [|lia].
  destruct (actualElapsed s); try lia. destruct (Z.ltb_spec 0 z); lia.
Qed.

Lemma usedAmong_nonneg (key : option Key.t) (l : list Segment) :
  0 ≤ usedAmong key l.
Proof.
  unfold usedAmong. induction l as [|s l IH]; cbn [foldr]; [lia|].
  pose proof (contribution_nonneg key s). lia.
Qed.

Lemma doesSegmentContributeToBudget_withActualElapsed
    (v : jsnum) (s : Segment) (key : option Key.t) :
  doesSegmentContributeToBudget (withActualElapsed v s) key
  = doesSegmentContributeToBudget s key.
Proof. reflexivity. Qed.

(** The accumulator of the budget memo is the integer sum of the
    contributions of the segments before the active one. *)
Lemma usedBeforeLoop_usedAmong (key : option Key.t) (current : Z) :
  ∀ (arr : list Segment) (index acc : Z),
    budgetTimesFinite key arr →
    usedBeforeLoop key current arr index (Fin acc)
    = Fin (acc + usedAmong key (take (Z.to_nat (current - index)) arr)).
Proof.
  induction arr as [|s arr IH]; intros index acc Hfin; cbn [usedBeforeLoop].
  - rewrite take_nil. cbn. f_equal. lia.
  - apply Forall_cons in Hfin as [Hs Hfin].
    destruct (decide (index < current)) as [Hlt|Hge].
    + rewrite bool_decide_eq_true_2 by assumption. cbn [andb].
      replace (Z.to_nat (current - index))
        with (S (Z.to_nat (current - (index + 1)))) by lia.
      cbn [take]. change (usedAmong key (s :: ?l))
        with (contribution key s + usedAmong key l).
      unfold contribution.
      destruct (doesSegmentContributeToBudget s key) eqn:Hc.
      * destruct (Hs eq_refl) as [z Hz]. rewrite Hz. cbn [Js.gtb Js.ltb andb].
        destruct (Z.ltb_spec 0 z); cbn [andb].
        -- rewrite Js_add_Fin, IH by assumption. f_equal; lia.
        -- rewrite IH by assumption. f_equal; lia.
      * rewrite andb_false_r, IH by assumption. f_equal; lia.
    + rewrite bool_decide_eq_false_2 by assumption. cbn [andb].
      rewrite IH by assumption.
      replace (Z.to_nat (current - index)) with 0%nat by lia.
      replace (Z.to_nat (current - (index + 1))) with 0%nat by lia.
      reflexivity.
Qed.

Lemma usedBeforeCurrent_usedAmong (key : option Key.t) (st : AppState) :
  budgetTimesFinite key (trialSegments st) →
  usedBeforeCurrent key st
  = Fin (usedAmong key (take (Z.to_nat (currentSegmentIndex st)) (trialSegments st))).
Proof.
  intros Hfin. unfold usedBeforeCurrent.
  rewrite usedBeforeLoop_usedAmong by assumption.
  f_equal. rewrite Z.sub_0_r. lia.
Qed.

Lemma notRaised_refl (s : Segment) : notRaised s s.
Proof. split; [reflexivity | by left]. Qed.

Lemma notRaised_trans (s0 s1 s2 : Segment) :
  notRaised s0 s1 → notRaised s1 s2 → notRaised s0 s2.
Proof.
  intros [He1 H1] [He2 H2]. split; [congruence|].
  destruct H1 as [->|(a0 & a1 & Ha0 & Ha1 & Hle1)]; [exact H2|].
  destruct H2 as [->|(b1 & b2 & Hb1 & Hb2 & Hle2)].
  - right. exists a0, a1. done.
  - right. exists a0, b2. rewrite Ha1 in Hb1. injection Hb1 as <-.
    repeat split; try assumption; lia.
Qed.

Lemma Forall2_notRaised_refl (l : list Segment) : Forall2 notRaised l l.
Proof. induction l; constructor; [apply notRaised_refl | assumption]. Qed.

Lemma Forall2_notRaised_trans (l0 l1 l2 : list Segment) :
  Forall2 notRaised l0 l1 → Forall2 notRaised l1 l2 → Forall2 notRaised l0 l2.
Proof.
  intros H01. revert l2. induction H01 as [|s0 s1 l0 l1 Hs _ IH]; intros l2 H12.
  - inversion H12. constructor.
  - inversion H12 as [|? s2 ? l2' Hs' H12']; subst.
    constructor; [by eapply notRaised_trans | by apply IH].
Qed.

Lemma drop_eq_S (i : nat) (a b : list Segment) :
  drop i a = drop i b → drop (S i) a = drop (S i) b.
Proof.
  intros H. replace (S i) with (i + 1)%nat by lia.
  by rewrite <- !drop_drop, H.
Qed.

Lemma drop_eq_lookup (i : nat) (a b : list Segment) :
  drop i a = drop i b → a !! i = b !! i.
Proof.
  intros H. rewrite <- (Nat.add_0_r i), <- !lookup_drop. by rewrite H.
Qed.

(** The backward walk of the budget edit lowers the usage recorded
    before position [n] by the excess, as far as that usage goes, and
    lowers no recorded time below zero. *)
Lemma deductLoop_spec (key : option Key.t) :
  ∀ (n : nat) (e : Z) (l : list Segment),
    (n ≤ length l)%nat → 0 ≤ e → budgetTimesFinite key (take n l) →
    Forall2 notRaised l (deductLoop key n (Fin e) l)
    ∧ drop n (deductLoop key n (Fin e) l) = drop n l
    ∧ usedAmong key (take n (deductLoop key n (Fin e) l))
      = Z.max 0 (usedAmong key (take n l) - e).
Proof.
  induction n as [|i IH]; intros e l Hn He Hfin; cbn [deductLoop].
  - split; [apply Forall2_notRaised_refl|]. split; [reflexivity|].
    rewrite take_0. cbn. lia.
  - cbn [Js.gtb Js.ltb].
    destruct (lookup_lt_is_Some_2 l i ltac:(lia)) as [seg Hseg].
    rewrite (take_S_r _ _ _ Hseg) in Hfin |- *.
    apply Forall_app in Hfin as [Hfin Hfseg].
    apply Forall_inv in Hfseg.
    rewrite usedAmong_app. cbn [usedAmong foldr]. fold (usedAmong key).
    pose proof (usedAmong_nonneg key (take i l)) as Hnn.
    pose proof (contribution_nonneg key seg) as Hcn.
    destruct (Z.ltb_spec 0 e) as [Hpos|Hzero].
    2:{ split; [apply Forall2_notRaised_refl|]. split; [reflexivity|].
        rewrite (take_S_r _ _ _ Hseg), usedAmong_app.
        cbn [usedAmong foldr]. lia. }
    rewrite Hseg.
    destruct (doesSegmentContributeToBudget seg key) eqn:Hc.
    + destruct (Hfseg eq_refl) as [z Hz]. rewrite Hz.
      cbn [andb Js.gtb Js.ltb].
      destruct (Z.ltb_spec 0 z) as [Hz0|Hz0].
      * rewrite Js_min_Fin, !Js_sub_Fin.
        set (seg' := withActualElapsed (Fin (z - Z.min e z)) seg).
        set (l1 := <[i:=seg']> l).
        assert (Hraise : notRaised seg seg').
        { split; [reflexivity|]. right. exists z, (z - Z.min e z).
          repeat split; try done; lia. }
        assert (Htake : take i l1 = take i l)
          by (apply take_insert_ge; lia).
        destruct (IH (e - Z.min e z) l1) as (H1 & H2 & H3).
        { unfold l1. rewrite length_insert. lia. }
        { lia. }
        { by rewrite Htake. }
        set (l' := deductLoop key i (Fin (e - Z.min e z)) l1) in *.
        assert (Hl'i : l' !! i = Some seg').
        { rewrite (drop_eq_lookup _ _ _ H2). apply list_lookup_insert_eq. lia. }
        split; [|split].
        -- eapply Forall2_notRaised_trans; [|exact H1].
           rewrite <- (list_insert_id l i seg Hseg) at 1.
           apply Forall2_insert; [apply Forall2_notRaised_refl | exact Hraise].
        -- rewrite (drop_eq_S _ _ _ H2). apply drop_insert_lt. lia.
        -- rewrite (take_S_r _ _ _ Hl'i), usedAmong_app, H3, Htake.
           cbn [usedAmong foldr]. unfold contribution, seg'.
           rewrite doesSegmentContributeToBudget_withActualElapsed, Hc.
           cbn [actualElapsed withActualElapsed]. rewrite Hz.
           destruct (Z.ltb_spec 0 z); [|lia].
           destruct (Z.ltb_spec 0 (z - Z.min e z)); lia.
      * destruct (IH e l) as (H1 & H2 & H3); [lia | lia | assumption |].
        set (l' := deductLoop key i (Fin e) l) in *.
        assert (Hl'i : l' !! i = Some seg).
        { by rewrite (drop_eq_lookup _ _ _ H2). }
        split; [exact H1|]. split.
        -- exact (drop_eq_S _ _ _ H2).
        -- rewrite (take_S_r _ _ _ Hl'i), usedAmong_app, H3.
           cbn [usedAmong foldr]. unfold contribution. rewrite Hc, Hz.
           destruct (Z.ltb_spec 0 z); lia.
    + cbn [andb].
      destruct (IH e l) as (H1 & H2 & H3); [lia | lia | assumption |].
      set (l' := deductLoop key i (Fin e) l) in *.
      assert (Hl'i : l' !! i = Some seg).
      { by rewrite (drop_eq_lookup _ _ _ H2). }
      split; [exact H1|]. split.
      -- exact (drop_eq_S _ _ _ H2).
      -- rewrite (take_S_r _ _ _ Hl'i), usedAmong_app, H3.
         cbn [usedAmong foldr]. unfold contribution. rewrite Hc. lia.
Qed.

(** ** The display and the contexts built from it *)

(** Reduces the projections of a state built with the setters. *)
Ltac simpl_state :=
  cbn [trialConfig trialSegments currentSegmentIndex currentSegmentElapsed
       isRunning showRedirectPrompt showRecrossPrompt editModalContext
       editTimeMinutes editTimeSeconds
       setTrialSegments setCurrentSegmentIndex setCurrentSegmentElapsed
       setIsRunning setShowRedirectPrompt setShowRecrossPrompt
       setEditModalContext setEditTimeMinutes setEditTimeSeconds
       closeEditModal enterTime openEditModal] in *.

Lemma budgetOf_key (cs : Segment) (st : AppState) (t u : jsnum) (k : Key.t) :
  budgetOf cs st = (t, u, Some k) →
  t = configBudget (trialConfig st) (Some k)
  ∧ u = usedBeforeCurrent (Some k) st
  ∧ doesSegmentContributeToBudget cs (Some k) = true.
Proof.
  unfold budgetOf. intros H.
  repeat match type of H with
         | (if ?c then _ else _) = _ => destruct c eqn:?
         end;
    inversion H; subst; done.
Qed.

Lemma segAt_Some (arr : list Segment) (i : Z) (s : Segment) :
  segAt arr i = Some s ↔ 0 ≤ i < len arr ∧ arr !! Z.to_nat i = Some s.
Proof.
  unfold segAt, len. destruct (decide (0 ≤ i)).
  - split.
    + intros H. pose proof (lookup_lt_Some _ _ _ H). split; [lia | done].
    + tauto.
  - split; [done | lia].
Qed.

(** The budget context of the edit button holds the key, the usage
    before the active segment and the total of the budget the active
    segment draws on. *)
Lemma editBudgetContext_inv (st : AppState) (key : option Key.t)
    (used total : jsnum) :
  editBudgetContext st = Some (CtxBudget key used total) →
  ∃ cs,
    currentSegment st = Some cs ∧ type cs ≠ end_ ∧ type cs ≠ rebuttal
    ∧ duration cs = PInf
    ∧ budgetOf cs st = (total, used, key).
Proof.
  unfold editBudgetContext, displayRemainingTime.
  destruct (currentSegment st) as [cs|] eqn:Hcs; [|done].
  destruct (negb (Js.eqb (duration cs) PInf)) eqn:Hd.
  { destruct (clipRemaining _). cbn. by destruct (decide _) as [[? ?]|]. }
  destruct (decide (type cs = rebuttal)).
  { destruct (clipRemaining _). cbn. by destruct (decide _) as [[? ?]|]. }
  destruct (budgetOf cs st) as [[t u] k'] eqn:Hb.
  destruct (clipRemaining _). cbn.
  destruct (decide _) as [[_ Hend]|]; [|done].
  intros [= <- <- <-]. exists cs. repeat split; try done.
  destruct (duration cs); done.
Qed.

(** Saving the dialog in a state whose fields hold the integers [m] and
    [s] and whose context is a budget context. *)
Lemma handleEditTimeSave_budget (q : AppState) (key : option Key.t)
    (used total : jsnum) (m s : Z) :
  editModalContext q = Some (CtxBudget key used total) →
  editTimeMinutes q = Fin m →
  editTimeSeconds q = Fin s →
  handleEditTimeSave q
  = closeEditModal
      (let calc := (configBudget (trialConfig q) key - Fin (m * 60 + s) - used)%js in
       if Js.ltb calc (Fin 0) then
         setCurrentSegmentElapsed (Fin 0)
           (setTrialSegments
              (deductLoop key (Z.to_nat (currentSegmentIndex q)) (Js.neg calc)) q)
       else
         setCurrentSegmentElapsed
           (Js.min calc (configBudget (trialConfig q) key - used)%js) q).
Proof.
  intros Hc Hm Hs. unfold handleEditTimeSave. rewrite Hc, Hm, Hs. reflexivity.
Qed.

(** **** Claim C4 *)

(** C4.  In a state where the edit button of a shared budget is offered
    for the budget [k] of total [T], entering a desired remaining time
    [60 m + s] within [0, T] and saving leaves the recomputed usage of
    the contributing segments before the active one plus the new live
    counter equal to [T - (60 m + s)]; every recorded time is left alone
    or lowered without passing below zero, and the configuration, hence
    the budget's total, is unchanged. *)
Theorem C4_budget_edit_conservation (st : AppState) (k : Key.t)
    (used total : jsnum) (T m s : Z) :
  editBudgetContext st = Some (CtxBudget (Some k) used total) →
  configBudget (trialConfig st) (Some k) = Fin T →
  budgetTimesFinite (Some k) (trialSegments st) →
  0 ≤ 60 * m + s ≤ T →
  let st' :=
    handleEditTimeSave
      (enterTime (Fin m) (Fin s)
         (openEditModal (CtxBudget (Some k) used total) st)) in
  (usedBeforeCurrent (Some k) st' + currentSegmentElapsed st')%js
  = Fin (T - (60 * m + s))
  ∧ Forall2 notRaised (trialSegments st) (trialSegments st')
  ∧ trialConfig st' = trialConfig st
  ∧ configBudget (trialConfig st') (Some k) = Fin T
  ∧ currentSegmentIndex st' = currentSegmentIndex st.
Proof.
  intros Hctx HT Hfin Hr st'.
  destruct (editBudgetContext_inv _ _ _ _ Hctx) as (cs & Hcs & _ & _ & _ & Hb).
  apply budgetOf_key in Hb as (Htot & Hused & _).
  apply segAt_Some in Hcs as [Hidx _].
  rewrite (usedBeforeCurrent_usedAmong _ _ Hfin) in Hused.
  set (n := Z.to_nat (currentSegmentIndex st)) in *.
  set (u := usedAmong (Some k) (take n (trialSegments st))) in *.
  subst st'.
  erewrite handleEditTimeSave_budget; [|reflexivity..].
  simpl_state.
  rewrite HT, Hused, !Js_sub_Fin. cbn [Js.ltb Js.neg].
  destruct (Z.ltb_spec (T - (m * 60 + s) - u) 0) as [Hneg|Hpos].
  - destruct (deductLoop_spec (Some k) n (- (T - (m * 60 + s) - u)) (trialSegments st))
      as (H1 & H2 & H3).
    { unfold len in Hidx. lia. }
    { lia. }
    { unfold budgetTimesFinite in *. by apply Forall_take. }
    simpl_state. split; [|split; [|done]].
    + erewrite (usedBeforeCurrent_usedAmong (Some k)).
      * simpl_state. fold n. rewrite H3, Js_add_Fin. f_equal. fold u. lia.
      * simpl_state. unfold budgetTimesFinite in *.
        rewrite Forall_forall in Hfin |- *. intros x Hx Hcx.
        apply list_elem_of_lookup in Hx as [j Hj].
        destruct (Forall2_lookup_r _ _ _ _ _ H1 Hj) as (x0 & Hj0 & [He Hr0]).
        destruct Hr0 as [->|(z0 & z1 & _ & Hz1 & _)]; [|by eexists].
        apply Hfin; [by eapply list_elem_of_lookup_2 | done].
    + exact H1.
  - rewrite Js_min_Fin. simpl_state. split; [|split; [|done]].
    + rewrite (usedBeforeCurrent_usedAmong (Some k)) by exact Hfin.
      simpl_state. fold n u. rewrite Js_add_Fin. f_equal. lia.
    + apply Forall2_notRaised_refl.
Qed.

Lemma C4_budget_edit_conservation_witness :
  let st' :=
    handleEditTimeSave
      (enterTime (Fin 24) (Fin 10)
         (openEditModal
            (CtxBudget (Some Key.pOverallDirectDuration) (Fin 100) (Fin 1500))
            budgetExample)) in
  (usedBeforeCurrent (Some Key.pOverallDirectDuration) st'
   + currentSegmentElapsed st')%js
  = Fin (1500 - (60 * 24 + 10))
  ∧ Forall2 notRaised (trialSegments budgetExample) (trialSegments st')
  ∧ trialConfig st' = trialConfig budgetExample
  ∧ configBudget (trialConfig st') (Some Key.pOverallDirectDuration) = Fin 1500
  ∧ currentSegmentIndex st' = currentSegmentIndex budgetExample.
Proof.
  apply (C4_budget_edit_conservation budgetExample Key.pOverallDirectDuration
           (Fin 100) (Fin 1500) 1500 24 10).
  - vm_compute; reflexivity.
  - reflexivity.
  - unfold budgetTimesFinite.
    set (l := trialSegments budgetExample). vm_compute in l. subst l.
    repeat constructor; intros _; eexists; reflexivity.
  - lia.
Defined.

(** Splits a conjunction into its parts, without touching the parts. *)
Ltac split_conj :=
  repeat first [ progress cbv zeta | match goal with |- _ ∧ _ => split end ].

(** **** Claim C5 *)

(** C5, on the failing input.  With the rebuttal active, an allotment of
    120 s (closing of 420 s used for 300 s, cap of 180 s) and a desired
    remaining time of one minute, the specification gives
    [clamp (120 - 60, 0, 120) = 60]; the edit button does pass the
    allotment 120 as [originalDuration], but [handleEditTimeSave] reads
    the segment's own [duration], which is [Infinity] for the rebuttal,
    and stores [Infinity] both in the live counter and in the segment.
    For the opening, whose duration is finite, the same edit stores the
    clamped value. *)
Theorem C5_rebuttal_remaining_edit_stores_infinity :
  (∃ seg, editFixedContext rebuttalExample = Some (CtxFixedRemaining seg (Fin 120))
          ∧ type seg = rebuttal ∧ duration seg = PInf
          ∧ let st' := handleEditTimeSave
                         (enterTime (Fin 1) (Fin 0)
                            (openEditModal (CtxFixedRemaining seg (Fin 120))
                               rebuttalExample)) in
            currentSegmentElapsed st' = PInf
            ∧ (actualElapsed <$> currentSegment st') = Some PInf
            ∧ currentSegmentElapsed st' ≠ Fin (clamp (120 - 60) 0 120))
  ∧ (∃ seg, editFixedContext (startedWith defaultConfig)
            = Some (CtxFixedRemaining seg (Fin 300))
          ∧ type seg = opening
          ∧ let st' := handleEditTimeSave
                         (enterTime (Fin 1) (Fin 0)
                            (openEditModal (CtxFixedRemaining seg (Fin 300))
                               (startedWith defaultConfig))) in
            currentSegmentElapsed st' = Fin (clamp (300 - 60) 0 300)
            ∧ (actualElapsed <$> currentSegment st')
              = Some (Fin (clamp (300 - 60) 0 300))).
Proof.
  split.
  - eexists. split; [vm_compute; reflexivity|].
    split_conj; try (vm_compute; reflexivity).
    intros H. vm_compute in H. discriminate H.
  - eexists. split; [vm_compute; reflexivity|].
    split_conj; vm_compute; reflexivity.
Qed.

(** **** Claim C6 *)

(** C6, on the failing input.  One witness per side; the redirect of the
    plaintiff's witness recorded 4 s, the user went back to the cross and
    advanced again, so the redirect prompt is pending.  Answering "No"
    moves the cursor to position 6, the first segment after the pair, but
    the loop that marks the skipped segments starts at that position and
    marks nothing: the redirect keeps its 4 s instead of being forced to
    0.  Every event of the run is offered by the user interface. *)
Theorem C6_redirect_no_keeps_recorded_time :
  let st0 := startedWith (configWith 1 1) in
  let pending := run st0 redirectPromptAgain in
  let st' := handleRedirectDecisionPrompt false pending in
  offeredAll st0 (redirectPromptAgain ++ [RedirectDecision false]) = true
  ∧ showRedirectPrompt pending = true
  ∧ currentSegmentIndex pending = 3
  ∧ (kindOf <$> segAt (trialSegments pending) 4)
    = Some (redirect, Some plaintiff, Some 0, true)
  ∧ (kindOf <$> segAt (trialSegments pending) 5)
    = Some (recross, Some defense, Some 0, true)
  ∧ currentSegmentIndex st' = 6
  ∧ (actualElapsed <$> segAt (trialSegments st') 4) = Some (Fin 4)
  ∧ (actualElapsed <$> segAt (trialSegments st') 4) ≠ Some (Fin 0).
Proof.
  split_conj; try (vm_compute; reflexivity).
  intros H. vm_compute in H. discriminate H.
Qed.

(** **** Claim C7 *)

(** C7, on the failing input.  One plaintiff witness; the recross prompt
    is pending after the redirect at position 4.  Answering "No" leaves
    the cursor on position 5, the recross segment itself, exactly as
    answering "Yes" does: the loop compares the side of the recross (the
    defense) with the side of the redirect (the plaintiff), never
    matches, and so neither marks the recross nor steps past it.  The
    segment after the pair is at position 6. *)
Theorem C7_recross_no_lands_on_recross :
  let st0 := startedWith (configWith 1 0) in
  let pending := run st0 recrossPromptPending in
  let st' := handleRecrossDecisionPrompt false pending in
  offeredAll st0 (recrossPromptPending ++ [RecrossDecision false]) = true
  ∧ showRecrossPrompt pending = true
  ∧ currentSegmentIndex pending = 4
  ∧ (kindOf <$> currentSegment pending)
    = Some (redirect, Some plaintiff, Some 0, true)
  ∧ currentSegmentIndex st' = 5
  ∧ (kindOf <$> currentSegment st')
    = Some (recross, Some defense, Some 0, true)
  ∧ (type <$> segAt (trialSegments st') 6) = Some closing
  ∧ st' = handleRecrossDecisionPrompt true pending.
Proof. split_conj; vm_compute; reflexivity. Qed.

(** **** Claim C10 *)

(** C10, on the failing input.  The opening (identifier 0) holds 5 s
    from a first visit and the live counter stands at 8 after three more
    ticks.  Jumping to identifier 0, the active segment itself, commits 8
    into the segment, but the handler then loads the recorded time from
    the array of its own render, where it still is 5: the live counter
    becomes 5, not the value just committed. *)
Theorem C10_jump_to_active_loads_stale_time :
  let st0 := startedWith defaultConfig in
  let st := run st0 openingRevisited in
  let st' := goToSegmentFromSummary 0 st in
  offeredAll st0 (openingRevisited ++ [GoTo 0]) = true
  ∧ currentSegmentIndex st = 0
  ∧ (id <$> currentSegment st) = Some 0
  ∧ currentSegmentElapsed st = Fin 8
  ∧ isRunning st' = false
  ∧ currentSegmentIndex st' = 0
  ∧ (actualElapsed <$> currentSegment st') = Some (Fin 8)
  ∧ currentSegmentElapsed st' = Fin 5
  ∧ Some (currentSegmentElapsed st') ≠ (actualElapsed <$> currentSegment st').
Proof.
  split_conj; try (vm_compute; reflexivity).
  intros H. vm_compute in H. discriminate H.
Qed.

(** **** Claim C8 *)

(** C8, as stated, fails: the timer runs for 5 ticks on the first
    segment, "Previous" commits them and zeroes the live counter, 3 more
    ticks follow and "Next" commits 3 over the 5.  The recorded times sum
    to 3 and nothing is uncommitted, while 8 ticks were delivered. *)
Lemma C8_retreat_on_first_segment_loses_ticks : ¬ conservationAsSpecified.
Proof.
  intros H. specialize (H defaultConfig retreatOnFirst eq_refl).
  vm_compute in H. discriminate H.
Qed.

(** *** Reading and writing a timeline by position *)

Lemma len_alterAt (f : Segment → Segment) (i : Z) (l : list Segment) :
  len (alterAt f i l) = len l.
Proof.
  unfold len, alterAt. destruct (decide (0 ≤ i)); [|reflexivity].
  by rewrite length_alter.
Qed.

Lemma segAt_alterAt_eq (f : Segment → Segment) (i : Z) (l : list Segment)
    (s : Segment) :
  segAt l i = Some s → segAt (alterAt f i l) i = Some (f s).
Proof.
  unfold segAt, alterAt. destruct (decide (0 ≤ i)); [|done].
  intros H. by rewrite list_lookup_alter_eq, H.
Qed.

Lemma segAt_alterAt_ne (f : Segment → Segment) (i j : Z) (l : list Segment) :
  i ≠ j → segAt (alterAt f i l) j = segAt l j.
Proof.
  intros Hne. unfold segAt, alterAt.
  destruct (decide (0 ≤ j)); [|reflexivity].
  destruct (decide (0 ≤ i)); [|reflexivity].
  apply list_lookup_alter_ne. lia.
Qed.

Lemma segAt_lt (l : list Segment) (i : Z) :
  0 ≤ i < len l → ∃ s, segAt l i = Some s.
Proof.
  intros Hi. unfold segAt, len in *. destruct (decide (0 ≤ i)); [|lia].
  apply lookup_lt_is_Some_2. lia.
Qed.

Lemma segAt_elem_of (l : list Segment) (i : Z) (s : Segment) :
  segAt l i = Some s → s ∈ l.
Proof.
  unfold segAt. destruct (decide (0 ≤ i)); [|done].
  apply list_elem_of_lookup_2.
Qed.

Lemma Forall_alterAt (P : Segment → Prop) (f : Segment → Segment) (i : Z)
    (l : list Segment) :
  Forall P l → (∀ s, segAt l i = Some s → P s → P (f s)) →
  Forall P (alterAt f i l).
Proof.
  intros Hl Hf. unfold alterAt. destruct (decide (0 ≤ i)) as [Hi|]; [|done].
  rewrite Forall_lookup in Hl |- *. intros j x Hj.
  rewrite list_lookup_alter in Hj. destruct (decide (Z.to_nat i = j)) as [<-|].
  - destruct (l !! Z.to_nat i) as [s|] eqn:Hs; [|done].
    injection Hj as <-. apply Hf.
    + unfold segAt. by destruct (decide (0 ≤ i)).
    + by eapply Hl.
  - by eapply Hl.
Qed.

Lemma sumRecorded_cons (x : Segment) (l : list Segment) :
  sumRecorded (x :: l) = recordedZ x + sumRecorded l.
Proof. reflexivity. Qed.

Lemma sumRecorded_alter (v : Z) :
  ∀ (l : list Segment) (i : nat) (s : Segment),
    l !! i = Some s →
    sumRecorded (alter (withActualElapsed (Fin v)) i l)
    = sumRecorded l - recordedZ s + v.
Proof.
  induction l as [|x l IH]; intros [|i] s Hs; try done.
  - injection Hs as ->.
    change (alter ?f 0%nat (?x :: ?l)) with (f x :: l).
    rewrite !sumRecorded_cons. unfold recordedZ at 1. cbn [actualElapsed withActualElapsed]. lia.
  - change (alter ?f (S i) (?x :: ?l)) with (x :: alter f i l).
    rewrite !sumRecorded_cons, (IH i s Hs). lia.
Qed.

Lemma sumRecorded_alterAt (v : Z) (l : list Segment) (i : Z) (s : Segment) :
  segAt l i = Some s →
  sumRecorded (alterAt (withActualElapsed (Fin v)) i l)
  = sumRecorded l - recordedZ s + v.
Proof.
  unfold segAt, alterAt. destruct (decide (0 ≤ i)); [|done].
  apply sumRecorded_alter.
Qed.

Lemma eraseElapsed_withActualElapsed (v : jsnum) (s : Segment) :
  eraseElapsed (withActualElapsed v s) = eraseElapsed s.
Proof. reflexivity. Qed.

Lemma sameTimeline_alterAt (cfg : TrialConfig) (l : list Segment) (i : Z)
    (v : jsnum) :
  sameTimeline cfg l → sameTimeline cfg (alterAt (withActualElapsed v) i l).
Proof.
  unfold sameTimeline, alterAt. intros <-.
  destruct (decide (0 ≤ i)); [|reflexivity].
  apply list_eq. intros j. rewrite !list_lookup_fmap, list_lookup_alter.
  destruct (decide (Z.to_nat i = j)) as [<-|]; [|reflexivity].
  by destruct (l !! Z.to_nat i).
Qed.

Lemma sameTimeline_len (cfg : TrialConfig) (l : list Segment) :
  sameTimeline cfg l → len l = len (generateAllTrialSegments cfg).
Proof. unfold sameTimeline, len. intros <-. by rewrite length_fmap. Qed.

Lemma sameTimeline_segAt (cfg : TrialConfig) (l : list Segment) (j : Z) :
  sameTimeline cfg l →
  segAt (generateAllTrialSegments cfg) j = eraseElapsed <$> segAt l j.
Proof.
  unfold sameTimeline, segAt. intros <-.
  destruct (decide (0 ≤ j)); [|reflexivity]. apply list_lookup_fmap.
Qed.

(** Two timelines of the same configuration hold segments of the same
    kind at every position. *)
Lemma sameTimeline_kind (cfg : TrialConfig) (l k : list Segment) (j : Z)
    (s : Segment) :
  sameTimeline cfg l → sameTimeline cfg k → segAt l j = Some s →
  ∃ t, segAt k j = Some t ∧ eraseElapsed t = eraseElapsed s.
Proof.
  intros Hl Hk Hs.
  pose proof (sameTimeline_segAt cfg l j Hl) as H1.
  pose proof (sameTimeline_segAt cfg k j Hk) as H2.
  rewrite Hs in H1. rewrite H1 in H2.
  destruct (segAt k j) as [t|]; [|done]. exists t. split; [done|].
  cbn in H2. congruence.
Qed.

(** *** The two skipping loops stay inside the timeline *)

Lemma skipForward_bounds (cur : option Segment) :
  ∀ (rest : list Segment) (i : Z),
    i ≤ skipForward cur rest i ≤ i + Z.of_nat (length rest).
Proof.
  induction rest as [|s rest IH]; intros i; cbn [skipForward length].
  - lia.
  - repeat destruct (_ && _); try lia.
    specialize (IH (i + 1)). lia.
Qed.

Lemma skipBackward_bounds (cur : option Segment) (arr : list Segment) :
  ∀ n : nat, -1 ≤ skipBackward cur arr n < Z.of_nat n ∨ n = 0%nat.
Proof.
  induction n as [|p IH]; [by right|]. left. cbn [skipBackward].
  destruct (arr !! p) as [s|]; [|lia].
  destruct (_ && _); [|lia]. destruct IH as [IH| ->]; [lia|]. cbn. lia.
Qed.

Lemma skipBackward_nonneg (cur : option Segment) (arr : list Segment)
    (s0 : Segment) :
  arr !! 0%nat = Some s0 → isConditional s0 = false →
  ∀ n : nat, (0 < n)%nat → 0 ≤ skipBackward cur arr n.
Proof.
  intros H0 Hc. induction n as [|p IH]; [lia|]. intros _.
  cbn [skipBackward]. destruct (arr !! p) as [s|] eqn:Hs; [|lia].
  destruct p as [|p].
  - rewrite H0 in Hs. injection Hs as <-. rewrite Hc. cbn. lia.
  - destruct (_ && _); [|lia]. apply IH. lia.
Qed.

(** *** Local structure of the generated timeline *)

Lemma chained_lookup :
  ∀ (l : list Segment) (c : nat) (s : Segment),
    chained l → l !! c = Some s →
    (type s = cross →
     ∃ t, l !! (c + 3)%nat = Some t ∧ type t ≠ redirect ∧ type t ≠ recross)
    ∧ (type s = redirect → ∃ t, l !! (c + 1)%nat = Some t ∧ side t ≠ side s).
Proof.
  induction l as [|x l IH]; intros [|c] s Hch Hs; try done.
  - injection Hs as ->. destruct Hch as (Hc & Hr & _). split; assumption.
  - destruct Hch as (_ & _ & Hch). exact (IH c s Hch Hs).
Qed.

Lemma chained_plaintiffWitnessSegments (i n : Z) (rest : list Segment) :
  chained rest → startsPlain rest →
  chained (plaintiffWitnessSegments i n ++ rest)
  ∧ startsPlain (plaintiffWitnessSegments i n ++ rest).
Proof.
  intros Hch (t & Ht & Ht1 & Ht2). split.
  - cbn. repeat split; try discriminate; try assumption.
    + intros _. exists t. destruct rest; [done|]. cbn in Ht. by injection Ht as ->.
    + intros _. eexists. split; [reflexivity|]. cbn. discriminate.
  - eexists. split; [reflexivity|]. cbn. split; discriminate.
Qed.

Lemma chained_defenseWitnessSegments (i n : Z) (rest : list Segment) :
  chained rest → startsPlain rest →
  chained (defenseWitnessSegments i n ++ rest)
  ∧ startsPlain (defenseWitnessSegments i n ++ rest).
Proof.
  intros Hch (t & Ht & Ht1 & Ht2). split.
  - cbn. repeat split; try discriminate; try assumption.
    + intros _. exists t. destruct rest; [done|]. cbn in Ht. by injection Ht as ->.
    + intros _. eexists. split; [reflexivity|]. cbn. discriminate.
  - eexists. split; [reflexivity|]. cbn. split; discriminate.
Qed.

Lemma chained_witnessBlocks (block : Z → Z → list Segment) :
  (∀ i n rest, chained rest → startsPlain rest →
               chained (block i n ++ rest) ∧ startsPlain (block i n ++ rest)) →
  ∀ indices n rest,
    chained rest → startsPlain rest →
    chained (witnessBlocks block indices n ++ rest)
    ∧ startsPlain (witnessBlocks block indices n ++ rest).
Proof.
  intros Hblock. induction indices as [|i indices IH]; intros n rest Hch Hst.
  - done.
  - cbn [witnessBlocks]. rewrite <- app_assoc.
    destruct (IH (n + 4) rest Hch Hst) as [H1 H2]. by apply Hblock.
Qed.

Lemma chained_generated (cfg : TrialConfig) :
  chained (generateAllTrialSegments cfg).
Proof.
  rewrite generateAllTrialSegments_closed.
  assert (Hc : chained (closingSegments cfg
                 (2 + 4 * Z.of_nat (length (seqZ 0 (plaintiffWitnessCount cfg)))
                  + 4 * Z.of_nat (length (seqZ 0 (defenseWitnessCount cfg)))))
               ∧ startsPlain (closingSegments cfg
                 (2 + 4 * Z.of_nat (length (seqZ 0 (plaintiffWitnessCount cfg)))
                  + 4 * Z.of_nat (length (seqZ 0 (defenseWitnessCount cfg)))))).
  { split.
    - cbn. repeat split; discriminate.
    - eexists. split; [reflexivity|]. cbn. split; discriminate. }
  destruct Hc as [Hc Hs].
  destruct (chained_witnessBlocks _ chained_defenseWitnessSegments
              (seqZ 0 (defenseWitnessCount cfg))
              (2 + 4 * Z.of_nat (length (seqZ 0 (plaintiffWitnessCount cfg))))
              _ Hc Hs) as [Hc1 Hs1].
  destruct (chained_witnessBlocks _ chained_plaintiffWitnessSegments
              (seqZ 0 (plaintiffWitnessCount cfg)) 2 _ Hc1 Hs1) as [Hc2 Hs2].
  cbn. repeat split; try discriminate. exact Hc2.
Qed.

(** In a timeline, three positions after a cross there is a segment that
    is neither a redirect nor a recross. *)
Lemma sameTimeline_after_cross (cfg : TrialConfig) (segs : list Segment)
    (c : Z) (s : Segment) :
  sameTimeline cfg segs → segAt segs c = Some s → type s = cross →
  ∃ t, segAt segs (c + 3) = Some t ∧ type t ≠ redirect ∧ type t ≠ recross.
Proof.
  intros Hshape Hs Ht. apply segAt_Some in Hs as [Hc Hs].
  assert (Hg : generateAllTrialSegments cfg !! Z.to_nat c = Some (eraseElapsed s)).
  { rewrite <- Hshape, list_lookup_fmap, Hs. reflexivity. }
  destruct (chained_lookup _ _ _ (chained_generated cfg) Hg) as [Hcross _].
  destruct (Hcross Ht) as (t & Hlt & Ht1 & Ht2).
  rewrite <- Hshape, list_lookup_fmap in Hlt.
  destruct (segs !! (Z.to_nat c + 3)%nat) as [t'|] eqn:Hl'; [|done].
  injection Hlt as <-. exists t'. split; [|done].
  apply segAt_Some. pose proof (lookup_lt_Some _ _ _ Hl'). unfold len.
  split; [lia|]. by replace (Z.to_nat (c + 3)) with (Z.to_nat c + 3)%nat by lia.
Qed.

(** In a timeline, a redirect is followed by a segment of the other
    side. *)
Lemma sameTimeline_after_redirect (cfg : TrialConfig) (segs : list Segment)
    (r : Z) (s : Segment) :
  sameTimeline cfg segs → segAt segs r = Some s → type s = redirect →
  ∃ t, segAt segs (r + 1) = Some t ∧ side t ≠ side s.
Proof.
  intros Hshape Hs Ht. apply segAt_Some in Hs as [Hc Hs].
  assert (Hg : generateAllTrialSegments cfg !! Z.to_nat r = Some (eraseElapsed s)).
  { rewrite <- Hshape, list_lookup_fmap, Hs. reflexivity. }
  destruct (chained_lookup _ _ _ (chained_generated cfg) Hg) as [_ Hred].
  destruct (Hred Ht) as (t & Hlt & Ht1).
  rewrite <- Hshape, list_lookup_fmap in Hlt.
  destruct (segs !! (Z.to_nat r + 1)%nat) as [t'|] eqn:Hl'; [|done].
  injection Hlt as <-. exists t'. split; [|done].
  apply segAt_Some. pose proof (lookup_lt_Some _ _ _ Hl'). unfold len.
  split; [lia|]. by replace (Z.to_nat (r + 1)) with (Z.to_nat r + 1)%nat by lia.
Qed.

(** A timeline starts with a segment that is not conditional and ends
    with the end marker. *)
Lemma sameTimeline_first (cfg : TrialConfig) (segs : list Segment) :
  sameTimeline cfg segs →
  ∃ s0, segs !! 0%nat = Some s0 ∧ isConditional s0 = false.
Proof.
  intros Hshape.
  assert (Hg : ∃ g, generateAllTrialSegments cfg !! 0%nat = Some g
                    ∧ isConditional g = false).
  { rewrite generateAllTrialSegments_closed. eexists. split; reflexivity. }
  destruct Hg as (g & Hg & Hc). rewrite <- Hshape, list_lookup_fmap in Hg.
  destruct (segs !! 0%nat) as [s0|]; [|done]. injection Hg as <-.
  exists s0. done.
Qed.

Lemma sameTimeline_last (cfg : TrialConfig) (segs : list Segment) :
  sameTimeline cfg segs →
  ∃ en, segAt segs (len segs - 1) = Some en ∧ type en = end_.
Proof.
  intros Hshape.
  destruct (sameTimeline_split _ _ Hshape)
    as (front & pc & dc & rb & en & -> & _ & _ & _ & _ & _ & Hen & _).
  exists en. split; [|done]. apply segAt_Some. unfold len.
  rewrite length_app. cbn [length]. split; [lia|].
  replace (Z.to_nat (Z.of_nat (length front + 4) - 1))
    with (length front + 3)%nat by lia.
  by rewrite lookup_app_r, Nat.add_comm, Nat.add_sub by lia.
Qed.

Lemma fromIndex_cons (l : list Segment) (i : Z) (t : Segment) :
  segAt l i = Some t → ∃ rest, fromIndex l i = t :: rest.
Proof.
  intros H. apply segAt_Some in H as [_ H]. unfold fromIndex.
  exists (drop (S (Z.to_nat i)) l). by apply drop_S.
Qed.

(** *** The invariant of a run *)

Lemma elapsedAt_finite (segs : list Segment) (j : Z) (s : Segment) (z : Z) :
  segAt segs j = Some s → actualElapsed s = Fin z → elapsedAt segs j = Fin z.
Proof.
  unfold elapsedAt. intros -> ->. unfold Js.or. cbn.
  destruct (Z.eqb_spec z 0); [subst|]; reflexivity.
Qed.

Lemma finite_at (segs : list Segment) (j : Z) (s : Segment) :
  Forall (fun s => ∃ z, actualElapsed s = Fin z) segs →
  segAt segs j = Some s → ∃ z, actualElapsed s = Fin z.
Proof.
  intros Hfin Hs. rewrite Forall_forall in Hfin.
  apply Hfin. by eapply segAt_elem_of.
Qed.

Lemma recordedZ_Fin (s : Segment) (z : Z) :
  actualElapsed s = Fin z → recordedZ s = z.
Proof. unfold recordedZ. by intros ->. Qed.

(** A state whose live counter was just loaded from the segment it
    stands on, with the timer stopped and no prompt shown. *)
Lemma land_invariant (st : AppState) (n : Z) :
  sameTimeline (trialConfig st) (trialSegments st) →
  Forall (fun s => ∃ z, actualElapsed s = Fin z) (trialSegments st) →
  Forall (fun s => type s = end_ → actualElapsed s = Fin 0) (trialSegments st) →
  0 ≤ currentSegmentIndex st < len (trialSegments st) →
  currentSegmentElapsed st
  = elapsedAt (trialSegments st) (currentSegmentIndex st) →
  isRunning st = false →
  showRedirectPrompt st = false →
  showRecrossPrompt st = false →
  sumRecorded (trialSegments st) = n →
  RunInvariant st n.
Proof.
  intros Hshape Hfin Hend Hidx Hlive Hrun Hrp Hcp Hsum.
  destruct (segAt_lt _ _ Hidx) as [cs Hcs].
  destruct (finite_at _ _ _ Hfin Hcs) as [z Hz].
  rewrite (elapsedAt_finite _ _ _ _ Hcs Hz) in Hlive.
  constructor; try assumption.
  - exists z, cs. repeat split; try assumption.
    rewrite (recordedZ_Fin _ _ Hz). lia.
  - unfold currentSegment. rewrite Hcs. cbn. intros [= Ht].
    split; [|assumption]. rewrite Hlive, <- Hz.
    rewrite Forall_forall in Hend. apply Hend; [by eapply segAt_elem_of | done].
  - rewrite Hrp, Hcp. intros [?|?]; discriminate.
  - rewrite Hrp. discriminate.
  - rewrite Hcp. discriminate.
Qed.

(** Committing the live counter [e] into the active segment. *)
Lemma commit_facts (cfg : TrialConfig) (segs : list Segment) (idx e n : Z)
    (cs : Segment) :
  sameTimeline cfg segs →
  Forall (fun s => ∃ z, actualElapsed s = Fin z) segs →
  Forall (fun s => type s = end_ → actualElapsed s = Fin 0) segs →
  segAt segs idx = Some cs →
  type cs ≠ end_ →
  sumRecorded segs + (e - recordedZ cs) = n →
  sameTimeline cfg (alterAt (withActualElapsed (Fin e)) idx segs)
  ∧ Forall (fun s => ∃ z, actualElapsed s = Fin z)
      (alterAt (withActualElapsed (Fin e)) idx segs)
  ∧ Forall (fun s => type s = end_ → actualElapsed s = Fin 0)
      (alterAt (withActualElapsed (Fin e)) idx segs)
  ∧ sumRecorded (alterAt (withActualElapsed (Fin e)) idx segs) = n
  ∧ (∀ j, j ≠ idx →
          elapsedAt (alterAt (withActualElapsed (Fin e)) idx segs) j
          = elapsedAt segs j).
Proof.
  intros Hshape Hfin Hend Hcs Ht Hsum. repeat split.
  - by apply sameTimeline_alterAt.
  - apply Forall_alterAt; [assumption|]. intros s _ _. by eexists.
  - apply Forall_alterAt; [assumption|]. intros s Hs _ Hts.
    rewrite Hcs in Hs. injection Hs as <-. done.
  - rewrite (sumRecorded_alterAt _ _ _ _ Hcs). lia.
  - intros j Hj. unfold elapsedAt. by rewrite segAt_alterAt_ne.
Qed.

Lemma controlsVisible_inv (st : AppState) :
  controlsVisible st = true →
  showRedirectPrompt st = false ∧ showRecrossPrompt st = false
  ∧ ∃ cs, currentSegment st = Some cs ∧ type cs ≠ end_.
Proof.
  unfold controlsVisible. intros H.
  apply andb_true_iff in H as [H1 H2].
  apply negb_true_iff in H1.
  apply orb_false_iff in H1 as [H1 Hcp].
  apply orb_false_iff in H1 as [_ Hrp].
  destruct (currentSegment st) as [cs|]; [|done].
  apply bool_decide_eq_true in H2. eauto.
Qed.

Lemma promptDue_type (from to : SegType) (st : AppState) :
  promptDue from to st = true → (type <$> currentSegment st) = Some from.
Proof.
  unfold promptDue. destruct (currentSegment st) as [cs|]; [|done].
  intros H. apply andb_true_iff in H as [H _].
  apply bool_decide_eq_true in H. cbn. by rewrite H.
Qed.

Lemma invariant_toggleTimer (st : AppState) (n : Z) :
  RunInvariant st n → offered st ToggleTimer = true →
  RunInvariant (toggleTimer st) n.
Proof.
  intros Hinv Hoff. cbn in Hoff.
  destruct (controlsVisible_inv _ Hoff) as (Hrp & Hcp & cs & Hcs & Ht).
  unfold toggleTimer. rewrite Hrp, Hcp, Hcs. cbn [orb].
  rewrite bool_decide_eq_false_2 by assumption.
  destruct Hinv. constructor; simpl_state; try assumption.
  - change (currentSegment (setIsRunning _ st)) with (currentSegment st).
    rewrite Hcs. cbn. congruence.
  - rewrite Hrp, Hcp. intros [?|?]; discriminate.
Qed.

Lemma invariant_tick (st : AppState) (n : Z) :
  RunInvariant st n →
  RunInvariant (step st Tick) (n + if isRunning st then 1 else 0).
Proof.
  intros Hinv. cbn [step]. destruct (isRunning st) eqn:Hrun.
  2:{ by rewrite Z.add_0_r. }
  destruct Hinv as [? ? ? (e & cs & He & Hcs & Hsum) ? Hend Hprompt ? ?].
  unfold handleTimerTick. rewrite He, Js_add_Fin.
  constructor; simpl_state; try assumption.
  - exists (e + 1), cs. repeat split; [done|lia].
  - change (currentSegment (setCurrentSegmentElapsed _ st)) with (currentSegment st).
    intros H. destruct (Hend H) as [_ ?]. congruence.
  - intros H. destruct (Hprompt H) as [? _]. congruence.
Qed.

(** A state that stays on a segment whose recorded time equals the live
    counter, with the timer stopped. *)
Lemma stay_invariant (st : AppState) (n e : Z) (cs : Segment) :
  sameTimeline (trialConfig st) (trialSegments st) →
  Forall (fun s => ∃ z, actualElapsed s = Fin z) (trialSegments st) →
  Forall (fun s => type s = end_ → actualElapsed s = Fin 0) (trialSegments st) →
  currentSegment st = Some cs →
  actualElapsed cs = Fin e →
  currentSegmentElapsed st = Fin e →
  type cs ≠ end_ →
  isRunning st = false →
  (showRedirectPrompt st = true → type cs = cross) →
  (showRecrossPrompt st = true → type cs = redirect) →
  sumRecorded (trialSegments st) = n →
  RunInvariant st n.
Proof.
  intros Hshape Hfin Hend Hcs Ha Hlive Ht Hrun Hrp Hcp Hsum.
  constructor; try assumption.
  - by apply segAt_Some in Hcs as [? _].
  - exists e, cs. repeat split; try assumption.
    rewrite (recordedZ_Fin _ _ Ha). lia.
  - rewrite Hcs. cbn. congruence.
  - intros _. split; [assumption|]. rewrite Hcs. cbn. congruence.
  - intros H. rewrite Hcs. cbn. by rewrite Hrp.
  - intros H. rewrite Hcs. cbn. by rewrite Hcp.
Qed.

Lemma invariant_next (st : AppState) (n : Z) :
  RunInvariant st n → offered st Next = true →
  RunInvariant (moveToNextSegment st) n.
Proof.
  intros Hinv Hoff. cbn in Hoff. apply andb_true_iff in Hoff as [Hvis _].
  destruct (controlsVisible_inv _ Hvis) as (Hrp & Hcp & cs & Hcs & Ht).
  destruct Hinv as [Hshape Hidx Hfin (e & cs' & He & Hcs' & Hsum) Hez _ _ _ _].
  rewrite Hcs in Hcs'. injection Hcs' as <-.
  destruct (commit_facts _ _ _ e n cs Hshape Hfin Hez Hcs Ht Hsum)
    as (C1 & C2 & C3 & C4 & C5).
  pose proof (segAt_alterAt_eq (withActualElapsed (Fin e)) _ _ _ Hcs) as Hcur'.
  unfold moveToNextSegment, saveCurrentSegmentTime.
  rewrite Hcs, He. destruct (decide (type cs ≠ end_)); [|done].
  destruct (promptDue cross redirect st) eqn:Hp1;
    [|destruct (promptDue redirect recross st) eqn:Hp2].
  - apply promptDue_type in Hp1. rewrite Hcs in Hp1. injection Hp1 as Hp1.
    apply (stay_invariant _ n e (withActualElapsed (Fin e) cs));
      simpl_state; try done.
    rewrite Hcp. discriminate.
  - apply promptDue_type in Hp2. rewrite Hcs in Hp2. injection Hp2 as Hp2.
    apply (stay_invariant _ n e (withActualElapsed (Fin e) cs));
      simpl_state; try done.
    rewrite Hrp. discriminate.
  - set (j := skipForward _ _ _).
    assert (Hj : currentSegmentIndex st + 1 ≤ j ≤ len (trialSegments st)).
    { pose proof (skipForward_bounds (Some cs)
                    (fromIndex (trialSegments st) (currentSegmentIndex st + 1))
                    (currentSegmentIndex st + 1)) as Hb.
      fold j in Hb. unfold fromIndex in Hb. rewrite length_drop in Hb.
      unfold len in *. lia. }
    destruct (decide (j < len (trialSegments st))).
    + apply land_invariant; simpl_state; try done.
      * rewrite len_alterAt. lia.
      * rewrite C5 by lia. reflexivity.
    + apply land_invariant; simpl_state; try done.
      * rewrite len_alterAt. lia.
      * destruct (sameTimeline_last _ _ C1) as (en & Hen & Hten).
        rewrite len_alterAt in Hen.
        symmetry. apply (elapsedAt_finite _ _ en); [assumption|].
        rewrite Forall_forall in C3. apply C3; [by eapply segAt_elem_of | done].
Qed.

Lemma invariant_previous (st : AppState) (n : Z) :
  RunInvariant st n → offered st Previous = true →
  RunInvariant (moveToPreviousSegment st) n.
Proof.
  intros Hinv Hoff. cbn in Hoff. apply andb_true_iff in Hoff as [Hvis Hne].
  apply negb_true_iff, bool_decide_eq_false in Hne.
  destruct (controlsVisible_inv _ Hvis) as (Hrp & Hcp & cs & Hcs & Ht).
  destruct Hinv as [Hshape Hidx Hfin (e & cs' & He & Hcs' & Hsum) Hez _ _ _ _].
  rewrite Hcs in Hcs'. injection Hcs' as <-.
  destruct (commit_facts _ _ _ e n cs Hshape Hfin Hez Hcs Ht Hsum)
    as (C1 & C2 & C3 & C4 & C5).
  unfold moveToPreviousSegment, saveCurrentSegmentTime.
  rewrite Hcs, He. destruct (decide (type cs ≠ end_)); [|done].
  destruct (decide (currentSegmentIndex st > 0)); [|lia].
  set (p := skipBackward _ _ _).
  assert (Hp : 0 ≤ p < currentSegmentIndex st).
  { destruct (sameTimeline_first _ _ Hshape) as (s0 & Hs0 & Hc0).
    pose proof (skipBackward_nonneg (Some cs) _ _ Hs0 Hc0
                  (Z.to_nat (currentSegmentIndex st)) ltac:(lia)) as H0.
    destruct (skipBackward_bounds (Some cs) (trialSegments st)
                (Z.to_nat (currentSegmentIndex st))) as [Hb|Hb]; [|lia].
    fold p in H0, Hb. lia. }
  apply land_invariant; simpl_state; try done.
  - rewrite len_alterAt. lia.
  - rewrite C5 by lia. reflexivity.
Qed.

(** While a prompt is shown the invariant gives the active segment, its
    recorded time equal to the live counter, and the sum of the recorded
    times. *)
Lemma pending_facts (st : AppState) (n : Z) :
  RunInvariant st n →
  showRedirectPrompt st = true ∨ showRecrossPrompt st = true →
  ∃ cs, currentSegment st = Some cs
        ∧ sumRecorded (trialSegments st) = n
        ∧ (showRedirectPrompt st = true →
           type cs = cross ∧ showRecrossPrompt st = false)
        ∧ (showRecrossPrompt st = true →
           type cs = redirect ∧ showRedirectPrompt st = false).
Proof.
  intros [Hshape Hidx Hfin (e & cs & He & Hcs & Hsum) Hez _ Hprompt Hred Hrec] Hp.
  destruct (Hprompt Hp) as [_ Ha]. rewrite Hcs, He in Ha.
  rewrite Hcs in Hred, Hrec.
  cbn in Ha, Hred, Hrec. injection Ha as Ha.
  exists cs. split; [done|]. split.
  { rewrite (recordedZ_Fin _ _ Ha) in Hsum. lia. }
  split; intros H.
  - specialize (Hred H). injection Hred as Hred. split; [done|].
    destruct (showRecrossPrompt st); [|done].
    specialize (Hrec eq_refl). congruence.
  - specialize (Hrec H). injection Hrec as Hrec. split; [done|].
    destruct (showRedirectPrompt st); [|done].
    specialize (Hred eq_refl). congruence.
Qed.

Lemma invariant_redirectDecision (st : AppState) (n : Z) (yes : bool) :
  RunInvariant st n → offered st (RedirectDecision yes) = true →
  RunInvariant (handleRedirectDecisionPrompt yes st) n.
Proof.
  intros Hinv Hoff. cbn in Hoff. apply andb_true_iff in Hoff as [Hrp _].
  destruct (pending_facts _ _ Hinv (or_introl Hrp))
    as (cs & Hcs & Hsum & Hred & _).
  destruct (Hred Hrp) as [Ht Hcp].
  destruct Hinv as [Hshape Hidx Hfin _ Hez _ _ _ _].
  destruct (sameTimeline_after_cross _ _ _ _ Hshape Hcs Ht)
    as (t & Hat & Ht1 & Ht2).
  pose proof (proj1 (segAt_Some _ _ _) Hat) as [Hlt _].
  unfold handleRedirectDecisionPrompt. destruct yes.
  - unfold landOn. apply land_invariant; simpl_state; try done. lia.
  - rewrite Hcs. destruct (fromIndex_cons _ _ _ Hat) as [rest ->].
    cbn [markSkipped].
    rewrite (bool_decide_eq_false_2 (type t = redirect)) by assumption.
    rewrite (bool_decide_eq_false_2 (type t = recross)) by assumption.
    cbn [orb andb]. unfold landOn.
    apply land_invariant; simpl_state; try done.
Qed.

Lemma invariant_recrossDecision (st : AppState) (n : Z) (yes : bool) :
  RunInvariant st n → offered st (RecrossDecision yes) = true →
  RunInvariant (handleRecrossDecisionPrompt yes st) n.
Proof.
  intros Hinv Hoff. cbn in Hoff. apply andb_true_iff in Hoff as [Hcp _].
  destruct (pending_facts _ _ Hinv (or_intror Hcp))
    as (cs & Hcs & Hsum & _ & Hrec).
  destruct (Hrec Hcp) as [Ht Hrp].
  destruct Hinv as [Hshape Hidx Hfin _ Hez _ _ _ _].
  destruct (sameTimeline_after_redirect _ _ _ _ Hshape Hcs Ht)
    as (t & Hat & Hside).
  pose proof (proj1 (segAt_Some _ _ _) Hat) as [Hlt _].
  unfold handleRecrossDecisionPrompt. destruct yes.
  - unfold landOn. apply land_invariant; simpl_state; try done.
  - rewrite Hcs. destruct (fromIndex_cons _ _ _ Hat) as [rest ->].
    cbn [markSkipped].
    rewrite (bool_decide_eq_false_2 (side t = side cs)) by assumption.
    rewrite andb_false_r. unfold landOn.
    apply land_invariant; simpl_state; try done.
Qed.

Lemma eraseElapsed_fresh (l : list Segment) :
  Forall (fun s => actualElapsed s = Fin 0) l → eraseElapsed <$> l = l.
Proof.
  induction 1 as [|s l Hs _ IH]; [reflexivity|].
  cbn [fmap list_fmap]. f_equal; [|exact IH].
  destruct s. cbn in Hs. subst. reflexivity.
Qed.

Lemma sumRecorded_fresh (l : list Segment) :
  Forall (fun s => actualElapsed s = Fin 0) l → sumRecorded l = 0.
Proof.
  induction 1 as [|s l Hs _ IH]; [reflexivity|].
  rewrite sumRecorded_cons, IH, (recordedZ_Fin _ _ Hs). reflexivity.
Qed.

Lemma generated_fresh (cfg : TrialConfig) :
  Forall (fun s => actualElapsed s = Fin 0) (generateAllTrialSegments cfg).
Proof. apply Forall_generated; intros; repeat constructor. Qed.

Lemma sameTimeline_generated (cfg : TrialConfig) :
  sameTimeline cfg (generateAllTrialSegments cfg).
Proof. apply eraseElapsed_fresh, generated_fresh. Qed.

Lemma invariant_start (cfg : TrialConfig) : RunInvariant (startedWith cfg) 0.
Proof.
  pose proof (generated_fresh cfg) as Hz.
  pose proof (sameTimeline_generated cfg) as Hshape.
  unfold startedWith, startTrial. apply land_invariant; simpl_state; try done.
  - eapply Forall_impl; [exact Hz|]. intros s Hs. exists 0. exact Hs.
  - eapply Forall_impl; [exact Hz|]. intros s Hs _. exact Hs.
  - destruct (sameTimeline_last _ _ Hshape) as (en & Hen & _).
    apply segAt_Some in Hen as [? _]. lia.
  - destruct (sameTimeline_first _ _ Hshape) as (s0 & Hs0 & _).
    symmetry. apply (elapsedAt_finite _ _ s0).
    + apply segAt_Some. split; [|exact Hs0].
      apply lookup_lt_Some in Hs0. unfold len. lia.
    + rewrite Forall_lookup in Hz. by eapply Hz.
  - by apply sumRecorded_fresh.
Qed.

Lemma invariant_step (st : AppState) (n : Z) (ev : Event) :
  RunInvariant st n → isTimingEvent ev = true → offered st ev = true →
  RunInvariant (step st ev)
    (n + match ev with
         | Tick => if isRunning st then 1 else 0
         | _ => 0
         end).
Proof.
  intros Hinv Hev Hoff. destruct ev; try discriminate Hev.
  - by apply invariant_tick.
  - rewrite Z.add_0_r. by apply invariant_toggleTimer.
  - rewrite Z.add_0_r. by apply invariant_next.
  - rewrite Z.add_0_r. by apply invariant_previous.
  - rewrite Z.add_0_r. by apply invariant_redirectDecision.
  - rewrite Z.add_0_r. by apply invariant_recrossDecision.
Qed.

Lemma invariant_run (evs : list Event) :
  ∀ (st : AppState) (n : Z),
    RunInvariant st n →
    forallb isTimingEvent evs = true →
    offeredAll st evs = true →
    RunInvariant (run st evs) (n + ticksDelivered st evs).
Proof.
  induction evs as [|ev evs IH]; intros st n Hinv Hev Hoff.
  - cbn. by rewrite Z.add_0_r.
  - cbn in Hev, Hoff.
    apply andb_true_iff in Hev as [Hev Hevs].
    apply andb_true_iff in Hoff as [Hoff Hoffs].
    cbn [ticksDelivered]. unfold run. cbn [foldl]. fold (run (step st ev) evs).
    rewrite Z.add_assoc. apply IH; [|assumption..].
    by apply invariant_step.
Qed.

Lemma totalRecorded_finite (segs : list Segment) :
  Forall (fun s => ∃ z, actualElapsed s = Fin z) segs →
  totalRecorded segs = Fin (sumRecorded segs).
Proof.
  unfold totalRecorded, sumRecorded.
  induction 1 as [|s l [z Hz] _ IH]; [reflexivity|].
  cbn [foldr]. rewrite IH, Hz, (recordedZ_Fin _ _ Hz). reflexivity.
Qed.

(** C8, amended.  Along every sequence of timer ticks, presses of the
    start/pause, next and previous controls and answers to the prompts
    that the user interface offers from a freshly generated timeline
    (so "Previous" is not pressed on the first segment, where it is
    disabled, and the controls are not used while a prompt is shown), the
    recorded times of all segments plus the uncommitted part of the live
    counter equal the number of ticks delivered while running. *)
Theorem C8_ticks_conserved_on_offered_runs (cfg : TrialConfig)
    (evs : list Event) :
  forallb isTimingEvent evs = true →
  offeredAll (startedWith cfg) evs = true →
  ticksConserved (startedWith cfg) evs.
Proof.
  intros Hev Hoff.
  pose proof (invariant_run evs _ _ (invariant_start cfg) Hev Hoff) as Hinv.
  destruct Hinv as [_ _ Hfin (e & cs & He & Hcs & Hsum) _ _ _ _ _].
  unfold ticksConserved, uncommittedElapsed.
  rewrite Hcs, He, (totalRecorded_finite _ Hfin).
  destruct (finite_at _ _ _ Hfin Hcs) as [z Hz].
  rewrite Hz, Js_sub_Fin, Js_add_Fin.
  rewrite (recordedZ_Fin _ _ Hz) in Hsum. f_equal. lia.
Qed.

Lemma C8_ticks_conserved_on_offered_runs_witness :
  forallb isTimingEvent offeredRunExample = true
  ∧ offeredAll (startedWith (configWith 1 1)) offeredRunExample = true
  ∧ ticksDelivered (startedWith (configWith 1 1)) offeredRunExample = 12
  ∧ ticksConserved (startedWith (configWith 1 1)) offeredRunExample.
Proof.
  split; [reflexivity|]. split; [vm_compute; reflexivity|].
  split; [vm_compute; reflexivity|].
  apply (C8_ticks_conserved_on_offered_runs (configWith 1 1) offeredRunExample).
  - reflexivity.
  - vm_compute; reflexivity.
Defined.

(** * Further properties of the code *)

(** *** Input coercion *)

Lemma parseInt_cases (text : string) :
  Js.parseInt text = NaN ∨ ∃ z, Js.parseInt text = Fin z.
Proof.
  unfold Js.parseInt.
  destruct (match Js.skipWhiteSpace text with
            | String c s' =>
                if Ascii.eqb c "-" then (-1, s')
                else if Ascii.eqb c "+" then (1, s') else (1, Js.skipWhiteSpace text)
            | EmptyString => (1, Js.skipWhiteSpace text)
            end) as [sign s2].
  destruct (Js.readDigits s2 false 0); eauto.
Qed.

(** What the [onChange] handler of the minutes stores for any text. *)
Lemma coerced_minutes (text : string) :
  nonNegativeInteger (Js.max (Fin 0) (Js.or (Js.parseInt text) (Fin 0)))
  ∧ (Js.parseInt text = NaN →
     Js.max (Fin 0) (Js.or (Js.parseInt text) (Fin 0)) = Fin 0).
Proof.
  destruct (parseInt_cases text) as [->|[z ->]].
  - split; [|reflexivity]. exists 0. done.
  - split; [|discriminate]. unfold Js.or. cbn [Js.truthy].
    destruct (Z.eqb_spec z 0); cbn [negb]; rewrite Js_max_Fin;
      eexists; split; try reflexivity; lia.
Qed.

(** What the [onChange] handler of the seconds stores for any text. *)
Lemma coerced_seconds (text : string) :
  nonNegativeInteger
    (Js.max (Fin 0) (Js.min (Fin 59) (Js.or (Js.parseInt text) (Fin 0))))
  ∧ (Js.parseInt text = NaN →
     Js.max (Fin 0) (Js.min (Fin 59) (Js.or (Js.parseInt text) (Fin 0))) = Fin 0).
Proof.
  destruct (parseInt_cases text) as [->|[z ->]].
  - split; [|reflexivity]. exists 0. done.
  - split; [|discriminate]. unfold Js.or. cbn [Js.truthy].
    destruct (Z.eqb_spec z 0); cbn [negb]; rewrite Js_min_Fin, Js_max_Fin;
      eexists; split; try reflexivity; lia.
Qed.

(** *** Facts about timelines that the editor relies on *)

(** Transfers a property of the generated segments that does not depend
    on the recorded time to a timeline. *)
Lemma sameTimeline_Forall (P : Segment → Prop) (cfg : TrialConfig)
    (segs : list Segment) :
  sameTimeline cfg segs →
  Forall P (generateAllTrialSegments cfg) →
  Forall (fun s => P (eraseElapsed s)) segs.
Proof. intros Hshape. by apply Forall_erased. Qed.

(** *** Identifiers *)

Lemma ids_witnessBlocks (block : Z → Z → list Segment) :
  (∀ i n, id <$> block i n = [n; n + 1; n + 2; n + 3]) →
  ∀ indices n,
    id <$> witnessBlocks block indices n
    = seqZ n (4 * Z.of_nat (length indices)).
Proof.
  intros Hblock. induction indices as [|i indices IH]; intros n.
  - reflexivity.
  - cbn [witnessBlocks length]. rewrite fmap_app, Hblock, IH.
    replace (4 * Z.of_nat (S (length indices)))
      with (4 + 4 * Z.of_nat (length indices)) by lia.
    rewrite seqZ_app by lia. f_equal.
    rewrite !seqZ_cons by lia. rewrite seqZ_nil by lia.
    repeat (f_equal; try lia).
Qed.

Lemma ids_plaintiffWitnessSegments (i n : Z) :
  id <$> plaintiffWitnessSegments i n = [n; n + 1; n + 2; n + 3].
Proof. cbn. repeat (f_equal; try lia). Qed.

Lemma ids_defenseWitnessSegments (i n : Z) :
  id <$> defenseWitnessSegments i n = [n; n + 1; n + 2; n + 3].
Proof. cbn. repeat (f_equal; try lia). Qed.

(** The identifiers of the generated segments are their positions. *)
Lemma ids_generated (cfg : TrialConfig) :
  id <$> generateAllTrialSegments cfg
  = seqZ 0 (len (generateAllTrialSegments cfg)).
Proof.
  unfold len. rewrite generateAllTrialSegments_closed.
  rewrite !length_app, !fmap_app.
  rewrite (length_witnessBlocks _ length_plaintiffWitnessSegments),
          (length_witnessBlocks _ length_defenseWitnessSegments).
  rewrite (ids_witnessBlocks _ ids_plaintiffWitnessSegments).
  rewrite (ids_witnessBlocks _ ids_defenseWitnessSegments).
  set (p := length (seqZ 0 (plaintiffWitnessCount cfg))).
  set (d := length (seqZ 0 (defenseWitnessCount cfg))).
  cbn [length openingSegments closingSegments].
  replace (Z.of_nat (2 + (4 * p + (4 * d + 4))))
    with (2 + (4 * Z.of_nat p + (4 * Z.of_nat d + 4))) by lia.
  rewrite !seqZ_app by lia. rewrite !Z.add_0_l.
  do 3 (apply (f_equal2 app); [reflexivity|]).
  rewrite !seqZ_cons by lia. rewrite seqZ_nil by lia.
  cbn. repeat (f_equal; try lia).
Qed.

Lemma sameTimeline_ids (cfg : TrialConfig) (segs : list Segment) :
  sameTimeline cfg segs → id <$> segs = seqZ 0 (len segs).
Proof.
  intros Hshape. rewrite (sameTimeline_len _ _ Hshape), <- ids_generated.
  rewrite <- Hshape, <- list_fmap_compose. reflexivity.
Qed.

Lemma sameTimeline_id_at (cfg : TrialConfig) (segs : list Segment) (j : Z)
    (s : Segment) :
  sameTimeline cfg segs → segAt segs j = Some s → id s = j.
Proof.
  intros Hshape Hs. apply segAt_Some in Hs as [Hj Hs].
  assert (H : (id <$> segs) !! Z.to_nat j = Some (id s))
    by (by rewrite list_lookup_fmap, Hs).
  rewrite (sameTimeline_ids _ _ Hshape) in H.
  apply lookup_seqZ in H as [-> _]. lia.
Qed.

(** In a timeline, looking an identifier up by [findIndex] gives the
    position of its segment. *)
Lemma findIndexFrom_skip (segmentId : Z) :
  ∀ (arr : list Segment) (i : Z) (k : nat) (s : Segment),
    arr !! k = Some s → id s = segmentId →
    (∀ k' s', (k' < k)%nat → arr !! k' = Some s' → id s' ≠ segmentId) →
    findIndexFrom segmentId arr i = i + Z.of_nat k.
Proof.
  induction arr as [|x arr IH]; intros i k s Hk Hid Hbefore; [done|].
  cbn [findIndexFrom]. destruct k as [|k].
  - injection Hk as ->. rewrite decide_True by assumption. lia.
  - rewrite decide_False by (apply (Hbefore 0%nat x); [lia | reflexivity]).
    rewrite (IH (i + 1) k s Hk Hid); [lia|].
    intros k' s' Hlt Hs'. apply (Hbefore (S k') s'); [lia | exact Hs'].
Qed.

Lemma findIndexFrom_none (segmentId : Z) :
  ∀ (arr : list Segment) (i : Z),
    Forall (fun s => id s ≠ segmentId) arr →
    findIndexFrom segmentId arr i = -1.
Proof.
  induction arr as [|x arr IH]; intros i H; [reflexivity|].
  apply Forall_cons in H as [Hx H]. cbn [findIndexFrom].
  rewrite decide_False by assumption. by apply IH.
Qed.

Lemma sameTimeline_findIndex (cfg : TrialConfig) (segs : list Segment)
    (j : Z) (s : Segment) :
  sameTimeline cfg segs → segAt segs j = Some s →
  findIndexFrom (id s) segs 0 = j.
Proof.
  intros Hshape Hs. pose proof (proj1 (segAt_Some _ _ _) Hs) as [Hj Hl].
  rewrite (findIndexFrom_skip (id s) segs 0 (Z.to_nat j) s Hl eq_refl); [lia|].
  intros k' s' Hlt Hs' Hid.
  assert (Hs'' : segAt segs (Z.of_nat k') = Some s').
  { apply segAt_Some. rewrite Nat2Z.id. split; [|done].
    apply lookup_lt_Some in Hs'. unfold len. lia. }
  rewrite (sameTimeline_id_at _ _ _ _ Hshape Hs) in Hid.
  rewrite (sameTimeline_id_at _ _ _ _ Hshape Hs'') in Hid. lia.
Qed.

Lemma sameTimeline_findIndex_unknown (cfg : TrialConfig) (segs : list Segment)
    (segmentId : Z) :
  sameTimeline cfg segs → ¬ (0 ≤ segmentId < len segs) →
  findIndexFrom segmentId segs 0 = -1.
Proof.
  intros Hshape Hout. apply findIndexFrom_none.
  rewrite Forall_lookup. intros k s Hs Hid.
  assert (Hs' : segAt segs (Z.of_nat k) = Some s).
  { apply segAt_Some. rewrite Nat2Z.id. split; [|done].
    apply lookup_lt_Some in Hs. unfold len. lia. }
  rewrite (sameTimeline_id_at _ _ _ _ Hshape Hs') in Hid.
  apply segAt_Some in Hs' as [? _]. lia.
Qed.

(** X1.  In every timeline the identifier of a segment is its position,
    and [findIndex] on that identifier finds the position again. *)
Theorem X1_identifier_is_position (cfg : TrialConfig) (segs : list Segment)
    (j : Z) (s : Segment) :
  sameTimeline cfg segs →
  segAt segs j = Some s →
  id s = j ∧ findIndexFrom (id s) segs 0 = j.
Proof.
  intros Hshape Hs. split.
  - by eapply sameTimeline_id_at.
  - by eapply sameTimeline_findIndex.
Qed.

Lemma X1_identifier_is_position_witness :
  ∃ s, segAt (generateAllTrialSegments defaultConfig) 5 = Some s
       ∧ id s = 5
       ∧ findIndexFrom (id s) (generateAllTrialSegments defaultConfig) 0 = 5.
Proof.
  eexists. split; [vm_compute; reflexivity|].
  eapply (X1_identifier_is_position defaultConfig).
  - apply sameTimeline_generated.
  - vm_compute; reflexivity.
Defined.

(** X2.  For any integer witness counts, negative ones included, the
    generator produces [2 + 4 max(0,p) + 4 max(0,d) + 4] segments: a
    count that is not positive simply leaves out that side's witnesses. *)
Theorem X2_timeline_length_any_counts (cfg : TrialConfig) :
  len (generateAllTrialSegments cfg)
  = 2 + 4 * Z.max 0 (plaintiffWitnessCount cfg)
    + 4 * Z.max 0 (defenseWitnessCount cfg) + 4.
Proof.
  unfold len. rewrite generateAllTrialSegments_closed.
  rewrite !length_app.
  rewrite (length_witnessBlocks _ length_plaintiffWitnessSegments).
  rewrite (length_witnessBlocks _ length_defenseWitnessSegments).
  rewrite !length_seqZ. cbn [length openingSegments closingSegments]. lia.
Qed.

(** *** The budget of a segment *)

Lemma contributes_unique (s : Segment) (k k' : Key.t) :
  doesSegmentContributeToBudget s (Some k) = true →
  doesSegmentContributeToBudget s (Some k') = true →
  k = k'.
Proof.
  unfold doesSegmentContributeToBudget.
  destruct k, k'; try reflexivity;
    rewrite ?andb_true_iff, ?orb_true_iff, ?bool_decide_eq_true;
    intros H1 H2; exfalso; intuition congruence.
Qed.

Lemma contributes_exam (s : Segment) (key : option Key.t) :
  doesSegmentContributeToBudget s key = true →
  type s ∈ [direct; cross; redirect; recross].
Proof.
  unfold doesSegmentContributeToBudget.
  destruct key as [[]|]; [..|discriminate];
    rewrite ?andb_true_iff, ?orb_true_iff, ?bool_decide_eq_true;
    intros H; destruct (type s); try (exfalso; intuition congruence);
    repeat constructor.
Qed.

Lemma sameTimeline_exam_budget (cfg : TrialConfig) (segs : list Segment) :
  sameTimeline cfg segs →
  Forall (fun s => type s ∈ [direct; cross; redirect; recross] →
                   ∃ k, doesSegmentContributeToBudget s (Some k) = true) segs.
Proof.
  intros Hshape.
  apply (sameTimeline_Forall
           (fun s => type s ∈ [direct; cross; redirect; recross] →
                     ∃ k, doesSegmentContributeToBudget s (Some k) = true)
           cfg segs Hshape).
  apply Forall_generated.
  - repeat apply Forall_cons_2; try apply Forall_nil_2;
      intros H; elem_cases H; discriminate.
  - intros i n. unfold plaintiffWitnessSegments. cbn.
    repeat apply Forall_cons_2; try apply Forall_nil_2; intros _.
    + by exists Key.pOverallDirectDuration.
    + by exists Key.dOverallCrossDuration.
    + by exists Key.pOverallDirectDuration.
    + by exists Key.dOverallCrossDuration.
  - intros i n. unfold defenseWitnessSegments. cbn.
    repeat apply Forall_cons_2; try apply Forall_nil_2; intros _.
    + by exists Key.dOverallDirectDuration.
    + by exists Key.pOverallCrossDuration.
    + by exists Key.dOverallDirectDuration.
    + by exists Key.pOverallCrossDuration.
  - intros n. repeat apply Forall_cons_2; try apply Forall_nil_2;
      intros H; elem_cases H; discriminate.
Qed.

(** X3.  In a timeline every direct, cross, redirect and recross draws
    on exactly one of the four shared budgets, and no other segment
    draws on any budget. *)
Theorem X3_exactly_one_budget (cfg : TrialConfig) (segs : list Segment)
    (s : Segment) :
  sameTimeline cfg segs →
  s ∈ segs →
  (type s ∈ [direct; cross; redirect; recross] →
   ∃ k, doesSegmentContributeToBudget s (Some k) = true
        ∧ ∀ k', doesSegmentContributeToBudget s (Some k') = true → k' = k)
  ∧ (type s ∉ [direct; cross; redirect; recross] →
     ∀ key, doesSegmentContributeToBudget s key = false).
Proof.
  intros Hshape Hin. split.
  - intros Ht. pose proof (sameTimeline_exam_budget _ _ Hshape) as H.
    rewrite Forall_forall in H. destruct (H s Hin Ht) as [k Hk].
    exists k. split; [exact Hk|]. intros k' Hk'.
    by apply (contributes_unique s).
  - intros Ht key.
    destruct (doesSegmentContributeToBudget s key) eqn:Hc; [|reflexivity].
    destruct Ht. by eapply contributes_exam.
Qed.

Lemma X3_exactly_one_budget_witness :
  ∃ s, s ∈ generateAllTrialSegments defaultConfig
       ∧ type s = recross
       ∧ ∃ k, doesSegmentContributeToBudget s (Some k) = true
              ∧ ∀ k', doesSegmentContributeToBudget s (Some k') = true → k' = k.
Proof.
  exists (mkSegment 5 recross (Some defense) (Some 0) "P Witness 1 - Recross"
            PInf true (Fin 0)).
  assert (Hin : mkSegment 5 recross (Some defense) (Some 0)
                  "P Witness 1 - Recross" PInf true (Fin 0)
                ∈ generateAllTrialSegments defaultConfig).
  { apply (list_elem_of_lookup_2 _ 5%nat). vm_compute. reflexivity. }
  split; [exact Hin|]. split; [reflexivity|].
  apply (proj1 (X3_exactly_one_budget defaultConfig _ _
                  (sameTimeline_generated defaultConfig) Hin)).
  repeat constructor.
Defined.

(** *** Only the recorded times ever change *)




Lemma erase_insert_same (v : jsnum) (i : nat) (l : list Segment)
    (s : Segment) :
  l !! i = Some s →
  eraseElapsed <$> <[i := withActualElapsed v s]> l = eraseElapsed <$> l.
Proof.
  intros Hs. rewrite list_fmap_insert. apply list_insert_id.
  by rewrite list_lookup_fmap, Hs.
Qed.

Lemma erase_deductLoop (key : option Key.t) :
  ∀ (n : nat) (e : jsnum) (l : list Segment),
    eraseElapsed <$> deductLoop key n e l = eraseElapsed <$> l.
Proof.
  induction n as [|i IH]; intros e l; cbn [deductLoop]; [reflexivity|].
  destruct (Js.gtb e (Fin 0)); [|reflexivity].
  destruct (l !! i) as [seg|] eqn:Hseg; [|reflexivity].
  destruct (_ && _); [|apply IH].
  rewrite IH. by apply erase_insert_same.
Qed.

Lemma erase_setFirstById (i : Z) (v : jsnum) (l : list Segment) :
  eraseElapsed <$> setFirstById i v l = eraseElapsed <$> l.
Proof.
  induction l as [|s l IH]; [reflexivity|]. cbn [setFirstById].
  destruct (decide (id s = i)); [reflexivity|].
  cbn [fmap list_fmap]. f_equal. exact IH.
Qed.

Lemma erase_map_times (f : Segment → Segment) (l : list Segment) :
  (∀ s, eraseElapsed (f s) = eraseElapsed s) →
  eraseElapsed <$> map f l = eraseElapsed <$> l.
Proof.
  intros Hf. induction l as [|s l IH]; [reflexivity|].
  cbn. f_equal; [apply Hf | exact IH].
Qed.






Lemma onlyTimesDiffer_handleEditTimeSave (st : AppState) :
  onlyTimesDiffer st (handleEditTimeSave st)
  ∧ currentSegmentIndex (handleEditTimeSave st) = currentSegmentIndex st.
Proof.
  unfold handleEditTimeSave.
  destruct (editModalContext st) as [[seg|key used total|seg dur]|];
    [| | |by repeat split].
  - destruct (decide _); repeat split; simpl_state; try done;
      (apply erase_map_times; intros s; by destruct (decide _)).
  - destruct (Js.ltb _ _); repeat split; simpl_state; try done.
    apply erase_deductLoop.
  - repeat split; simpl_state; try done. apply erase_setFirstById.
Qed.

Lemma editWith_only_times (context : EditContext)
    (minutes seconds : FieldInput) (st : AppState) :
  trialConfig (editWith context minutes seconds st) = trialConfig st
  ∧ eraseElapsed <$> trialSegments (editWith context minutes seconds st)
    = eraseElapsed <$> trialSegments st
  ∧ currentSegmentIndex (editWith context minutes seconds st)
    = currentSegmentIndex st
  ∧ editModalContext (editWith context minutes seconds st) = None.
Proof.
  unfold editWith.
  set (q := fillSeconds seconds (fillMinutes minutes (openEditModal context st))).
  assert (Hq : trialConfig q = trialConfig st
               ∧ trialSegments q = trialSegments st
               ∧ currentSegmentIndex q = currentSegmentIndex st
               ∧ editModalContext q = Some context).
  { subst q. destruct minutes, seconds; done. }
  destruct Hq as (Hc & Hs & Hi & Hctx).
  destruct (onlyTimesDiffer_handleEditTimeSave q) as [[Hc' Hs'] Hi'].
  rewrite Hc', Hs', Hi', Hc, Hs, Hi. repeat split.
  unfold handleEditTimeSave. rewrite Hctx. reflexivity.
Qed.

(** X5.  An edit, whatever the context and whatever is typed, changes
    neither the configuration (so no configured total), nor the active
    position, nor the segments of the timeline or their order: only
    recorded times and the live counter. *)
Theorem X5_edit_changes_only_times (context : EditContext)
    (minutes seconds : FieldInput) (st : AppState) :
  trialConfig (editWith context minutes seconds st) = trialConfig st
  ∧ eraseElapsed <$> trialSegments (editWith context minutes seconds st)
    = eraseElapsed <$> trialSegments st
  ∧ currentSegmentIndex (editWith context minutes seconds st)
    = currentSegmentIndex st
  ∧ editModalContext (editWith context minutes seconds st) = None.
Proof. exact (editWith_only_times context minutes seconds st). Qed.

(** *** The invariant of offered runs, jumps included *)

Lemma nonNegativeInteger_elapsedAt (segs : list Segment) (j : Z) :
  Forall (fun s => nonNegativeInteger (actualElapsed s)) segs →
  nonNegativeInteger (elapsedAt segs j).
Proof.
  intros Htimes. unfold elapsedAt.
  destruct (segAt segs j) as [s|] eqn:Hs; [|by exists 0].
  rewrite Forall_forall in Htimes.
  destruct (Htimes s (segAt_elem_of _ _ _ Hs)) as (z & Hz & Hz0).
  rewrite Hz. unfold Js.or. cbn.
  destruct (Z.eqb_spec z 0); cbn; [by exists 0 | by exists z].
Qed.


(** A state with the timer stopped and no prompt shown. *)
Lemma nav_land (st : AppState) :
  sameTimeline (trialConfig st) (trialSegments st) →
  0 ≤ currentSegmentIndex st < len (trialSegments st) →
  Forall (fun s => nonNegativeInteger (actualElapsed s)) (trialSegments st) →
  nonNegativeInteger (currentSegmentElapsed st) →
  isRunning st = false →
  showRedirectPrompt st = false →
  showRecrossPrompt st = false →
  NavInvariant st.
Proof.
  intros Hshape Hidx Htimes Hlive Hrun Hrp Hcp.
  constructor; try assumption; try (intros; assumption).
  - rewrite Hrp. discriminate.
  - rewrite Hcp. discriminate.
Qed.

Lemma times_commit (segs : list Segment) (idx e : Z) :
  Forall (fun s => nonNegativeInteger (actualElapsed s)) segs → 0 ≤ e →
  Forall (fun s => nonNegativeInteger (actualElapsed s))
    (alterAt (withActualElapsed (Fin e)) idx segs).
Proof.
  intros Htimes He. apply Forall_alterAt; [assumption|].
  intros s _ _. by exists e.
Qed.

Lemma nav_start (cfg : TrialConfig) : NavInvariant (startedWith cfg).
Proof.
  pose proof (generated_fresh cfg) as Hz.
  pose proof (sameTimeline_generated cfg) as Hshape.
  unfold startedWith, startTrial. apply nav_land; simpl_state; try done.
  - destruct (sameTimeline_last _ _ Hshape) as (en & Hen & _).
    apply segAt_Some in Hen as [? _]. lia.
  - eapply Forall_impl; [exact Hz|]. intros s Hs. by exists 0.
  - by exists 0.
Qed.

Lemma sameTimeline_not_last (cfg : TrialConfig) (segs : list Segment)
    (j : Z) (s : Segment) :
  sameTimeline cfg segs → segAt segs j = Some s → type s ≠ end_ →
  j < len segs - 1.
Proof.
  intros Hshape Hs Ht. destruct (sameTimeline_last _ _ Hshape) as (en & Hen & Hte).
  pose proof (proj1 (segAt_Some _ _ _) Hs) as [Hj _].
  destruct (decide (j = len segs - 1)) as [->|]; [|lia].
  rewrite Hs in Hen. injection Hen as ->. contradiction.
Qed.

Lemma nav_next (st : AppState) :
  NavInvariant st → offered st Next = true →
  NavInvariant (moveToNextSegment st).
Proof.
  intros Hinv Hoff. cbn in Hoff. apply andb_true_iff in Hoff as [Hvis _].
  destruct (controlsVisible_inv _ Hvis) as (Hrp & Hcp & cs & Hcs & Ht).
  destruct Hinv as [Hshape Hidx Htimes (e & He & He0) _ _ _ _].
  pose proof (sameTimeline_alterAt _ _ (currentSegmentIndex st) (Fin e) Hshape) as C1.
  pose proof (times_commit _ (currentSegmentIndex st) e Htimes He0) as C2.
  pose proof (segAt_alterAt_eq (withActualElapsed (Fin e)) _ _ _ Hcs) as Hcur'.
  unfold moveToNextSegment, saveCurrentSegmentTime.
  rewrite Hcs, He. destruct (decide (type cs ≠ end_)); [|done].
  destruct (promptDue cross redirect st) eqn:Hp1;
    [|destruct (promptDue redirect recross st) eqn:Hp2].
  - apply promptDue_type in Hp1. rewrite Hcs in Hp1.
    constructor; simpl_state; try done.
    + by rewrite len_alterAt.
    + by exists e.
    + unfold currentSegment. simpl_state. by rewrite Hcur'.
    + rewrite Hcp. discriminate.
  - apply promptDue_type in Hp2. rewrite Hcs in Hp2.
    constructor; simpl_state; try done.
    + by rewrite len_alterAt.
    + by exists e.
    + rewrite Hrp. discriminate.
    + unfold currentSegment. simpl_state. by rewrite Hcur'.
  - set (j := skipForward _ _ _).
    assert (Hj : currentSegmentIndex st + 1 ≤ j ≤ len (trialSegments st)).
    { pose proof (skipForward_bounds (Some cs)
                    (fromIndex (trialSegments st) (currentSegmentIndex st + 1))
                    (currentSegmentIndex st + 1)) as Hb.
      fold j in Hb. unfold fromIndex in Hb. rewrite length_drop in Hb.
      unfold len in *. lia. }
    destruct (decide (j < len (trialSegments st))).
    + apply nav_land; simpl_state; try done.
      * rewrite len_alterAt. lia.
      * by apply nonNegativeInteger_elapsedAt.
    + apply nav_land; simpl_state; try done.
      * rewrite len_alterAt. lia.
      * by exists 0.
Qed.

Lemma nav_previous (st : AppState) :
  NavInvariant st → offered st Previous = true →
  NavInvariant (moveToPreviousSegment st).
Proof.
  intros Hinv Hoff. cbn in Hoff. apply andb_true_iff in Hoff as [Hvis Hne].
  apply negb_true_iff, bool_decide_eq_false in Hne.
  destruct (controlsVisible_inv _ Hvis) as (Hrp & Hcp & cs & Hcs & Ht).
  destruct Hinv as [Hshape Hidx Htimes (e & He & He0) _ _ _ _].
  pose proof (sameTimeline_alterAt _ _ (currentSegmentIndex st) (Fin e) Hshape) as C1.
  pose proof (times_commit _ (currentSegmentIndex st) e Htimes He0) as C2.
  unfold moveToPreviousSegment, saveCurrentSegmentTime.
  rewrite Hcs, He. destruct (decide (type cs ≠ end_)); [|done].
  destruct (decide (currentSegmentIndex st > 0)); [|lia].
  set (p := skipBackward _ _ _).
  assert (Hp : 0 ≤ p < currentSegmentIndex st).
  { destruct (sameTimeline_first _ _ Hshape) as (s0 & Hs0 & Hc0).
    pose proof (skipBackward_nonneg (Some cs) _ _ Hs0 Hc0
                  (Z.to_nat (currentSegmentIndex st)) ltac:(lia)) as H0.
    destruct (skipBackward_bounds (Some cs) (trialSegments st)
                (Z.to_nat (currentSegmentIndex st))) as [Hb|Hb]; [|lia].
    fold p in H0, Hb. lia. }
  apply nav_land; simpl_state; try done.
  - rewrite len_alterAt. lia.
  - by apply nonNegativeInteger_elapsedAt.
Qed.

(** While a prompt is shown, the other one is not. *)
Lemma nav_pending (st : AppState) :
  NavInvariant st →
  (showRedirectPrompt st = true →
   ∃ cs, currentSegment st = Some cs ∧ type cs = cross
         ∧ showRecrossPrompt st = false)
  ∧ (showRecrossPrompt st = true →
     ∃ cs, currentSegment st = Some cs ∧ type cs = redirect
           ∧ showRedirectPrompt st = false).
Proof.
  intros [_ Hidx _ _ _ _ Hred Hrec].
  destruct (segAt_lt _ _ Hidx) as [cs Hcs]. fold (currentSegment st) in Hcs.
  rewrite Hcs in Hred, Hrec. cbn in Hred, Hrec.
  split; intros H; exists cs.
  - specialize (Hred H). injection Hred as Hred. repeat split; try done.
    destruct (showRecrossPrompt st); [|done].
    specialize (Hrec eq_refl). congruence.
  - specialize (Hrec H). injection Hrec as Hrec. repeat split; try done.
    destruct (showRedirectPrompt st); [|done].
    specialize (Hred eq_refl). congruence.
Qed.

(** The outcome of answering the redirect prompt on a cross: "Yes"
    lands on the next position, "No" three positions further, and
    neither changes a segment. *)
Lemma redirectDecision_outcome (st : AppState) (cs : Segment) (yes : bool) :
  sameTimeline (trialConfig st) (trialSegments st) →
  currentSegment st = Some cs → type cs = cross →
  let target := currentSegmentIndex st + (if yes then 1 else 3) in
  target < len (trialSegments st)
  ∧ handleRedirectDecisionPrompt yes st
    = landOn st target (setShowRedirectPrompt false st).
Proof.
  intros Hshape Hcs Ht.
  destruct (sameTimeline_after_cross _ _ _ _ Hshape Hcs Ht)
    as (t & Hat & Ht1 & Ht2).
  pose proof (proj1 (segAt_Some _ _ _) Hat) as [Hlt _].
  unfold handleRedirectDecisionPrompt. destruct yes; cbn zeta.
  - split; [lia | reflexivity].
  - split; [lia|]. rewrite Hcs.
    destruct (fromIndex_cons _ _ _ Hat) as [rest ->].
    cbn [markSkipped].
    rewrite (bool_decide_eq_false_2 (type t = redirect)) by assumption.
    rewrite (bool_decide_eq_false_2 (type t = recross)) by assumption.
    reflexivity.
Qed.

(** The outcome of answering the recross prompt on a redirect: both
    answers land on the next position and change no segment. *)
Lemma recrossDecision_outcome (st : AppState) (cs : Segment) (yes : bool) :
  sameTimeline (trialConfig st) (trialSegments st) →
  currentSegment st = Some cs → type cs = redirect →
  currentSegmentIndex st + 1 < len (trialSegments st)
  ∧ handleRecrossDecisionPrompt yes st
    = landOn st (currentSegmentIndex st + 1) (setShowRecrossPrompt false st).
Proof.
  intros Hshape Hcs Ht.
  destruct (sameTimeline_after_redirect _ _ _ _ Hshape Hcs Ht)
    as (t & Hat & Hside).
  pose proof (proj1 (segAt_Some _ _ _) Hat) as [Hlt _].
  unfold handleRecrossDecisionPrompt. destruct yes.
  - split; [lia | reflexivity].
  - split; [lia|]. rewrite Hcs.
    destruct (fromIndex_cons _ _ _ Hat) as [rest ->].
    cbn [markSkipped].
    rewrite (bool_decide_eq_false_2 (side t = side cs)) by assumption.
    rewrite andb_false_r. reflexivity.
Qed.

Lemma nav_redirectDecision (st : AppState) (yes : bool) :
  NavInvariant st → offered st (RedirectDecision yes) = true →
  NavInvariant (handleRedirectDecisionPrompt yes st).
Proof.
  intros Hinv Hoff. cbn in Hoff. apply andb_true_iff in Hoff as [Hrp _].
  destruct (proj1 (nav_pending _ Hinv) Hrp) as (cs & Hcs & Ht & Hcp).
  destruct Hinv as [Hshape Hidx Htimes Hlive _ _ _ _].
  destruct (redirectDecision_outcome st cs yes Hshape Hcs Ht) as [Hlt ->].
  unfold landOn. apply nav_land; simpl_state; try done.
  - destruct yes; lia.
  - by apply nonNegativeInteger_elapsedAt.
Qed.

Lemma nav_recrossDecision (st : AppState) (yes : bool) :
  NavInvariant st → offered st (RecrossDecision yes) = true →
  NavInvariant (handleRecrossDecisionPrompt yes st).
Proof.
  intros Hinv Hoff. cbn in Hoff. apply andb_true_iff in Hoff as [Hcp _].
  destruct (proj2 (nav_pending _ Hinv) Hcp) as (cs & Hcs & Ht & Hrp).
  destruct Hinv as [Hshape Hidx Htimes Hlive _ _ _ _].
  destruct (recrossDecision_outcome st cs yes Hshape Hcs Ht) as [Hlt ->].
  unfold landOn. apply nav_land; simpl_state; try done.
  - lia.
  - by apply nonNegativeInteger_elapsedAt.
Qed.

Lemma existsb_listed (segmentId : Z) (segs : list Segment) :
  existsb (fun s => bool_decide (id s = segmentId) && inSummary s) segs = true →
  ∃ j s, segAt segs j = Some s ∧ id s = segmentId ∧ inSummary s = true.
Proof.
  intros H. apply existsb_exists in H as (s & Hin & Hs).
  apply andb_true_iff in Hs as [Hid Hsum]. apply bool_decide_eq_true in Hid.
  apply list_elem_of_In, list_elem_of_lookup in Hin as [k Hk].
  exists (Z.of_nat k), s. repeat split; try done.
  apply segAt_Some. rewrite Nat2Z.id. split; [|done].
  apply lookup_lt_Some in Hk. unfold len. lia.
Qed.

(** A jump to the identifier of a segment of the timeline commits the
    live counter, moves the cursor to that segment and loads its
    recorded time as the handler's render saw it. *)
Lemma goTo_outcome (st : AppState) (j : Z) (s : Segment) :
  sameTimeline (trialConfig st) (trialSegments st) →
  segAt (trialSegments st) j = Some s →
  goToSegmentFromSummary (id s) st
  = setCurrentSegmentElapsed (actualElapsed s)
      (setCurrentSegmentIndex j
         (saveCurrentSegmentTime st (setIsRunning false st))).
Proof.
  intros Hshape Hs. unfold goToSegmentFromSummary. cbv zeta.
  rewrite (sameTimeline_findIndex _ _ _ _ Hshape Hs).
  pose proof (proj1 (segAt_Some _ _ _) Hs) as [Hj _].
  destruct (decide (j ≠ -1)); [|lia]. by rewrite Hs.
Qed.

Lemma nav_goTo (st : AppState) (segmentId : Z) :
  NavInvariant st → offered st (GoTo segmentId) = true →
  NavInvariant (goToSegmentFromSummary segmentId st).
Proof.
  intros Hinv Hoff. cbn [offered] in Hoff.
  apply andb_true_iff in Hoff as [Hno Hex].
  apply negb_true_iff in Hno.
  apply orb_false_iff in Hno as [Hno Hcp].
  apply orb_false_iff in Hno as [_ Hrp].
  destruct (existsb_listed _ _ Hex) as (j & s & Hs & <- & _).
  destruct Hinv as [Hshape Hidx Htimes (e & He & He0) _ _ _ _].
  rewrite (goTo_outcome _ _ _ Hshape Hs).
  pose proof (proj1 (segAt_Some _ _ _) Hs) as [Hj _].
  assert (Hsn : nonNegativeInteger (actualElapsed s)).
  { rewrite Forall_forall in Htimes. apply Htimes. by eapply segAt_elem_of. }
  unfold saveCurrentSegmentTime.
  destruct (currentSegment st) as [cs|]; [destruct (decide (type cs ≠ end_))|];
    apply nav_land; simpl_state; try done.
  - by apply sameTimeline_alterAt.
  - by rewrite len_alterAt.
  - rewrite He. by apply times_commit.
Qed.

Lemma nav_step (st : AppState) (ev : Event) :
  NavInvariant st → offered st ev = true → NavInvariant (step st ev).
Proof.
  intros Hinv Hoff. destruct ev; cbn [step].
  - destruct (isRunning st) eqn:Hrun; [|done].
    destruct Hinv as [Hshape Hidx Htimes (e & He & He0) Hend Hp Hred Hrec].
    unfold handleTimerTick. constructor; simpl_state; try done.
    rewrite He. exists (e + 1). split; [done | lia].
  - cbn in Hoff.
    destruct (controlsVisible_inv _ Hoff) as (Hrp & Hcp & cs & Hcs & Ht).
    destruct Hinv as [Hshape Hidx Htimes Hlive Hend Hp Hred Hrec].
    unfold toggleTimer. rewrite Hrp, Hcp, Hcs.
    rewrite (bool_decide_eq_false_2 (type cs = end_)) by assumption.
    cbn [orb]. constructor; simpl_state; try done.
    + unfold currentSegment. simpl_state.
      fold (currentSegment st). rewrite Hcs. cbn. congruence.
    + rewrite Hrp, Hcp. intros [?|?]; discriminate.
  - by apply nav_next.
  - by apply nav_previous.
  - by apply nav_redirectDecision.
  - by apply nav_recrossDecision.
  - by apply nav_goTo.
Qed.

Lemma nav_run (evs : list Event) :
  ∀ st : AppState,
    NavInvariant st → offeredAll st evs = true → NavInvariant (run st evs).
Proof.
  induction evs as [|ev evs IH]; intros st Hinv Hoff; [done|].
  cbn in Hoff. apply andb_true_iff in Hoff as [Hoff Hoffs].
  unfold run. cbn [foldl]. fold (run (step st ev) evs).
  apply IH; [|assumption]. by apply nav_step.
Qed.





(** X7. In every state that a run of offered events reaches, the timer
    runs only on a segment other than the end marker and with no prompt
    shown; the redirect prompt is shown only on a cross and the recross
    prompt only on a redirect, so the two are never shown together. *)
Theorem X7_timer_stopped_at_prompt_and_end (cfg : TrialConfig)
    (evs : list Event) :
  offeredAll (startedWith cfg) evs = true →
  let st := run (startedWith cfg) evs in
  (isRunning st = true →
   showRedirectPrompt st = false ∧ showRecrossPrompt st = false
   ∧ ∃ cs, currentSegment st = Some cs ∧ type cs ≠ end_)
  ∧ (showRedirectPrompt st = true →
     ∃ cs, currentSegment st = Some cs ∧ type cs = cross
           ∧ showRecrossPrompt st = false)
  ∧ (showRecrossPrompt st = true →
     ∃ cs, currentSegment st = Some cs ∧ type cs = redirect
           ∧ showRedirectPrompt st = false).
Proof.
  intros Hoff st.
  pose proof (nav_run evs _ (nav_start cfg) Hoff) as Hinv. fold st in Hinv.
  split; [|exact (nav_pending _ Hinv)].
  destruct Hinv as [_ Hidx _ _ Hend Hp _ _]. intros Hrun.
  destruct (segAt_lt _ _ Hidx) as [cs Hcs]. fold (currentSegment st) in Hcs.
  rewrite Hcs in Hend. cbn in Hend.
  destruct (showRedirectPrompt st) eqn:Hrp.
  { rewrite Hp in Hrun by (by left). discriminate. }
  destruct (showRecrossPrompt st) eqn:Hcp.
  { rewrite Hp in Hrun by (by right). discriminate. }
  repeat split. exists cs. split; [done|]. intros Ht.
  rewrite Hend in Hrun by (by rewrite Ht). discriminate.
Qed.

Lemma X7_timer_stopped_at_prompt_and_end_witness :
  offeredAll (startedWith (configWith 1 1)) (take 14 jumpRunExample) = true
  ∧ (let st := run (startedWith (configWith 1 1)) (take 14 jumpRunExample) in
     (isRunning st = true →
      showRedirectPrompt st = false ∧ showRecrossPrompt st = false
      ∧ ∃ cs, currentSegment st = Some cs ∧ type cs ≠ end_)
     ∧ (showRedirectPrompt st = true →
        ∃ cs, currentSegment st = Some cs ∧ type cs = cross
              ∧ showRecrossPrompt st = false)
     ∧ (showRecrossPrompt st = true →
        ∃ cs, currentSegment st = Some cs ∧ type cs = redirect
              ∧ showRedirectPrompt st = false)).
Proof.
  split; [vm_compute; reflexivity|].
  apply (X7_timer_stopped_at_prompt_and_end (configWith 1 1)
           (take 14 jumpRunExample)).
  vm_compute; reflexivity.
Defined.

(** *** Neighbours in a timeline *)

Ltac solve_link :=
  let H := fresh in
  intros ? H; cbn in H; injection H as <-; cbn;
  (split; [|split]); intros H;
  solve [ discriminate H | by split | cbn in *; congruence ].

Lemma linked_plaintiffWitnessSegments (i n : Z) (rest : list Segment) :
  linked rest → startsUnconditional rest →
  linked (plaintiffWitnessSegments i n ++ rest)
  ∧ startsUnconditional (plaintiffWitnessSegments i n ++ rest).
Proof.
  intros Hl (t & Ht & Hc). destruct rest as [|t0 rest]; [done|].
  cbn in Ht. injection Ht as ->. split.
  - cbn in Hl |- *. do 4 (split; [solve_link|]). exact Hl.
  - eexists. split; [reflexivity|]. reflexivity.
Qed.

Lemma linked_defenseWitnessSegments (i n : Z) (rest : list Segment) :
  linked rest → startsUnconditional rest →
  linked (defenseWitnessSegments i n ++ rest)
  ∧ startsUnconditional (defenseWitnessSegments i n ++ rest).
Proof.
  intros Hl (t & Ht & Hc). destruct rest as [|t0 rest]; [done|].
  cbn in Ht. injection Ht as ->. split.
  - cbn in Hl |- *. do 4 (split; [solve_link|]). exact Hl.
  - eexists. split; [reflexivity|]. reflexivity.
Qed.

Lemma linked_witnessBlocks (block : Z → Z → list Segment) :
  (∀ i n rest, linked rest → startsUnconditional rest →
               linked (block i n ++ rest)
               ∧ startsUnconditional (block i n ++ rest)) →
  ∀ indices n rest,
    linked rest → startsUnconditional rest →
    linked (witnessBlocks block indices n ++ rest)
    ∧ startsUnconditional (witnessBlocks block indices n ++ rest).
Proof.
  intros Hblock. induction indices as [|i indices IH]; intros n rest Hl Hst.
  - done.
  - cbn [witnessBlocks]. rewrite <- app_assoc.
    destruct (IH (n + 4) rest Hl Hst) as [H1 H2]. by apply Hblock.
Qed.

Lemma linked_generated (cfg : TrialConfig) :
  linked (generateAllTrialSegments cfg).
Proof.
  rewrite generateAllTrialSegments_closed.
  assert (Hc : linked (closingSegments cfg
                 (2 + 4 * Z.of_nat (length (seqZ 0 (plaintiffWitnessCount cfg)))
                  + 4 * Z.of_nat (length (seqZ 0 (defenseWitnessCount cfg)))))
               ∧ startsUnconditional (closingSegments cfg
                 (2 + 4 * Z.of_nat (length (seqZ 0 (plaintiffWitnessCount cfg)))
                  + 4 * Z.of_nat (length (seqZ 0 (defenseWitnessCount cfg)))))).
  { split.
    - cbn. do 3 (split; [solve_link|]). by split.
    - eexists. split; reflexivity. }
  destruct Hc as [Hc Hs].
  destruct (linked_witnessBlocks _ linked_defenseWitnessSegments
              (seqZ 0 (defenseWitnessCount cfg))
              (2 + 4 * Z.of_nat (length (seqZ 0 (plaintiffWitnessCount cfg))))
              _ Hc Hs) as [Hc1 Hs1].
  destruct (linked_witnessBlocks _ linked_plaintiffWitnessSegments
              (seqZ 0 (plaintiffWitnessCount cfg)) 2 _ Hc1 Hs1)
    as [Hc2 (t & Ht & Hct)].
  destruct (witnessBlocks plaintiffWitnessSegments _ _ ++ _) as [|t0 rest];
    [done|].
  cbn in Ht. injection Ht as ->.
  cbn in Hc2 |- *. do 2 (split; [solve_link|]). exact Hc2.
Qed.

Lemma linked_lookup :
  ∀ (l : list Segment) (c : nat) (s t : Segment),
    linked l → l !! c = Some s → l !! S c = Some t →
    (isConditional t = true → side t ≠ side s)
    ∧ (type s = cross → type t = redirect ∧ witnessIndex t = witnessIndex s)
    ∧ (type s = redirect → type t = recross ∧ witnessIndex t = witnessIndex s).
Proof.
  induction l as [|x l IH]; intros [|c] s t Hl Hs Ht; try done.
  - injection Hs as ->. destruct Hl as [Hx _]. apply Hx.
    destruct l; [done|]. cbn in Ht |- *. done.
  - destruct Hl as [_ Hl]. exact (IH c s t Hl Hs Ht).
Qed.

(** Neighbours in any timeline of a configuration. *)
Lemma sameTimeline_linked (cfg : TrialConfig) (segs : list Segment) (k : Z)
    (s t : Segment) :
  sameTimeline cfg segs →
  segAt segs k = Some s → segAt segs (k + 1) = Some t →
  (isConditional t = true → side t ≠ side s)
  ∧ (type s = cross → type t = redirect ∧ witnessIndex t = witnessIndex s)
  ∧ (type s = redirect → type t = recross ∧ witnessIndex t = witnessIndex s).
Proof.
  intros Hshape Hs Ht.
  pose proof (sameTimeline_segAt cfg segs k Hshape) as H1.
  pose proof (sameTimeline_segAt cfg segs (k + 1) Hshape) as H2.
  rewrite Hs in H1. rewrite Ht in H2. cbn in H1, H2.
  apply segAt_Some in H1 as [Hk H1]. apply segAt_Some in H2 as [_ H2].
  replace (Z.to_nat (k + 1)) with (S (Z.to_nat k)) in H2 by lia.
  exact (linked_lookup _ _ (eraseElapsed s) (eraseElapsed t)
           (linked_generated cfg) H1 H2).
Qed.

(** *** What the navigation handlers do on a timeline *)

Lemma segAt_next (cfg : TrialConfig) (segs : list Segment) (k : Z)
    (s : Segment) :
  sameTimeline cfg segs → segAt segs k = Some s → type s ≠ end_ →
  ∃ t, segAt segs (k + 1) = Some t.
Proof.
  intros Hshape Hs Ht.
  pose proof (sameTimeline_not_last _ _ _ _ Hshape Hs Ht).
  pose proof (proj1 (segAt_Some _ _ _) Hs) as [Hk _].
  apply segAt_lt. lia.
Qed.

Lemma moveToNextSegment_by_type (st : AppState) (cs : Segment) :
  sameTimeline (trialConfig st) (trialSegments st) →
  currentSegment st = Some cs →
  type cs ≠ end_ →
  let q := setTrialSegments
             (alterAt (withActualElapsed (currentSegmentElapsed st))
                      (currentSegmentIndex st))
             (setIsRunning false st) in
  moveToNextSegment st
  = if decide (type cs = cross) then setShowRedirectPrompt true q
    else if decide (type cs = redirect) then setShowRecrossPrompt true q
    else setCurrentSegmentElapsed
           (elapsedAt (trialSegments st) (currentSegmentIndex st + 1))
           (setCurrentSegmentIndex (currentSegmentIndex st + 1) q).
Proof.
  intros Hshape Hcs Hne q.
  destruct (segAt_next _ _ _ _ Hshape Hcs Hne) as [t Ht].
  destruct (sameTimeline_linked _ _ _ _ _ Hshape Hcs Ht) as (Hside & Hc & Hr).
  pose proof (proj1 (segAt_Some _ _ _) Ht) as [Hlt _].
  unfold moveToNextSegment, saveCurrentSegmentTime, promptDue.
  rewrite Hcs, Ht. destruct (decide (type cs ≠ end_)); [|done]. fold q.
  destruct (decide (type cs = cross)) as [Hx|Hx].
  { destruct (Hc Hx) as [H1 H2].
    rewrite !bool_decide_eq_true_2 by assumption. reflexivity. }
  rewrite (bool_decide_eq_false_2 (type cs = cross)) by assumption.
  cbn [andb].
  destruct (decide (type cs = redirect)) as [Hy|Hy].
  { destruct (Hr Hy) as [H1 H2].
    rewrite !bool_decide_eq_true_2 by assumption. reflexivity. }
  rewrite (bool_decide_eq_false_2 (type cs = redirect)) by assumption.
  cbn [andb].
  destruct (fromIndex_cons _ _ _ Ht) as [rest ->]. cbn [skipForward mbind option_bind].
  assert (Hstop : isConditional t && Js.eqb (actualElapsed t) (Fin 0)
                  && (bool_decide (witnessIndex t = witnessIndex cs)
                      && bool_decide (side t = side cs)) = false).
  { destruct (isConditional t) eqn:Hcond; [|done].
    rewrite (bool_decide_eq_false_2 (side t = side cs)) by (by apply Hside).
    by rewrite !andb_false_r. }
  destruct (isConditional t && Js.eqb (actualElapsed t) (Fin 0)).
  - cbn [andb] in Hstop. cbn. rewrite Hstop.
    destruct (decide (currentSegmentIndex st + 1 < len (trialSegments st)));
      [done | lia].
  - destruct (decide (currentSegmentIndex st + 1 < len (trialSegments st)));
      [done | lia].
Qed.

Lemma moveToPreviousSegment_by_skip (st : AppState) (cs : Segment) :
  sameTimeline (trialConfig st) (trialSegments st) →
  currentSegment st = Some cs →
  0 < currentSegmentIndex st →
  let q := saveCurrentSegmentTime st (setIsRunning false st) in
  let p := currentSegmentIndex st - (if skippedBefore st cs then 2 else 1) in
  0 ≤ p
  ∧ moveToPreviousSegment st
    = setCurrentSegmentElapsed (elapsedAt (trialSegments st) p)
        (setCurrentSegmentIndex p q).
Proof.
  intros Hshape Hcs Hpos q p.
  pose proof (proj1 (segAt_Some _ _ _) Hcs) as [Hidx _].
  destruct (sameTimeline_first _ _ Hshape) as (s0 & Hs0 & Hc0).
  unfold moveToPreviousSegment. fold q.
  destruct (decide (currentSegmentIndex st > 0)); [|lia].
  destruct (Z.to_nat (currentSegmentIndex st)) as [|m] eqn:Hm; [lia|].
  assert (Hp1 : currentSegmentIndex st - 1 = Z.of_nat m) by lia.
  destruct (segAt_lt (trialSegments st) (currentSegmentIndex st - 1)
              ltac:(lia)) as [t1 Ht1].
  assert (Hl1 : trialSegments st !! m = Some t1).
  { apply segAt_Some in Ht1 as [_ Ht1]. rewrite Hp1, Nat2Z.id in Ht1. done. }
  subst p. unfold skippedBefore. rewrite Ht1, Hcs.
  cbn [skipBackward mbind option_bind]. rewrite Hl1.
  destruct (isConditional t1 && Js.eqb (actualElapsed t1) (Fin 0) &&
            (bool_decide (witnessIndex t1 = witnessIndex cs) &&
             bool_decide (side t1 = side cs))) eqn:Hskip.
  - apply andb_true_iff in Hskip as [Hskip Hsame].
    apply andb_true_iff in Hskip as [Hcond _].
    apply andb_true_iff in Hsame as [_ Hside].
    apply bool_decide_eq_true in Hside.
    destruct m as [|m'].
    { rewrite Hs0 in Hl1. injection Hl1 as ->. congruence. }
    destruct (segAt_lt (trialSegments st) (currentSegmentIndex st - 2)
                ltac:(lia)) as [t2 Ht2].
    assert (Hl2 : trialSegments st !! m' = Some t2).
    { apply segAt_Some in Ht2 as [_ Ht2].
      replace (Z.to_nat (currentSegmentIndex st - 2)) with m' in Ht2 by lia.
      done. }
    assert (Ht1' : segAt (trialSegments st) (currentSegmentIndex st - 2 + 1)
                   = Some t1).
    { rewrite <- Ht1. f_equal. lia. }
    destruct (sameTimeline_linked _ _ _ _ _ Hshape Ht2 Ht1') as (Hdiff & _ & _).
    specialize (Hdiff Hcond).
    cbn [skipBackward mbind option_bind]. rewrite Hl2.
    rewrite (bool_decide_eq_false_2 (side t2 = side cs)) by congruence.
    rewrite !andb_false_r.
    replace (Z.of_nat m') with (currentSegmentIndex st - 2) by lia.
    split; [lia | reflexivity].
  - replace (Z.of_nat m) with (currentSegmentIndex st - 1) by lia.
    split; [lia | reflexivity].
Qed.

(** X8. On a timeline, "Next" is decided by the type of the active
    segment alone: it stops the timer, stores the live counter in the
    active segment, and then on a cross it shows the redirect prompt, on
    a redirect the recross prompt, and on any other segment before the
    end marker it moves exactly one position forward.  The loop that
    skips untaken conditional segments never runs a round, whatever the
    recorded times are. *)
Theorem X8_next_is_decided_by_type (st : AppState) (cs : Segment) :
  sameTimeline (trialConfig st) (trialSegments st) →
  currentSegment st = Some cs →
  type cs ≠ end_ →
  let q := setTrialSegments
             (alterAt (withActualElapsed (currentSegmentElapsed st))
                      (currentSegmentIndex st))
             (setIsRunning false st) in
  moveToNextSegment st
  = if decide (type cs = cross) then setShowRedirectPrompt true q
    else if decide (type cs = redirect) then setShowRecrossPrompt true q
    else setCurrentSegmentElapsed
           (elapsedAt (trialSegments st) (currentSegmentIndex st + 1))
           (setCurrentSegmentIndex (currentSegmentIndex st + 1) q).
Proof. exact (moveToNextSegment_by_type st cs). Qed.

Lemma X8_next_is_decided_by_type_witness :
  let st := run (startedWith (configWith 1 1)) (take 13 jumpRunExample) in
  ∃ cs, currentSegment st = Some cs ∧ type cs = cross
        ∧ (let q := setTrialSegments
                      (alterAt (withActualElapsed (currentSegmentElapsed st))
                               (currentSegmentIndex st))
                      (setIsRunning false st) in
           moveToNextSegment st
           = if decide (type cs = cross) then setShowRedirectPrompt true q
             else if decide (type cs = redirect)
                  then setShowRecrossPrompt true q
                  else setCurrentSegmentElapsed
                         (elapsedAt (trialSegments st)
                                    (currentSegmentIndex st + 1))
                         (setCurrentSegmentIndex
                            (currentSegmentIndex st + 1) q)).
Proof.
  intros st. eexists. split; [vm_compute; reflexivity|].
  split; [reflexivity|].
  apply (X8_next_is_decided_by_type st).
  - vm_compute; reflexivity.
  - vm_compute; reflexivity.
  - vm_compute; discriminate.
Defined.

(** X9. On a timeline, "Previous" from a position after the first moves
    back by one position, or by two when the segment just before the
    active one is a conditional segment without recorded time that has
    the active segment's witness index and side; it never moves further
    and never leaves the timeline. *)
Theorem X9_previous_moves_one_or_two (st : AppState) (cs : Segment) :
  sameTimeline (trialConfig st) (trialSegments st) →
  currentSegment st = Some cs →
  0 < currentSegmentIndex st →
  let q := saveCurrentSegmentTime st (setIsRunning false st) in
  let p := currentSegmentIndex st - (if skippedBefore st cs then 2 else 1) in
  0 ≤ p
  ∧ moveToPreviousSegment st
    = setCurrentSegmentElapsed (elapsedAt (trialSegments st) p)
        (setCurrentSegmentIndex p q).
Proof. exact (moveToPreviousSegment_by_skip st cs). Qed.

Lemma X9_previous_moves_one_or_two_witness :
  let st := run (startedWith (configWith 1 1)) jumpRunExample in
  ∃ cs, currentSegment st = Some cs
        ∧ skippedBefore st cs = true
        ∧ (let q := saveCurrentSegmentTime st (setIsRunning false st) in
           let p := currentSegmentIndex st
                    - (if skippedBefore st cs then 2 else 1) in
           0 ≤ p
           ∧ moveToPreviousSegment st
             = setCurrentSegmentElapsed (elapsedAt (trialSegments st) p)
                 (setCurrentSegmentIndex p q)).
Proof.
  intros st. eexists. split; [vm_compute; reflexivity|].
  split; [vm_compute; reflexivity|].
  apply (X9_previous_moves_one_or_two st).
  - vm_compute; reflexivity.
  - vm_compute; reflexivity.
  - vm_compute; reflexivity.
Defined.

(** X10. Answering the redirect prompt on a cross of a timeline changes
    no segment: "Yes" lands on the redirect, the next position, and "No"
    lands three positions further, on a segment that is neither a
    redirect nor a recross; in both cases the prompt is closed, the
    timer is stopped and the recorded time of the new position is
    loaded. *)
Theorem X10_redirect_answer_changes_no_segment (st : AppState)
    (cs : Segment) (yes : bool) :
  sameTimeline (trialConfig st) (trialSegments st) →
  currentSegment st = Some cs →
  type cs = cross →
  let st' := handleRedirectDecisionPrompt yes st in
  st' = landOn st (currentSegmentIndex st + (if yes then 1 else 3))
          (setShowRedirectPrompt false st)
  ∧ trialSegments st' = trialSegments st
  ∧ ∃ t, currentSegment st' = Some t
         ∧ if yes then type t = redirect
           else type t ≠ redirect ∧ type t ≠ recross.
Proof.
  intros Hshape Hcs Ht st'.
  destruct (redirectDecision_outcome st cs yes Hshape Hcs Ht) as [Hlt Heq].
  subst st'. rewrite Heq. split; [reflexivity|]. split; [reflexivity|].
  unfold currentSegment, landOn. simpl_state. destruct yes.
  - assert (Hne : type cs ≠ end_) by (rewrite Ht; discriminate).
    destruct (segAt_next _ _ _ _ Hshape Hcs Hne) as [t Hnext].
    destruct (sameTimeline_linked _ _ _ _ _ Hshape Hcs Hnext) as (_ & Hc & _).
    exists t. split; [done|]. by apply Hc.
  - destruct (sameTimeline_after_cross _ _ _ _ Hshape Hcs Ht)
      as (t & Hat & Ht1 & Ht2).
    exists t. by repeat split.
Qed.

Lemma X10_redirect_answer_changes_no_segment_witness :
  let st := run (startedWith (configWith 1 1)) (take 14 jumpRunExample) in
  ∃ cs, currentSegment st = Some cs ∧ type cs = cross
        ∧ (let st' := handleRedirectDecisionPrompt false st in
           st' = landOn st (currentSegmentIndex st + 3)
                   (setShowRedirectPrompt false st)
           ∧ trialSegments st' = trialSegments st
           ∧ ∃ t, currentSegment st' = Some t
                  ∧ type t ≠ redirect ∧ type t ≠ recross).
Proof.
  intros st. eexists. split; [vm_compute; reflexivity|].
  split; [reflexivity|].
  eapply (X10_redirect_answer_changes_no_segment st _ false).
  - vm_compute; reflexivity.
  - vm_compute; reflexivity.
  - reflexivity.
Defined.

(** X11. Answering the recross prompt on a redirect of a timeline has
    the same effect for "No" as for "Yes": both land on the recross, the
    next position, and change no segment. *)
Theorem X11_recross_answers_coincide (st : AppState) (cs : Segment) :
  sameTimeline (trialConfig st) (trialSegments st) →
  currentSegment st = Some cs →
  type cs = redirect →
  handleRecrossDecisionPrompt false st = handleRecrossDecisionPrompt true st
  ∧ trialSegments (handleRecrossDecisionPrompt false st) = trialSegments st
  ∧ ∃ t, currentSegment (handleRecrossDecisionPrompt false st) = Some t
         ∧ type t = recross.
Proof.
  intros Hshape Hcs Ht.
  destruct (recrossDecision_outcome st cs false Hshape Hcs Ht) as [Hlt Hno].
  destruct (recrossDecision_outcome st cs true Hshape Hcs Ht) as [_ Hyes].
  rewrite Hno, Hyes. split; [reflexivity|]. split; [reflexivity|].
  unfold currentSegment, landOn. simpl_state.
  assert (Hne : type cs ≠ end_) by (rewrite Ht; discriminate).
  destruct (segAt_next _ _ _ _ Hshape Hcs Hne) as [t Hnext].
  destruct (sameTimeline_linked _ _ _ _ _ Hshape Hcs Hnext) as (_ & _ & Hr).
  exists t. split; [done|]. by apply Hr.
Qed.

Lemma X11_recross_answers_coincide_witness :
  let st := run (startedWith (configWith 1 1))
              [Next; Next; Next; Next; RedirectDecision true; Next] in
  ∃ cs, currentSegment st = Some cs ∧ type cs = redirect
        ∧ handleRecrossDecisionPrompt false st
          = handleRecrossDecisionPrompt true st
        ∧ trialSegments (handleRecrossDecisionPrompt false st)
          = trialSegments st
        ∧ ∃ t, currentSegment (handleRecrossDecisionPrompt false st) = Some t
               ∧ type t = recross.
Proof.
  intros st. eexists. split; [vm_compute; reflexivity|].
  split; [reflexivity|].
  eapply (X11_recross_answers_coincide st).
  - vm_compute; reflexivity.
  - vm_compute; reflexivity.
  - reflexivity.
Defined.

(** X12. A jump from the summary goes by identifier.  For an identifier
    that no segment of the timeline carries the only effect is that the
    timer is stopped; for the identifier [k] of a segment the live
    counter is first stored in the active segment, the cursor moves to
    position [k], and the live counter is loaded with the recorded time
    that segment [k] had when the handler was rendered. *)
Theorem X12_jump_by_identifier (st : AppState) (k : Z) :
  sameTimeline (trialConfig st) (trialSegments st) →
  match segAt (trialSegments st) k with
  | Some s =>
      goToSegmentFromSummary k st
      = setCurrentSegmentElapsed (actualElapsed s)
          (setCurrentSegmentIndex k
             (saveCurrentSegmentTime st (setIsRunning false st)))
  | None => goToSegmentFromSummary k st = setIsRunning false st
  end.
Proof.
  intros Hshape. destruct (segAt (trialSegments st) k) as [s|] eqn:Hs.
  - rewrite <- (sameTimeline_id_at _ _ _ _ Hshape Hs) at 1.
    by apply goTo_outcome.
  - unfold goToSegmentFromSummary. cbv zeta.
    rewrite (sameTimeline_findIndex_unknown _ _ k Hshape); [done|].
    intros Hk. destruct (segAt_lt _ _ Hk) as [s Hs']. congruence.
Qed.

Lemma X12_jump_by_identifier_witness :
  let st := run (startedWith (configWith 1 1)) (take 7 jumpRunExample) in
  goToSegmentFromSummary 99 st = setIsRunning false st.
Proof.
  intros st.
  apply (X12_jump_by_identifier st 99).
  vm_compute; reflexivity.
Defined.

(** *** After a navigation the live counter shows the recorded time *)





(** *** The remaining time shown for the active segment *)

(** The three classes of segments in a timeline of a sane
    configuration: examinations, of unbounded duration, which draw on a
    budget; the rebuttal, of unbounded duration; and the openings, the
    closings and the end marker, whose duration is a non-negative
    integer. *)
Lemma sameTimeline_classes (cfg : TrialConfig) (segs : list Segment) :
  configSane cfg → sameTimeline cfg segs →
  Forall (fun s =>
            (duration s = PInf ∧ type s ∈ [direct; cross; redirect; recross]
             ∧ ∃ k, doesSegmentContributeToBudget s (Some k) = true)
            ∨ (duration s = PInf ∧ type s = rebuttal)
            ∨ (∃ d, duration s = Fin d ∧ 0 ≤ d
                    ∧ type s ∈ [opening; closing; end_])) segs.
Proof.
  intros (H1 & H2 & _ & _ & _ & _ & H7 & H8 & _) Hshape.
  destruct H1 as (d1 & E1 & G1), H2 as (d2 & E2 & G2),
           H7 as (d7 & E7 & G7), H8 as (d8 & E8 & G8).
  apply (sameTimeline_Forall
           (fun s =>
              (duration s = PInf ∧ type s ∈ [direct; cross; redirect; recross]
               ∧ ∃ k, doesSegmentContributeToBudget s (Some k) = true)
              ∨ (duration s = PInf ∧ type s = rebuttal)
              ∨ (∃ d, duration s = Fin d ∧ 0 ≤ d
                      ∧ type s ∈ [opening; closing; end_]))
           cfg segs Hshape).
  apply Forall_generated.
  - unfold openingSegments. rewrite E1, E2.
    repeat apply Forall_cons_2; try apply Forall_nil_2;
      right; right; eexists; (split; [reflexivity|]); (split; [done|]);
      cbn; repeat constructor.
  - intros i n. unfold plaintiffWitnessSegments. cbn.
    repeat apply Forall_cons_2; try apply Forall_nil_2;
      left; (split; [reflexivity|]); cbn; split.
    + repeat constructor.
    + by exists Key.pOverallDirectDuration.
    + repeat constructor.
    + by exists Key.dOverallCrossDuration.
    + repeat constructor.
    + by exists Key.pOverallDirectDuration.
    + repeat constructor.
    + by exists Key.dOverallCrossDuration.
  - intros i n. unfold defenseWitnessSegments. cbn.
    repeat apply Forall_cons_2; try apply Forall_nil_2;
      left; (split; [reflexivity|]); cbn; split.
    + repeat constructor.
    + by exists Key.dOverallDirectDuration.
    + repeat constructor.
    + by exists Key.pOverallCrossDuration.
    + repeat constructor.
    + by exists Key.dOverallDirectDuration.
    + repeat constructor.
    + by exists Key.pOverallCrossDuration.
  - intros n. unfold closingSegments. rewrite E7, E8.
    repeat apply Forall_cons_2; try apply Forall_nil_2.
    + right; right. eexists. split; [reflexivity|]. split; [done|].
      cbn. repeat constructor.
    + right; right. eexists. split; [reflexivity|]. split; [done|].
      cbn. repeat constructor.
    + right; left. by split.
    + right; right. exists 0. split; [reflexivity|]. split; [done|].
      cbn. repeat constructor.
Qed.

Lemma classes_at (st : AppState) (s : Segment) :
  EditSafe st → s ∈ trialSegments st →
  (duration s = PInf ∧ type s ∈ [direct; cross; redirect; recross]
   ∧ ∃ k, doesSegmentContributeToBudget s (Some k) = true)
  ∨ (duration s = PInf ∧ type s = rebuttal)
  ∨ (∃ d, duration s = Fin d ∧ 0 ≤ d ∧ type s ∈ [opening; closing; end_]).
Proof.
  intros [Hcfg Hshape _ _] Hin.
  pose proof (sameTimeline_classes _ _ Hcfg Hshape) as H.
  rewrite Forall_forall in H. by apply H.
Qed.

(** The recorded time of a segment other than the rebuttal is a
    non-negative integer. *)
Lemma recordedOk_finite (s : Segment) :
  recordedOk s → type s ≠ rebuttal → nonNegativeInteger (actualElapsed s).
Proof.
  unfold recordedOk. destruct (actualElapsed s) as [z| | |]; try done.
  intros Hz _. by exists z.
Qed.

Lemma safe_budgetTimesFinite (st : AppState) (key : option Key.t) :
  EditSafe st → budgetTimesFinite key (trialSegments st).
Proof.
  intros [_ _ Hrec _]. unfold budgetTimesFinite.
  eapply Forall_impl; [exact Hrec|]. intros s Hok Hc.
  apply contributes_exam in Hc.
  destruct (recordedOk_finite s Hok) as (z & Hz & _); [|by exists z].
  intros Ht. rewrite Ht in Hc. elem_cases Hc; discriminate.
Qed.

Lemma safe_usedBefore (st : AppState) (key : option Key.t) :
  EditSafe st →
  ∃ u, usedBeforeCurrent key st = Fin u ∧ 0 ≤ u
       ∧ u = usedAmong key (take (Z.to_nat (currentSegmentIndex st))
                              (trialSegments st)).
Proof.
  intros Hsafe. eexists. split; [|split; [|reflexivity]].
  - apply usedBeforeCurrent_usedAmong. by apply safe_budgetTimesFinite.
  - apply usedAmong_nonneg.
Qed.

Lemma safe_rebuttalBudget (st : AppState) :
  EditSafe st → nonNegativeInteger (rebuttalBudget st).
Proof.
  intros [(_ & _ & _ & _ & _ & _ & (p & Hp & _) & _ & (c & Hc & _)) _ Hrec _].
  unfold rebuttalBudget. cbv zeta. rewrite Hp, Hc.
  destruct (find _ _) as [s|] eqn:Hfind.
  - apply find_some in Hfind as [Hin Hs].
    apply andb_true_iff in Hs as [Ht _]. apply bool_decide_eq_true in Ht.
    rewrite Forall_forall in Hrec.
    destruct (recordedOk_finite s) as (z & Hz & _).
    { apply Hrec. by apply list_elem_of_In. }
    { rewrite Ht. discriminate. }
    rewrite Hz, Js_sub_Fin, Js_min_Fin, Js_max_Fin.
    eexists. split; [reflexivity | lia].
  - rewrite Js_sub_Fin, Js_min_Fin, Js_max_Fin.
    eexists. split; [reflexivity | lia].
Qed.

Lemma clipRemaining_Fin (x : Z) :
  clipRemaining (Fin x) = (Fin (Z.max 0 x), Fin (Z.max 0 (- x))).
Proof.
  unfold clipRemaining. cbn [Js.ltb Js.neg].
  destruct (Z.ltb_spec x 0); repeat f_equal; lia.
Qed.

Lemma Js_add_zero (x : jsnum) : (Fin 0 + x)%js = x.
Proof. by destruct x. Qed.

Lemma budgetOf_contributes (cs : Segment) (st : AppState) (k : Key.t) :
  doesSegmentContributeToBudget cs (Some k) = true →
  budgetOf cs st
  = (configBudget (trialConfig st) (Some k), usedBeforeCurrent (Some k) st,
     Some k).
Proof.
  intros Hk. unfold budgetOf. cbv zeta.
  destruct (doesSegmentContributeToBudget cs (Some Key.pOverallDirectDuration))
    eqn:H1; [by rewrite (contributes_unique _ _ _ Hk H1)|].
  destruct (doesSegmentContributeToBudget cs (Some Key.dOverallCrossDuration))
    eqn:H2; [by rewrite (contributes_unique _ _ _ Hk H2)|].
  destruct (doesSegmentContributeToBudget cs (Some Key.dOverallDirectDuration))
    eqn:H3; [by rewrite (contributes_unique _ _ _ Hk H3)|].
  destruct (doesSegmentContributeToBudget cs (Some Key.pOverallCrossDuration))
    eqn:H4; [by rewrite (contributes_unique _ _ _ Hk H4)|].
  destruct k; congruence.
Qed.

(** What [displayRemainingTime] returns for the active segment [cs] of
    a state on which the editor works. *)
Lemma display_safe (st : AppState) (cs : Segment) :
  EditSafe st → currentSegment st = Some cs →
  let d := displayRemainingTime st in
  ∃ T u,
    0 ≤ T ∧ 0 ≤ u
    ∧ totalBudget d = Fin T
    ∧ usedBeforeCurrentSegment d = Fin u
    ∧ clipRemaining (Fin T - (Fin u + currentSegmentElapsed st))%js
      = (value d, overtime d)
    ∧ ((dtype d = TypeFixed ∧ budgetKey d = None ∧ u = 0
        ∧ (type cs ∉ [direct; cross; redirect; recross])
        ∧ (type cs ≠ rebuttal → duration cs = Fin T)
        ∧ (type cs = rebuttal → duration cs = PInf))
       ∨ (dtype d = TypeBudget ∧ duration cs = PInf ∧ type cs ≠ rebuttal
          ∧ type cs ∈ [direct; cross; redirect; recross]
          ∧ ∃ k, budgetKey d = Some k
                 ∧ doesSegmentContributeToBudget cs (Some k) = true
                 ∧ configBudget (trialConfig st) (Some k) = Fin T
                 ∧ usedBeforeCurrent (Some k) st = Fin u)).
Proof.
  intros Hsafe Hcs d. subst d.
  pose proof (classes_at st cs Hsafe (segAt_elem_of _ _ _ Hcs)) as Hclass.
  unfold displayRemainingTime. rewrite Hcs.
  destruct Hclass as [(Hd & Ht & k & Hk)|[(Hd & Ht)|(x & Hd & Hx & Ht)]].
  - rewrite Hd. cbn [Js.eqb negb].
    destruct (decide (type cs = rebuttal)) as [Hr|Hr].
    { rewrite Hr in Ht. elem_cases Ht; discriminate. }
    rewrite (budgetOf_contributes cs st k Hk).
    destruct (safe_usedBefore st (Some k) Hsafe) as (u & Hu & Hu0 & _).
    assert (HT : nonNegativeInteger (configBudget (trialConfig st) (Some k))).
    { destruct Hsafe as [(_ & _ & H3 & H4 & H5 & H6 & _) _ _ _].
      by destruct k. }
    destruct HT as (T & HT & HT0). rewrite HT, Hu.
    exists T, u. destruct (clipRemaining _) as [v o]. cbn.
    repeat split; try done. right. repeat split; try done.
    exists k. by repeat split.
  - rewrite Hd. cbn [Js.eqb negb].
    destruct (decide (type cs = rebuttal)); [|done].
    destruct (safe_rebuttalBudget st Hsafe) as (T & HT & HT0). rewrite HT.
    exists T, 0. rewrite Js_add_zero.
    destruct (clipRemaining _) as [v o]. cbn.
    repeat split; try done. left. repeat split; try done.
    rewrite Ht. intros H. elem_cases H; discriminate.
  - rewrite Hd. cbn [Js.eqb negb].
    exists x, 0. rewrite Js_add_zero.
    destruct (clipRemaining _) as [v o]. cbn.
    repeat split; try done. left. repeat split; try done.
    + intros H. destruct (type cs); elem_cases H; elem_cases Ht; discriminate.
    + intros Hr. rewrite Hr in Ht. elem_cases Ht; discriminate.
Qed.

(** X14. In a state with a sane configuration, a timeline, recorded
    times that are non-negative integers (or [Infinity] on the rebuttal)
    and an integer live counter [e], the display of the active segment
    consists of integers: with [T] the allotment (the segment's duration,
    the budget's total, or the rebuttal's dynamic cap) and [u] the time
    used before the active segment (0 outside examinations), the
    remaining time is [max (0, T - (u + e))] and the overtime is
    [max (0, (u + e) - T)], so neither is negative and at most one is
    positive.  The display is of the budget kind exactly on
    examinations. *)
Theorem X14_remaining_and_overtime (st : AppState) (cs : Segment) (e : Z) :
  EditSafe st →
  currentSegment st = Some cs →
  currentSegmentElapsed st = Fin e →
  let d := displayRemainingTime st in
  ∃ T u,
    0 ≤ T ∧ 0 ≤ u
    ∧ totalBudget d = Fin T
    ∧ usedBeforeCurrentSegment d = Fin u
    ∧ value d = Fin (Z.max 0 (T - (u + e)))
    ∧ overtime d = Fin (Z.max 0 ((u + e) - T))
    ∧ (dtype d = TypeBudget ↔ type cs ∈ [direct; cross; redirect; recross])
    ∧ (dtype d = TypeFixed ↔ type cs ∉ [direct; cross; redirect; recross])
    ∧ (dtype d = TypeFixed → u = 0 ∧ budgetKey d = None).
Proof.
  intros Hsafe Hcs He d.
  destruct (display_safe st cs Hsafe Hcs) as (T & u & HT & Hu & E1 & E2 & Hv & Hk).
  fold d in E1, E2, Hv, Hk. exists T, u.
  rewrite He, Js_add_Fin, Js_sub_Fin, clipRemaining_Fin in Hv.
  injection Hv as Hv Ho.
  do 4 (split; [done|]). split; [done|].
  split; [rewrite <- Ho; f_equal; lia|].
  repeat split.
  - intros Hb. destruct Hk as [(Hf & _)|(_ & _ & _ & Ht & _)]; [congruence|done].
  - intros Ht. destruct Hk as [(_ & _ & _ & Hn & _)|(Hb & _)]; [done|done].
  - intros Hf. destruct Hk as [(_ & _ & _ & Hn & _)|(Hb & _)]; [done|congruence].
  - intros Hn. destruct Hk as [(Hf & _)|(_ & _ & _ & Ht & _)]; [done|done].
  - destruct Hk as [(_ & _ & Hz & _)|(Hb & _)]; [done|congruence].
  - destruct Hk as [(_ & Hz & _)|(Hb & _)]; [done|congruence].
Qed.

(** Discharges [EditSafe] on a state given by a concrete run. *)
Ltac evaluate_in_goal t :=
  let v := eval vm_compute in t in
  replace t with v by (vm_compute; reflexivity).

Ltac concrete_safe :=
  constructor;
  [ match goal with |- configSane ?c => evaluate_in_goal c end;
    repeat split; (eexists; split; [reflexivity | lia])
  | vm_compute; reflexivity
  | match goal with |- Forall _ ?l => evaluate_in_goal l end;
    repeat (apply Forall_cons_2; [first [cbn; lia | reflexivity]|]);
    apply Forall_nil_2
  | match goal with |- nonNegative ?x => evaluate_in_goal x end;
    first [cbn; lia | exact I] ].

Lemma X14_remaining_and_overtime_witness :
  EditSafe redirectRunning
  ∧ ∃ cs, currentSegment redirectRunning = Some cs
    ∧ (let d := displayRemainingTime redirectRunning in
       ∃ T u,
         0 ≤ T ∧ 0 ≤ u
         ∧ totalBudget d = Fin T
         ∧ usedBeforeCurrentSegment d = Fin u
         ∧ value d = Fin (Z.max 0 (T - (u + 3)))
         ∧ overtime d = Fin (Z.max 0 ((u + 3) - T))
         ∧ (dtype d = TypeBudget
            ↔ type cs ∈ [direct; cross; redirect; recross])
         ∧ (dtype d = TypeFixed
            ↔ type cs ∉ [direct; cross; redirect; recross])
         ∧ (dtype d = TypeFixed → u = 0 ∧ budgetKey d = None)).
Proof.
  split; [concrete_safe|].
  eexists. split; [vm_compute; reflexivity|].
  eapply (X14_remaining_and_overtime redirectRunning _ 3).
  - concrete_safe.
  - vm_compute; reflexivity.
  - vm_compute; reflexivity.
Defined.

(** *** The time editor *)

Lemma floorDiv_rem (n : Z) :
  0 ≤ n →
  Js.floorDiv (Fin n) 60 = Fin (n / 60) ∧ Js.rem (Fin n) 60 = Fin (n mod 60)
  ∧ 0 ≤ n / 60 ∧ 0 ≤ n mod 60 ≤ 59 ∧ n / 60 * 60 + n mod 60 = n.
Proof.
  intros Hn. cbn [Js.floorDiv Js.rem].
  rewrite Z.rem_mod_nonneg by lia.
  pose proof (Z.mod_pos_bound n 60 ltac:(lia)).
  pose proof (Z.div_mod n 60 ltac:(lia)).
  pose proof (Z.div_pos n 60 Hn ltac:(lia)).
  repeat split; lia.
Qed.

(** Whatever the user does with the two fields, the dialog holds two
    non-negative integers when "Save Changes" is pressed, provided the
    time shown at the opening is a non-negative integer or both fields
    are typed. *)
Lemma editWith_entered (context : EditContext) (minutes seconds : FieldInput)
    (st : AppState) :
  (minutes = Untouched ∨ seconds = Untouched →
   nonNegativeInteger (initialTimeInSeconds context st)) →
  ∃ m s,
    0 ≤ m ∧ 0 ≤ s
    ∧ editWith context minutes seconds st
      = handleEditTimeSave
          (enterTime (Fin m) (Fin s) (openEditModal context st))
    ∧ (minutes = Untouched → seconds = Untouched →
       initialTimeInSeconds context st = Fin (m * 60 + s))
    ∧ (∀ a b, minutes = Typed a → seconds = Typed b →
              Js.parseInt a = NaN → Js.parseInt b = NaN → m = 0 ∧ s = 0).
Proof.
  intros Hinit. unfold editWith.
  destruct minutes as [|a], seconds as [|b]; cbn [fillMinutes fillSeconds].
  - destruct Hinit as (n & Hn & Hn0); [by left|].
    destruct (floorDiv_rem n Hn0) as (Hd & Hr & ? & ? & ?).
    exists (n / 60), (n mod 60). repeat split; try done; try lia.
    + unfold openEditModal, enterTime. rewrite Hn, Hd, Hr. reflexivity.
    + intros _ _. rewrite Hn. f_equal. lia.
  - destruct Hinit as (n & Hn & Hn0); [by left|].
    destruct (floorDiv_rem n Hn0) as (Hd & Hr & ? & ? & ?).
    destruct (coerced_seconds b) as [(s & Hs & Hs0) _].
    exists (n / 60), s. repeat split; try done; try lia.
    unfold openEditModal, enterTime, changeEditTimeSeconds.
    rewrite Hn, Hd, Hs. reflexivity.
  - destruct Hinit as (n & Hn & Hn0); [by right|].
    destruct (floorDiv_rem n Hn0) as (Hd & Hr & ? & ? & ?).
    destruct (coerced_minutes a) as [(m & Hm & Hm0) _].
    exists m, (n mod 60). repeat split; try done; try lia.
    unfold openEditModal, enterTime, changeEditTimeMinutes.
    rewrite Hn, Hr, Hm. reflexivity.
  - destruct (coerced_minutes a) as [(m & Hm & Hm0) Hma].
    destruct (coerced_seconds b) as [(s & Hs & Hs0) Hsb].
    exists m, s. repeat split; try done.
    + unfold openEditModal, enterTime, changeEditTimeMinutes,
        changeEditTimeSeconds.
      rewrite Hm, Hs. reflexivity.
    + injection H as <-. injection H0 as <-.
      rewrite Hma in Hm by assumption. congruence.
    + injection H as <-. injection H0 as <-.
      rewrite Hsb in Hs by assumption. congruence.
Qed.




(** **** The edit of the remaining time of a fixed phase *)



Lemma editFixedContext_inv (st : AppState) (context : EditContext) :
  editFixedContext st = Some context →
  ∃ cs, currentSegment st = Some cs ∧ type cs ≠ end_
        ∧ dtype (displayRemainingTime st) = TypeFixed
        ∧ context
          = CtxFixedRemaining cs (totalBudget (displayRemainingTime st)).
Proof.
  unfold editFixedContext. cbv zeta.
  destruct (currentSegment st) as [cs|]; [|done].
  destruct (decide _) as [[Hd Ht]|]; [|done].
  intros [= <-]. by exists cs.
Qed.


Lemma safe_initial_remaining (st : AppState) (context : EditContext) :
  EditSafe st →
  editBudgetContext st = Some context ∨ editFixedContext st = Some context →
  nonNegativeInteger (initialTimeInSeconds context st).
Proof.
  intros Hsafe Hctx.
  assert (H : ∃ cs, currentSegment st = Some cs
                    ∧ initialTimeInSeconds context st
                      = value (displayRemainingTime st)).
  { destruct Hctx as [Hctx|Hctx].
    - unfold editBudgetContext in Hctx. cbv zeta in Hctx.
      destruct (currentSegment st) as [cs|]; [|done].
      destruct (decide _); [|done]. injection Hctx as <-. by exists cs.
    - destruct (editFixedContext_inv _ _ Hctx) as (cs & Hcs & _ & _ & ->).
      by exists cs. }
  destruct H as (cs & Hcs & ->).
  destruct (display_safe st cs Hsafe Hcs) as (T & u & _ & _ & _ & _ & Hv & _).
  destruct Hsafe as [_ _ _ Hlive].
  destruct (currentSegmentElapsed st) as [e| | |] eqn:He; try done.
  - rewrite Js_add_Fin, Js_sub_Fin, clipRemaining_Fin in Hv.
    injection Hv as <- _. eexists. split; [reflexivity | lia].
  - cbn in Hv. injection Hv as <- _. by exists 0.
Qed.



(** **** No edit leaves a negative or undefined time *)





(** X18. Saving the dialog of a budget's remaining time without typing
    anything, in a state on which the editor works, with an integer
    live counter [e], a budget of total [T] and a usage [u] before the
    active segment that does not exceed [T]: no recorded time changes
    and the live counter becomes [min (e, T - u)], that is, it is left
    alone unless the budget is overdrawn, and then it is cut back to
    what the budget had left for the active segment. *)
Theorem X18_untouched_budget_save (st : AppState) (k : Key.t)
    (used total : jsnum) (T u e : Z) :
  EditSafe st →
  editBudgetContext st = Some (CtxBudget (Some k) used total) →
  currentSegmentElapsed st = Fin e →
  configBudget (trialConfig st) (Some k) = Fin T →
  used = Fin u →
  u ≤ T →
  let st' := editWith (CtxBudget (Some k) used total) Untouched Untouched st in
  trialSegments st' = trialSegments st
  ∧ currentSegmentElapsed st' = Fin (Z.min e (T - u))
  ∧ isRunning st' = false.
Proof.
  intros Hsafe Hctx He HT Hused HuT st'. subst st'.
  pose proof (safe_initial_remaining st _ Hsafe (or_introl Hctx)) as Hinit.
  destruct (editWith_entered _ Untouched Untouched st (fun _ => Hinit))
    as (m & s & Hm & Hs & -> & Hunt & _).
  specialize (Hunt eq_refl eq_refl). cbn [initialTimeInSeconds] in Hunt.
  destruct (editBudgetContext_inv _ _ _ _ Hctx)
    as (cs & Hcs & _ & _ & _ & Hb).
  apply budgetOf_key in Hb as (_ & Hub & Hk).
  destruct (display_safe st cs Hsafe Hcs)
    as (T' & u' & _ & _ & _ & _ & Hv &
        [(Hf & _)|(_ & _ & _ & _ & k' & _ & Hk' & HT' & Hu')]).
  { unfold editBudgetContext in Hctx. cbv zeta in Hctx. rewrite Hcs in Hctx.
    destruct (decide _) as [[Hd _]|]; [congruence|done]. }
  assert (k' = k) by (by eapply contributes_unique). subst k'.
  assert (T' = T) by congruence.
  assert (u' = u) by congruence. subst T' u'.
  rewrite He, Js_add_Fin, Js_sub_Fin, clipRemaining_Fin in Hv.
  injection Hv as Hv _. rewrite <- Hv in Hunt. injection Hunt as Ht.
  destruct Hsafe as [_ _ _ Hlive]. rewrite He in Hlive. cbn in Hlive.
  erewrite handleEditTimeSave_budget; [|reflexivity..].
  simpl_state. rewrite HT, Hused, !Js_sub_Fin. cbn [Js.ltb].
  destruct (Z.ltb_spec (T - (m * 60 + s) - u) 0) as [Hneg|Hpos]; [lia|].
  rewrite Js_min_Fin. simpl_state. repeat split. f_equal. lia.
Qed.

Lemma X18_untouched_budget_save_witness :
  let st := redirectRunning in
  let st' := editWith (CtxBudget (Some Key.pOverallDirectDuration)
                         (Fin 100) (Fin 1500)) Untouched Untouched st in
  EditSafe st
  ∧ trialSegments st' = trialSegments st
  ∧ currentSegmentElapsed st' = Fin (Z.min 3 (1500 - 100))
  ∧ isRunning st' = false.
Proof.
  intros st st'. split; [concrete_safe|].
  apply (X18_untouched_budget_save st Key.pOverallDirectDuration
           (Fin 100) (Fin 1500) 1500 100 3).
  - concrete_safe.
  - vm_compute; reflexivity.
  - vm_compute; reflexivity.
  - vm_compute; reflexivity.
  - reflexivity.
  - lia.
Defined.

(** *** The totals of the summary *)

Lemma sumOver_ext (f g : Segment → Z) (l : list Segment) :
  Forall (fun s => f s = g s) l → sumOver f l = sumOver g l.
Proof.
  unfold sumOver. induction 1 as [|s l Hs _ IH]; [reflexivity|].
  cbn [foldr]. by rewrite Hs, IH.
Qed.

Lemma sumOver_add (f g : Segment → Z) (l : list Segment) :
  sumOver (fun s => f s + g s) l = sumOver f l + sumOver g l.
Proof.
  unfold sumOver. induction l as [|s l IH]; [reflexivity|].
  cbn [foldr]. rewrite IH. lia.
Qed.

Lemma sumOver_app (f : Segment → Z) (l k : list Segment) :
  sumOver f (l ++ k) = sumOver f l + sumOver f k.
Proof.
  unfold sumOver. induction l as [|s l IH]; [reflexivity|].
  cbn [foldr app]. rewrite IH. lia.
Qed.

Lemma sumOver_zero (f : Segment → Z) (l : list Segment) :
  Forall (fun s => f s = 0) l → sumOver f l = 0.
Proof.
  unfold sumOver. induction 1 as [|s l Hs _ IH]; [reflexivity|].
  cbn [foldr]. rewrite Hs, IH. reflexivity.
Qed.

(** A loop that adds the recorded time of the segments with recorded
    time that pass the test [P] computes the sum of their weights. *)
Lemma counting_step (P : Segment → bool) (s : Segment) (acc : Z) :
  nonNegativeInteger (actualElapsed s) →
  (if Js.gtb (actualElapsed s) (Fin 0) && P s
   then (Fin acc + actualElapsed s)%js else Fin acc)
  = Fin (acc + weight P s).
Proof.
  intros (z & Hz & Hz0). unfold weight, recordedZ. rewrite Hz.
  cbn [Js.gtb Js.ltb Js.add].
  destruct (Z.ltb_spec 0 z), (P s); cbn [andb]; f_equal; lia.
Qed.

Lemma usedLoop_sum (key : Key.t) (l : list Segment) :
  Forall (fun s => nonNegativeInteger (actualElapsed s)) l →
  ∀ acc, usedLoop (Some key) l (Fin acc)
         = Fin (acc + sumOver (weight (drawsOn key)) l).
Proof.
  induction 1 as [|s l Hs _ IH]; intros acc; cbn [usedLoop sumOver foldr].
  - f_equal. lia.
  - change (doesSegmentContributeToBudget s (Some key)) with (drawsOn key s).
    rewrite (counting_step (drawsOn key) s acc Hs), IH.
    f_equal. unfold sumOver. lia.
Qed.

Lemma fixedUsedLoop_sum (t : SegType) (sd : Side) (l : list Segment) :
  Forall (fun s => nonNegativeInteger (actualElapsed s)) l →
  ∀ acc, fixedUsedLoop t sd l (Fin acc)
         = Fin (acc + sumOver (weight (isFixedPhase t sd)) l).
Proof.
  induction 1 as [|s l Hs _ IH]; intros acc; cbn [fixedUsedLoop sumOver foldr].
  - f_equal. lia.
  - change (bool_decide (type s = t) && bool_decide (side s = Some sd))
      with (isFixedPhase t sd s).
    rewrite (counting_step (isFixedPhase t sd) s acc Hs), IH.
    f_equal. unfold sumOver. lia.
Qed.

Lemma sideTotal_sum (sd : Side) (ownTypes : list SegType)
    (witnessLabel : string) (l : list Segment) :
  Forall (fun s => nonNegativeInteger (actualElapsed s)) l →
  ∀ acc,
    foldl (fun sum segment =>
             if Js.gtb (actualElapsed segment) (Fin 0) then
               if countsForSide sd ownTypes witnessLabel segment
               then (sum + actualElapsed segment)%js
               else sum
             else sum) (Fin acc) l
    = Fin (acc + sumOver (weight (countsForSide sd ownTypes witnessLabel)) l).
Proof.
  induction 1 as [|s l Hs _ IH]; intros acc; cbn [foldl sumOver foldr].
  - f_equal. lia.
  - pose proof (counting_step (countsForSide sd ownTypes witnessLabel) s acc Hs)
      as Hstep.
    destruct (Js.gtb (actualElapsed s) (Fin 0));
      cbn [andb] in Hstep; rewrite Hstep, IH; f_equal; unfold sumOver; lia.
Qed.

(** Evaluates the tests of the conditionals of the goal, which are
    applied to a segment of the generator. *)
Ltac decide_tests :=
  repeat match goal with
         | |- context [if ?b then _ else _] =>
             first [ replace b with true by reflexivity
                   | replace b with false by reflexivity ]
         end.

(** How the tests of the summary divide the segments of a timeline:
    every segment but the end marker counts for exactly one side, and
    what counts for a side falls under exactly one of its
    accumulators. *)
Lemma sameTimeline_division (cfg : TrialConfig) (segs : list Segment) :
  sameTimeline cfg segs →
  Forall (fun s => ∀ r : Z,
            (if forPlaintiff s then r else 0) + (if forDefense s then r else 0)
            + (if isEndMarker s then r else 0) = r
            ∧ (if forPlaintiff s then r else 0)
              = (if isFixedPhase opening plaintiff s then r else 0)
                + (if drawsOn Key.pOverallDirectDuration s then r else 0)
                + (if drawsOn Key.pOverallCrossDuration s then r else 0)
                + (if isFixedPhase closing plaintiff s then r else 0)
                + (if isFixedPhase rebuttal plaintiff s then r else 0)
            ∧ (if forDefense s then r else 0)
              = (if isFixedPhase opening defense s then r else 0)
                + (if drawsOn Key.dOverallDirectDuration s then r else 0)
                + (if drawsOn Key.dOverallCrossDuration s then r else 0)
                + (if isFixedPhase closing defense s then r else 0)) segs.
Proof.
  intros Hshape.
  apply (sameTimeline_Forall
           (fun s => ∀ r : Z,
              (if forPlaintiff s then r else 0) + (if forDefense s then r else 0)
              + (if isEndMarker s then r else 0) = r
              ∧ (if forPlaintiff s then r else 0)
                = (if isFixedPhase opening plaintiff s then r else 0)
                  + (if drawsOn Key.pOverallDirectDuration s then r else 0)
                  + (if drawsOn Key.pOverallCrossDuration s then r else 0)
                  + (if isFixedPhase closing plaintiff s then r else 0)
                  + (if isFixedPhase rebuttal plaintiff s then r else 0)
              ∧ (if forDefense s then r else 0)
                = (if isFixedPhase opening defense s then r else 0)
                  + (if drawsOn Key.dOverallDirectDuration s then r else 0)
                  + (if drawsOn Key.dOverallCrossDuration s then r else 0)
                  + (if isFixedPhase closing defense s then r else 0))
           cfg segs Hshape).
  apply Forall_generated; intros;
    repeat apply Forall_cons_2; try apply Forall_nil_2;
    intros r; decide_tests; lia.
Qed.

Lemma derivedTotalPlaintiffElapsed_sum (st : AppState) :
  Forall (fun s => nonNegativeInteger (actualElapsed s)) (trialSegments st) →
  derivedTotalPlaintiffElapsed st
  = Fin (sumOver (weight forPlaintiff) (trialSegments st)).
Proof.
  intros Htimes. unfold derivedTotalPlaintiffElapsed, sideTotal.
  rewrite (sideTotal_sum _ _ _ _ Htimes 0). reflexivity.
Qed.

Lemma derivedTotalDefenseElapsed_sum (st : AppState) :
  Forall (fun s => nonNegativeInteger (actualElapsed s)) (trialSegments st) →
  derivedTotalDefenseElapsed st
  = Fin (sumOver (weight forDefense) (trialSegments st)).
Proof.
  intros Htimes. unfold derivedTotalDefenseElapsed, sideTotal.
  rewrite (sideTotal_sum _ _ _ _ Htimes 0). reflexivity.
Qed.

(** Only the last segment of a timeline is the end marker. *)
Lemma sumOver_endMarker (cfg : TrialConfig) (segs : list Segment) :
  sameTimeline cfg segs →
  ∃ en, last segs = Some en ∧ type en = end_
        ∧ sumOver (weight isEndMarker) segs = recordedZ en.
Proof.
  intros Hshape.
  destruct (sameTimeline_split _ _ Hshape)
    as (front & pc & dc & rb & en & -> & _ & Hfront
        & (Hpc & _) & (Hdc & _) & (Hrb & _) & (Hen & _)).
  exists en. split; [|split; [done|]].
  - change (front ++ [pc; dc; rb; en]) with (front ++ [pc; dc; rb] ++ [en]).
    rewrite app_assoc. apply last_snoc.
  - rewrite sumOver_app, sumOver_zero.
    + unfold sumOver, weight, isEndMarker. cbn [foldr].
      rewrite Hpc, Hdc, Hrb, Hen.
      rewrite !bool_decide_eq_false_2 by discriminate.
      rewrite bool_decide_eq_true_2 by reflexivity. lia.
    + eapply Forall_impl; [exact Hfront|]. intros s Hs.
      unfold weight, isEndMarker.
      rewrite bool_decide_eq_false_2; [reflexivity|].
      intros Ht. cbv beta in Hs. rewrite Ht in Hs.
      elem_cases Hs; discriminate.
Qed.

(** X19. On a timeline whose recorded times are non-negative integers,
    the totals of the two sides shown in the summary cover the recorded
    time of every segment but the end marker, each second once: the
    plaintiff's total plus the defense's total plus the time recorded on
    the end marker is the sum of all recorded times. *)
Theorem X19_side_totals_cover_recorded_time (st : AppState) :
  sameTimeline (trialConfig st) (trialSegments st) →
  Forall (fun s => nonNegativeInteger (actualElapsed s)) (trialSegments st) →
  ∃ en,
    last (trialSegments st) = Some en
    ∧ type en = end_
    ∧ (derivedTotalPlaintiffElapsed st + derivedTotalDefenseElapsed st
       + actualElapsed en)%js
      = totalRecorded (trialSegments st).
Proof.
  intros Hshape Htimes.
  destruct (sumOver_endMarker _ _ Hshape) as (en & Hlast & Hen & Hsum).
  exists en. split; [done|]. split; [done|].
  rewrite (derivedTotalPlaintiffElapsed_sum st Htimes),
          (derivedTotalDefenseElapsed_sum st Htimes).
  rewrite totalRecorded_finite
    by (eapply Forall_impl; [exact Htimes|]; intros s (z & Hz & _); by exists z).
  assert (Hent : nonNegativeInteger (actualElapsed en)).
  { rewrite Forall_forall in Htimes. apply Htimes.
    apply last_Some in Hlast as [l ->]. apply elem_of_app. right.
    apply list_elem_of_singleton. reflexivity. }
  destruct Hent as (z & Hz & _). rewrite Hz. cbn [Js.add]. f_equal.
  rewrite (recordedZ_Fin _ _ Hz) in Hsum. rewrite <- Hsum.
  rewrite <- !sumOver_add. apply sumOver_ext.
  pose proof (sameTimeline_division _ _ Hshape) as Hdiv.
  eapply Forall_impl; [exact Hdiv|]. intros s Hs.
  destruct (Hs (recordedZ s)) as (H1 & _ & _). unfold weight. lia.
Qed.

(** X20. On such a timeline, the total of a side is the sum of the
    accumulators of its parts: for the plaintiff the opening, the
    direct budget, the cross budget, the closing and the rebuttal; for
    the defense the same without a rebuttal (the budget accumulators
    taken before the live counter is added). *)
Theorem X20_side_total_is_sum_of_parts (st : AppState) :
  sameTimeline (trialConfig st) (trialSegments st) →
  Forall (fun s => nonNegativeInteger (actualElapsed s)) (trialSegments st) →
  derivedTotalPlaintiffElapsed st
  = (pOpeningUsed st
     + usedLoop (Some Key.pOverallDirectDuration) (trialSegments st) (Fin 0)
     + usedLoop (Some Key.pOverallCrossDuration) (trialSegments st) (Fin 0)
     + pClosingUsed st + pRebuttalUsed st)%js
  ∧ derivedTotalDefenseElapsed st
    = (dOpeningUsed st
       + usedLoop (Some Key.dOverallDirectDuration) (trialSegments st) (Fin 0)
       + usedLoop (Some Key.dOverallCrossDuration) (trialSegments st) (Fin 0)
       + dClosingUsed st)%js.
Proof.
  intros Hshape Htimes.
  pose proof (sameTimeline_division _ _ Hshape) as Hdiv.
  rewrite (derivedTotalPlaintiffElapsed_sum st Htimes),
          (derivedTotalDefenseElapsed_sum st Htimes).
  unfold pOpeningUsed, pClosingUsed, pRebuttalUsed, dOpeningUsed, dClosingUsed.
  rewrite !(fixedUsedLoop_sum _ _ _ Htimes 0), !(usedLoop_sum _ _ Htimes 0).
  cbn [Js.add]. split; f_equal; rewrite !Z.add_0_l, <- !sumOver_add;
    apply sumOver_ext; (eapply Forall_impl; [exact Hdiv|]); intros s Hs;
    destruct (Hs (recordedZ s)) as (_ & H2 & H3); unfold weight; lia.
Qed.

(** Discharges the hypothesis on the recorded times of a concrete
    run. *)
Ltac concrete_times :=
  match goal with |- Forall _ ?l => evaluate_in_goal l end;
  repeat (apply Forall_cons_2; [eexists; split; [reflexivity | lia]|]);
  apply Forall_nil_2.

Lemma X19_side_totals_cover_recorded_time_witness :
  let st := run (startedWith (configWith 1 1)) jumpRunExample in
  ∃ en,
    last (trialSegments st) = Some en
    ∧ type en = end_
    ∧ (derivedTotalPlaintiffElapsed st + derivedTotalDefenseElapsed st
       + actualElapsed en)%js
      = totalRecorded (trialSegments st).
Proof.
  intros st. apply (X19_side_totals_cover_recorded_time st).
  - vm_compute; reflexivity.
  - concrete_times.
Defined.

Lemma X20_side_total_is_sum_of_parts_witness :
  let st := run (startedWith (configWith 1 1)) jumpRunExample in
  derivedTotalPlaintiffElapsed st
  = (pOpeningUsed st
     + usedLoop (Some Key.pOverallDirectDuration) (trialSegments st) (Fin 0)
     + usedLoop (Some Key.pOverallCrossDuration) (trialSegments st) (Fin 0)
     + pClosingUsed st + pRebuttalUsed st)%js
  ∧ derivedTotalDefenseElapsed st
    = (dOpeningUsed st
       + usedLoop (Some Key.dOverallDirectDuration) (trialSegments st) (Fin 0)
       + usedLoop (Some Key.dOverallCrossDuration) (trialSegments st) (Fin 0)
       + dClosingUsed st)%js.
Proof.
  intros st. apply (X20_side_total_is_sum_of_parts st).
  - vm_compute; reflexivity.
  - concrete_times.
Defined.

(** X25. The usage of a budget shown in the summary, on a timeline of
    a sane configuration with recorded times and a live counter [e]
    that are non-negative integers: it is the recorded time of all
    segments that draw on the budget plus, while the active segment
    draws on it, the whole live counter [e], whatever part of [e] is
    already recorded on the active segment. *)
Theorem X25_budget_usage_shown (st : AppState) (cs : Segment) (k : Key.t)
    (e : Z) :
  configSane (trialConfig st) →
  sameTimeline (trialConfig st) (trialSegments st) →
  Forall (fun s => nonNegativeInteger (actualElapsed s)) (trialSegments st) →
  currentSegment st = Some cs →
  currentSegmentElapsed st = Fin e →
  0 ≤ e →
  budgetUsed (Some k) st
  = Fin (sumOver (weight (drawsOn k)) (trialSegments st)
         + (if drawsOn k cs then e else 0)).
Proof.
  intros Hcfg Hshape Htimes Hcs He He0. unfold budgetUsed. cbv zeta.
  rewrite Hcs, He, (usedLoop_sum k _ Htimes 0), Z.add_0_l.
  change (doesSegmentContributeToBudget cs (Some k)) with (drawsOn k cs).
  destruct (drawsOn k cs) eqn:Hk.
  - pose proof (sameTimeline_classes _ _ Hcfg Hshape) as Hclass.
    rewrite Forall_forall in Hclass.
    destruct (Hclass cs (segAt_elem_of _ _ _ Hcs))
      as [(Hd & _)|[(_ & Ht)|(x & _ & _ & Ht)]].
    + rewrite Hd. cbn [Js.gtb Js.ltb Js.eqb Js.add].
      destruct (Z.ltb_spec 0 e); cbn [andb]; f_equal; lia.
    + unfold drawsOn in Hk. apply contributes_exam in Hk. rewrite Ht in Hk.
      elem_cases Hk; discriminate.
    + unfold drawsOn in Hk. apply contributes_exam in Hk.
      destruct (type cs); elem_cases Hk; elem_cases Ht; discriminate.
  - rewrite !andb_false_r. f_equal. lia.
Qed.

Lemma X25_budget_usage_shown_witness :
  let st := run redirectRunning [Next; RecrossDecision true; Previous] in
  ∃ cs, currentSegment st = Some cs
    ∧ budgetUsed (Some Key.pOverallDirectDuration) st
      = Fin (sumOver (weight (drawsOn Key.pOverallDirectDuration))
               (trialSegments st)
             + (if drawsOn Key.pOverallDirectDuration cs then 3 else 0)).
Proof.
  intros st. eexists. split; [vm_compute; reflexivity|].
  eapply (X25_budget_usage_shown st _ Key.pOverallDirectDuration 3).
  - repeat split; (eexists; split; [vm_compute; reflexivity | lia]).
  - vm_compute; reflexivity.
  - concrete_times.
  - vm_compute; reflexivity.
  - vm_compute; reflexivity.
  - lia.
Defined.

(** *** Settings *)

Lemma witnessCount_integer (value : string) :
  nonNegativeInteger (witnessCount value)
  ∧ (Js.parseInt value = NaN → witnessCount value = Fin 0).
Proof. exact (coerced_minutes value). Qed.







(** *** Reset of the current phase *)

Lemma usedBeforeLoop_alter_later (key : option Key.t) (current : Z)
    (f : Segment → Segment) :
  ∀ (arr : list Segment) (i : nat) (index : Z) (acc : jsnum),
    current ≤ index + Z.of_nat i →
    usedBeforeLoop key current (alter f i arr) index acc
    = usedBeforeLoop key current arr index acc.
Proof.
  induction arr as [|x arr IH]; intros i index acc Hi; [reflexivity|].
  destruct i as [|i].
  - change (alter f 0%nat (x :: arr)) with (f x :: arr).
    cbn [usedBeforeLoop].
    rewrite (bool_decide_eq_false_2 (index < current)) by lia. reflexivity.
  - change (alter f (S i) (x :: arr)) with (x :: alter f i arr).
    cbn [usedBeforeLoop]. apply IH. lia.
Qed.

Lemma find_alter_other (P : Segment → bool) (f : Segment → Segment) :
  (∀ x, P (f x) = P x) →
  ∀ (l : list Segment) (i : nat) (c : Segment),
    l !! i = Some c → P c = false →
    find P (alter f i l) = find P l.
Proof.
  intros HP. induction l as [|x l IH]; intros i c Hc Hfalse; [reflexivity|].
  destruct i as [|i].
  - injection Hc as ->.
    change (alter f 0%nat (c :: l)) with (f c :: l).
    cbn [find]. by rewrite HP, Hfalse.
  - change (alter f (S i) (x :: l)) with (x :: alter f i l).
    cbn [find]. destruct (P x); [reflexivity|]. by eapply IH.
Qed.

Lemma confirmResetCurrentPhase_active (st : AppState) (cs : Segment) :
  currentSegment st = Some cs →
  confirmResetCurrentPhase st
  = setTrialSegments
      (alterAt (withActualElapsed (Fin 0)) (currentSegmentIndex st))
      (setCurrentSegmentElapsed (Fin 0) st)
  ∧ currentSegment (confirmResetCurrentPhase st)
    = Some (withActualElapsed (Fin 0) cs).
Proof.
  intros Hcs. unfold confirmResetCurrentPhase, currentSegment in *.
  unfold setTrialSegments at 1. simpl_state. rewrite Hcs.
  split; [reflexivity|]. by apply segAt_alterAt_eq.
Qed.

Lemma display_rebuttal (st : AppState) (cs : Segment) :
  currentSegment st = Some cs → duration cs = PInf → type cs = rebuttal →
  totalBudget (displayRemainingTime st) = rebuttalBudget st.
Proof.
  intros Hcs Hd Ht. unfold displayRemainingTime. rewrite Hcs, Hd.
  cbn [Js.eqb negb]. destruct (decide (type cs = rebuttal)); [|done].
  by destruct (clipRemaining _).
Qed.

Lemma safe_confirmResetCurrentPhase (st : AppState) :
  EditSafe st → EditSafe (confirmResetCurrentPhase st).
Proof.
  intros [Hc Hshape Hrec Hlive]. unfold confirmResetCurrentPhase.
  unfold setTrialSegments at 1. simpl_state.
  destruct (segAt (trialSegments st) (currentSegmentIndex st));
    constructor; simpl_state; try done.
  - by apply sameTimeline_alterAt.
  - apply Forall_alterAt; [done|]. intros x _ _. unfold recordedOk. by cbn.
Qed.

(** X23. Resetting the current phase (the request and its
    confirmation), in a state on which the editor works: the timer is
    stopped, the live counter and the recorded time of the active
    segment become 0 and nothing else changes, so the state stays one
    on which the editor works; the display keeps the allotment [T] and
    the usage [u] before the active segment that it showed, and now
    shows [max (0, T - u)] remaining and [max (0, u - T)] overtime. *)
Theorem X23_reset_current_phase (st : AppState) (cs : Segment) :
  EditSafe st →
  currentSegment st = Some cs →
  let st' := confirmResetCurrentPhase (requestResetCurrentPhase st) in
  let d := displayRemainingTime st in
  let d' := displayRemainingTime st' in
  EditSafe st'
  ∧ isRunning st' = false
  ∧ currentSegmentElapsed st' = Fin 0
  ∧ trialSegments st'
    = alterAt (withActualElapsed (Fin 0)) (currentSegmentIndex st)
        (trialSegments st)
  ∧ ∃ T u,
      totalBudget d = Fin T ∧ usedBeforeCurrentSegment d = Fin u
      ∧ totalBudget d' = Fin T ∧ usedBeforeCurrentSegment d' = Fin u
      ∧ value d' = Fin (Z.max 0 (T - u))
      ∧ overtime d' = Fin (Z.max 0 (u - T)).
Proof.
  intros Hsafe Hcs. cbv zeta.
  set (q := requestResetCurrentPhase st).
  set (st' := confirmResetCurrentPhase q).
  set (d := displayRemainingTime st).
  set (d' := displayRemainingTime st').
  assert (Hq : EditSafe q) by (by destruct Hsafe).
  assert (Hcsq : currentSegment q = Some cs) by exact Hcs.
  destruct (confirmResetCurrentPhase_active q cs Hcsq) as [Heq Hcs'].
  fold st' in Heq, Hcs'.
  pose proof (safe_confirmResetCurrentPhase q Hq) as Hsafe'. fold st' in Hsafe'.
  split; [exact Hsafe'|]. split; [by rewrite Heq|].
  split; [by rewrite Heq|]. split; [by rewrite Heq|].
  assert (Hlive' : currentSegmentElapsed st' = Fin 0) by (by rewrite Heq).
  assert (Hsegs' : trialSegments st'
                   = alterAt (withActualElapsed (Fin 0)) (currentSegmentIndex st)
                       (trialSegments st)) by (by rewrite Heq).
  assert (Hidx' : currentSegmentIndex st' = currentSegmentIndex st)
    by (by rewrite Heq).
  assert (Hcfg' : trialConfig st' = trialConfig st) by (by rewrite Heq).
  pose proof (proj1 (segAt_Some _ _ _) Hcs) as [Hidx Hlook].
  destruct (display_safe st cs Hsafe Hcs)
    as (T & u & _ & _ & E1 & E2 & _ & Hk). fold d in E1, E2, Hk.
  destruct (display_safe st' _ Hsafe' Hcs')
    as (T' & u' & _ & _ & E1' & E2' & Hv' & Hk'). fold d' in E1', E2', Hv', Hk'.
  assert (HTu : T' = T ∧ u' = u).
  { destruct Hk as [(_ & _ & -> & Hn & Hdur & Hreb)
                   |(_ & _ & _ & Ht & k & _ & Hkc & HT & Hu)],
             Hk' as [(_ & _ & -> & Hn' & Hdur' & Hreb')
                    |(_ & _ & _ & Ht' & k' & _ & Hkc' & HT' & Hu')];
      try done.
    - split; [|reflexivity].
      destruct (decide (type cs = rebuttal)) as [Hr|Hr].
      + pose proof (display_rebuttal st cs Hcs (Hreb Hr) Hr) as R1.
        pose proof (display_rebuttal st' _ Hcs' (Hreb' Hr) Hr) as R2.
        fold d in R1. fold d' in R2.
        assert (R : rebuttalBudget st' = rebuttalBudget st).
        { unfold rebuttalBudget. rewrite Hsegs', Hcfg'. unfold alterAt.
          destruct (decide (0 ≤ currentSegmentIndex st)); [|lia].
          erewrite find_alter_other; [reflexivity| |exact Hlook|].
          - reflexivity.
          - rewrite Hr. reflexivity. }
        congruence.
      + specialize (Hdur Hr). specialize (Hdur' Hr). cbn in Hdur'. congruence.
    - assert (k' = k) by (by eapply contributes_unique). subst k'.
      split; [rewrite Hcfg' in HT'; congruence|].
      assert (U : usedBeforeCurrent (Some k) st' = usedBeforeCurrent (Some k) st).
      { unfold usedBeforeCurrent. rewrite Hsegs', Hidx'. unfold alterAt.
        destruct (decide (0 ≤ currentSegmentIndex st)); [|lia].
        apply usedBeforeLoop_alter_later. lia. }
      congruence. }
  destruct HTu as [-> ->]. exists T, u.
  rewrite Hlive', Js_add_Fin, Js_sub_Fin, clipRemaining_Fin in Hv'.
  injection Hv' as Hv' Ho'.
  repeat split; try done.
  - rewrite <- Hv'. f_equal. lia.
  - rewrite <- Ho'. f_equal. lia.
Qed.

Lemma X23_reset_current_phase_witness :
  let st := redirectRunning in
  let st' := confirmResetCurrentPhase (requestResetCurrentPhase st) in
  let d := displayRemainingTime st in
  let d' := displayRemainingTime st' in
  EditSafe st
  ∧ ∃ cs, currentSegment st = Some cs
    ∧ EditSafe st'
    ∧ isRunning st' = false
    ∧ currentSegmentElapsed st' = Fin 0
    ∧ trialSegments st'
      = alterAt (withActualElapsed (Fin 0)) (currentSegmentIndex st)
          (trialSegments st)
    ∧ ∃ T u,
        totalBudget d = Fin T ∧ usedBeforeCurrentSegment d = Fin u
        ∧ totalBudget d' = Fin T ∧ usedBeforeCurrentSegment d' = Fin u
        ∧ value d' = Fin (Z.max 0 (T - u))
        ∧ overtime d' = Fin (Z.max 0 (u - T)).
Proof.
  intros st st' d d'. split; [concrete_safe|].
  eexists. split; [vm_compute; reflexivity|].
  eapply (X23_reset_current_phase st).
  - concrete_safe.
  - vm_compute; reflexivity.
Defined.

(** *** Full reset *)




(** *** Display of times *)

Lemma padStart_twoDigits (k : Z) :
  0 ≤ k < 100 → padStart 2 "0" (pretty k) = twoDigits k.
Proof.
  intros Hk.
  assert (H : Forall (fun k => padStart 2 "0" (pretty k) = twoDigits k)
                (seqZ 0 100)).
  { apply (bool_decide_unpack _). vm_compute. exact I. }
  rewrite Forall_forall in H. apply H. apply elem_of_seqZ. lia.
Qed.

Lemma length_twoDigits (k : Z) : String.length (twoDigits k) = 2%nat.
Proof. reflexivity. Qed.

Lemma append_assoc (a b c : string) : (a +:+ b) +:+ c = a +:+ (b +:+ c).
Proof.
  induction a as [|x a IH]; [reflexivity|].
  change (String x ((a +:+ b) +:+ c) = String x (a +:+ (b +:+ c))).
  by rewrite IH.
Qed.

Lemma length_append (a b : string) :
  String.length (a +:+ b) = (String.length a + String.length b)%nat.
Proof.
  induction a as [|x a IH]; [reflexivity|].
  change (S (String.length (a +:+ b)) = S (String.length a + String.length b)).
  by rewrite IH.
Qed.

(** Two texts that end in parts of the same length have equal parts. *)
Lemma append_inj_tail (a a' b b' : string) :
  String.length b = String.length b' →
  a +:+ b = a' +:+ b' → a = a' ∧ b = b'.
Proof.
  revert a'. induction a as [|x a IH]; intros a' Hlen Heq.
  - destruct a' as [|y a']; [by split|]. exfalso.
    apply (f_equal String.length) in Heq.
    change ("" +:+ b) with b in Heq. rewrite length_append in Heq.
    cbn in Heq. lia.
  - destruct a' as [|y a'].
    + exfalso. apply (f_equal String.length) in Heq.
      change ("" +:+ b') with b' in Heq. rewrite length_append in Heq.
      cbn in Heq. lia.
    + change (String x (a +:+ b) = String y (a' +:+ b')) in Heq.
      injection Heq as -> Heq. destruct (IH a' Hlen Heq) as [-> ->].
      by split.
Qed.

(** The decimal text of a positive number starts with a digit other
    than 0, and has a further character from 10 on. *)
Lemma pretty_N_go_head (x : N) :
  (0 < x)%N →
  ∀ s, ∃ c r, pretty_N_go x s = String c (r +:+ s) ∧ c ≠ "0"%char
              ∧ ((10 ≤ x)%N → r ≠ EmptyString)
              ∧ ((x < 10)%N → r = EmptyString).
Proof.
  induction (N.lt_wf_0 x) as [x _ IH]. intros Hx s.
  rewrite pretty_N_go_step by done.
  destruct (decide (x < 10)%N) as [Hlt|Hge].
  - rewrite N.div_small, pretty_N_go_0 by done.
    exists (pretty_N_char (x `mod` 10)), EmptyString.
    rewrite N.mod_small by done. repeat split; try done; try lia.
    intros Hzero. apply (pretty_N_char_inj x 0) in Hzero; lia.
  - assert (Hdiv : (0 < x `div` 10)%N).
    { apply N.div_str_pos. lia. }
    destruct (IH (x `div` 10)%N) with
      (s := String (pretty_N_char (x `mod` 10)) s) as (c & r & Heq & Hc & _ & _).
    { apply N.div_lt; lia. }
    { exact Hdiv. }
    exists c, (r +:+ String (pretty_N_char (x `mod` 10)) EmptyString).
    rewrite Heq, append_assoc. repeat split; try done; try lia.
    intros _. destruct r; discriminate.
Qed.

Lemma pretty_Z_head (k : Z) :
  0 < k →
  ∃ c r, pretty k = String c r ∧ c ≠ "0"%char
         ∧ (10 ≤ k → r ≠ EmptyString) ∧ (k < 10 → r = EmptyString).
Proof.
  intros Hk. destruct k as [|p|p]; try lia.
  destruct (pretty_N_go_head (N.pos p) ltac:(lia) EmptyString)
    as (c & r & Heq & Hc & Hge & Hlt).
  exists c, r. unfold pretty, pretty_Z, pretty, pretty_positive, pretty, pretty_N.
  rewrite decide_False by lia. rewrite Heq.
  assert (Hr : r +:+ "" = r).
  { clear. induction r as [|x r IH]; [reflexivity|].
    change (String x (r +:+ "") = String x r). by rewrite IH. }
  rewrite Hr. split; [reflexivity|]. split; [exact Hc|]. split.
  - intros H. apply Hge. lia.
  - intros H. apply Hlt. lia.
Qed.

(** Padding to two characters keeps distinct non-negative numbers
    apart. *)
Lemma padStart_pretty_inj (x y : Z) :
  0 ≤ x → 0 ≤ y →
  padStart 2 "0" (pretty x) = padStart 2 "0" (pretty y) → x = y.
Proof.
  assert (Hsmall : ∀ k, 0 ≤ k < 10 →
            padStart 2 "0" (pretty k) = String "0" (pretty k)).
  { intros k Hk.
    assert (H : Forall (fun k => padStart 2 "0" (pretty k)
                                 = String "0" (pretty k)) (seqZ 0 10)).
    { apply (bool_decide_unpack _). vm_compute. exact I. }
    rewrite Forall_forall in H. apply H. apply elem_of_seqZ. lia. }
  assert (Hbig : ∀ k, 10 ≤ k →
            padStart 2 "0" (pretty k) = pretty k
            ∧ ∃ c r, pretty k = String c r ∧ c ≠ "0"%char).
  { intros k Hk.
    destruct (pretty_Z_head k ltac:(lia)) as (c & r & Heq & Hc & Hr & _).
    specialize (Hr Hk). split; [|by exists c, r].
    unfold padStart. rewrite Heq. destruct r as [|d r]; [done|]. reflexivity. }
  intros Hx Hy Heq.
  destruct (decide (x < 10)) as [Hxs|Hxb], (decide (y < 10)) as [Hys|Hyb].
  - rewrite (Hsmall x), (Hsmall y) in Heq by lia.
    injection Heq as Heq. by apply (inj pretty).
  - destruct (Hbig y ltac:(lia)) as [Ey (c & r & Hc & Hne)].
    rewrite (Hsmall x), Ey, Hc in Heq by lia.
    injection Heq as Heq _. congruence.
  - destruct (Hbig x ltac:(lia)) as [Ex (c & r & Hc & Hne)].
    rewrite (Hsmall y), Ex, Hc in Heq by lia.
    injection Heq as Heq _. congruence.
  - destruct (Hbig x ltac:(lia)) as [Ex _], (Hbig y ltac:(lia)) as [Ey _].
    rewrite Ex, Ey in Heq. by apply (inj pretty).
Qed.

Lemma formatTime_Fin (n : Z) :
  0 ≤ n →
  formatTime (Fin n)
  = padStart 2 "0" (pretty (n / 60)) +:+ ":" +:+ twoDigits (n mod 60).
Proof.
  intros Hn. unfold formatTime. cbn [Js.floorDiv Js.rem numberToString].
  rewrite Z.rem_mod_nonneg by lia.
  rewrite (padStart_twoDigits (n mod 60)); [reflexivity|].
  pose proof (Z.mod_pos_bound n 60 ltac:(lia)). lia.
Qed.

(** X26. A time of less than 100 minutes is shown with exactly five
    characters: the two decimal digits of the whole minutes, a colon,
    and the two decimal digits of the remaining seconds, each padded
    with a zero. *)
Theorem X26_formatTime_minutes_and_seconds (n : Z) :
  0 ≤ n < 6000 →
  formatTime (Fin n)
  = twoDigits (n / 60) +:+ ":" +:+ twoDigits (n mod 60).
Proof.
  intros Hn. rewrite formatTime_Fin by lia.
  rewrite padStart_twoDigits; [reflexivity|].
  split; [apply Z.div_pos; lia | apply Z.div_lt_upper_bound; lia].
Qed.

Lemma X26_formatTime_minutes_and_seconds_witness :
  formatTime (Fin 754) = "12:34".
Proof. apply (X26_formatTime_minutes_and_seconds 754). lia. Defined.

(** X27. Distinct non-negative times are shown differently: the text
    of [formatTime] determines the number of seconds. *)
Theorem X27_formatTime_injective (a b : Z) :
  0 ≤ a → 0 ≤ b →
  formatTime (Fin a) = formatTime (Fin b) → a = b.
Proof.
  intros Ha Hb Heq. rewrite !formatTime_Fin in Heq by lia.
  rewrite <- !append_assoc in Heq.
  apply append_inj_tail in Heq as [Hm Hs]; [|reflexivity].
  apply append_inj_tail in Hm as [Hm _]; [|reflexivity].
  apply padStart_pretty_inj in Hm;
    [|apply Z.div_pos; lia|apply Z.div_pos; lia].
  pose proof (Z.mod_pos_bound a 60 ltac:(lia)) as Ba.
  pose proof (Z.mod_pos_bound b 60 ltac:(lia)) as Bb.
  assert (Hsec : a mod 60 = b mod 60).
  { rewrite <- !padStart_twoDigits in Hs by lia.
    apply padStart_pretty_inj in Hs; lia. }
  rewrite (Z.div_mod a 60), (Z.div_mod b 60) by lia. lia.
Qed.

Lemma X27_formatTime_injective_witness :
  formatTime (Fin 3599) = formatTime (Fin (59 * 60 + 59))
  ∧ 3599 = 59 * 60 + 59.
Proof.
  split; [reflexivity|].
  apply (X27_formatTime_injective 3599 (59 * 60 + 59));
    [lia | lia | reflexivity].
Defined.
